(** * Swift object auditor and crypto-metadata helpers: a shallow embedding

    The development follows two source files of the repository:

    - [swift/common/crypto_utils.py]: [CryptoWSGIContext.get_keys],
      [dump_crypto_meta], [load_crypto_meta], [append_crypto_meta],
      [extract_crypto_meta] and [parse_header_keys];
    - [swift/obj/auditor.py]: [AuditorWorker.object_audit] and
      [AuditorWorker.audit_all_objects].

    Python byte strings are Rocq [string]s, Python dictionaries are
    [gmap]s, Python integers are [Z], wall-clock times and rates are
    rationals [Q].  A Python call either returns a value or raises: this
    is the type [outcome]. *)

From Stdlib Require Import ZArith QArith Ascii String List Lia Lqa Bool.
From stdpp Require Import gmap strings list fin_maps.

Local Open Scope Z_scope.
Local Open Scope stdpp_scope.

(** ** Exceptions and outcomes *)

(** The exception classes the two files raise, catch or let through.
    All of them are subclasses of Python's [Exception].  [Unmodelled] is
    not a Python exception: a library model answers it on an input that
    lies outside the fragment it describes, and no statement below says
    what Python does there. *)
Inductive exn : Type :=
| KeyError (key : string)
| TypeError
| ValueError
| AttributeError
| ZeroDivisionError
| OSError
| AuditException (why : audit_failure)
| EncryptionException (value : string) (err : exn)
| HTTPInternalServerError (body : string)
| HTTPBadRequest (body : string)
| Unmodelled
with audit_failure : Type :=
| ReadingMetadata (exc : exn)
| ContentLengthDiffers (recorded actual : Z)
| ETagDiffers (recorded actual : string).

Inductive outcome (A : Type) : Type :=
| Return (a : A)
| Raise (e : exn).
Arguments Return {A} a.
Arguments Raise {A} e.

Global Instance outcome_ret : MRet outcome := fun A a => Return a.
Global Instance outcome_bind : MBind outcome := fun A B k c =>
  match c with
  | Return a => k a
  | Raise e => Raise e
  end.
Global Instance outcome_fmap : FMap outcome := fun A B f c =>
  match c with
  | Return a => Return (f a)
  | Raise e => Raise e
  end.

(** [d[k]] on a dictionary. *)
Definition getitem {V} (d : gmap string V) (k : string) : outcome V :=
  match d !! k with
  | Some v => Return v
  | None => Raise (KeyError k)
  end.

(** Sequencing a fallible function over a list, left to right; the first
    failure is the one raised. *)
Fixpoint traverse {A B} (f : A → outcome B) (l : list A) : outcome (list B) :=
  match l with
  | [] => Return []
  | a :: l' => b ← f a; bs ← traverse f l'; Return (b :: bs)
  end.

(** ** Byte strings *)

Module Str.

Fixpoint all (p : ascii → bool) (s : string) : bool :=
  match s with
  | "" => true
  | String c r => p c && all p r
  end.

(** 7-bit characters. *)
Definition is_ascii (c : ascii) : bool :=
  match c with Ascii _ _ _ _ _ _ _ b7 => negb b7 end.

Definition eqc (a b : ascii) : bool := Ascii.eqb a b.

(** [c in s] for a character [c]. *)
Fixpoint mem (c : ascii) (s : string) : bool :=
  match s with
  | "" => false
  | String d r => eqc c d || mem c r
  end.

(** [s.startswith(p)] *)
Fixpoint startswith (p s : string) : bool :=
  match p, s with
  | "", _ => true
  | String a p', String b s' => eqc a b && startswith p' s'
  | String _ _, "" => false
  end.

(** [s.endswith(p)] *)
Definition endswith (p s : string) : bool :=
  startswith (String.rev p) (String.rev s).

(** [s[n:]] *)
Fixpoint drop (n : nat) (s : string) : string :=
  match n, s with
  | O, _ => s
  | S n', String _ r => drop n' r
  | S _, "" => ""
  end.

(** [s.lstrip()], [s.rstrip()] and [s.strip()]: Python strips the six
    ASCII white-space characters, which is [Ascii.is_space]. *)
Fixpoint lstrip (s : string) : string :=
  match s with
  | String c r => if Ascii.is_space c then lstrip r else s
  | "" => ""
  end.

Fixpoint rstrip (s : string) : string :=
  match s with
  | "" => ""
  | String c r =>
      match rstrip r with
      | "" => if Ascii.is_space c then "" else String c ""
      | r' => String c r'
      end
  end.

Definition strip (s : string) : string := rstrip (lstrip s).

(** [s.rsplit(sep, 1)] for a one-character separator: [None] stands for
    the one-element list [[s]] (no separator in [s]), [Some (a, b)] for
    the two-element list [[a, b]] split at the last separator. *)
Fixpoint rsplit1 (sep : ascii) (s : string) : option (string * string) :=
  match s with
  | "" => None
  | String c r =>
      match rsplit1 sep r with
      | Some (a, b) => Some (String c a, b)
      | None => if eqc c sep then Some ("", r) else None
      end
  end.

(** [s.split(sep, 1)]: split at the first separator. *)
Fixpoint split1 (sep : ascii) (s : string) : option (string * string) :=
  match s with
  | "" => None
  | String c r =>
      if eqc c sep then Some ("", r)
      else match split1 sep r with
           | Some (a, b) => Some (String c a, b)
           | None => None
           end
  end.

(** [s.split(sep, n)]: at most [n] splits, so at most [n + 1] parts. *)
Fixpoint split (sep : ascii) (n : nat) (s : string) : list string :=
  match n with
  | O => [s]
  | S n' =>
      match split1 sep s with
      | Some (a, b) => a :: split sep n' b
      | None => [s]
      end
  end.

Definition len (s : string) : Z := Z.of_nat (String.length s).

End Str.

(** ** The [base64] module (Python 2.7)

    A byte is an [ascii], eight booleans with the least significant bit
    first; a base64 digit carries six bits, written here most significant
    bit first. *)

Module Base64.

Definition sextet : Type := (bool * bool * bool * bool * bool * bool)%type.

Definition sextet_index (s : sextet) : nat :=
  let '(b5, b4, b3, b2, b1, b0) := s in
  (if b5 then 32 else 0) + (if b4 then 16 else 0) + (if b3 then 8 else 0)
  + (if b2 then 4 else 0) + (if b1 then 2 else 0) + (if b0 then 1 else 0).

Definition alphabet : string :=
  "ABCDEFGHIJKLMNOPQRSTUVWXYZabcdefghijklmnopqrstuvwxyz0123456789+/".

Definition digit (s : sextet) : ascii :=
  match String.get (sextet_index s) alphabet with
  | Some c => c
  | None => "="%char
  end.

Definition all_sextets : list sextet :=
  b5 ← [false; true]; b4 ← [false; true]; b3 ← [false; true];
  b2 ← [false; true]; b1 ← [false; true]; b0 ← [false; true];
  [(b5, b4, b3, b2, b1, b0)].

(** [table_a2b_base64]: the value of a base64 digit, [None] for the
    entries that hold -1. *)
Definition value (c : ascii) : option sextet :=
  List.find (fun s => Str.eqc (digit s) c) all_sextets.

(** [binascii.b2a_base64] without its final newline, which is what
    [base64.b64encode] returns. *)
Fixpoint b64encode (s : string) : string :=
  match s with
  | "" => ""
  | String (Ascii a0 a1 a2 a3 a4 a5 a6 a7) "" =>
      String (digit (a7, a6, a5, a4, a3, a2))
        (String (digit (a1, a0, false, false, false, false)) "==")
  | String (Ascii a0 a1 a2 a3 a4 a5 a6 a7)
      (String (Ascii b0 b1 b2 b3 b4 b5 b6 b7) "") =>
      String (digit (a7, a6, a5, a4, a3, a2))
        (String (digit (a1, a0, b7, b6, b5, b4))
           (String (digit (b3, b2, b1, b0, false, false)) "="))
  | String (Ascii a0 a1 a2 a3 a4 a5 a6 a7)
      (String (Ascii b0 b1 b2 b3 b4 b5 b6 b7)
         (String (Ascii c0 c1 c2 c3 c4 c5 c6 c7) r)) =>
      String (digit (a7, a6, a5, a4, a3, a2))
        (String (digit (a1, a0, b7, b6, b5, b4))
           (String (digit (b3, b2, b1, b0, c7, c6))
              (String (digit (c5, c4, c3, c2, c1, c0)) (b64encode r))))
  end.

(** Characters [binascii.a2b_base64] steps over before it looks at the
    table: bytes above 0x7f, carriage return, line feed and space. *)
Definition skipped (c : ascii) : bool :=
  negb (Str.is_ascii c) || Str.eqc c "013" || Str.eqc c "010" || Str.eqc c " ".

Definition is_pad (c : ascii) : bool := Str.eqc c "=".

(** [binascii_find_valid(s, slen, num)]: the [(num+1)]-th character of
    [s] that is 7-bit and has a table entry; the pad character has the
    table entry 0, so it counts. *)
Fixpoint find_valid (s : string) (num : nat) : option ascii :=
  match s with
  | "" => None
  | String c r =>
      if Str.is_ascii c && (is_pad c || bool_decide (is_Some (value c)))
      then match num with
           | O => Some c
           | S n => find_valid r n
           end
      else find_valid r num
  end.

(** The decoding loop of [binascii.a2b_base64]. [quad_pos] is the
    position in the current group of four digits, [left] the bits
    shifted in and not yet written out ([leftchar], of which [leftbits]
    bits are in use). The result is the bytes written from this point
    on; [TypeError] is what [base64.b64decode] turns the
    "Incorrect padding" error into. *)
Fixpoint a2b_loop (s : string) (quad_pos : nat) (left : list bool)
  : outcome string :=
  match s with
  | "" =>
      match left with
      | [] => Return ""
      | _ :: _ => Raise TypeError
      end
  | String c r =>
      if skipped c then a2b_loop r quad_pos left
      else if is_pad c then
        if (quad_pos <? 2)%nat
           || ((quad_pos =? 2)%nat
               && negb (bool_decide (find_valid s 1 = Some "="%char)))
        then a2b_loop r quad_pos left
        else Return ""
      else
        match value c with
        | None => a2b_loop r quad_pos left
        | Some (b5, b4, b3, b2, b1, b0) =>
            let quad_pos' := ((quad_pos + 1) mod 4)%nat in
            match left ++ [b5; b4; b3; b2; b1; b0] with
            | x7 :: x6 :: x5 :: x4 :: x3 :: x2 :: x1 :: x0 :: left' =>
                bs ← a2b_loop r quad_pos' left';
                Return (String (Ascii x0 x1 x2 x3 x4 x5 x6 x7) bs)
            | left' => a2b_loop r quad_pos' left'
            end
        end
  end.

Definition b64decode (s : string) : outcome string := a2b_loop s 0 [].

(** A character of base64 text: one of the 64 digits, or the padding
    character. *)
Definition base64_char (c : ascii) : bool :=
  is_pad c || bool_decide (is_Some (value c)).

(** The characters of base64 text in a string. *)
Fixpoint base64_chars (v : string) : string :=
  match v with
  | "" => ""
  | String c r =>
      if base64_char c then String c (base64_chars r) else base64_chars r
  end.

End Base64.

(** ** [urllib.quote_plus] and [urllib.unquote_plus] (Python 2.7) *)

Module Urllib.

Definition always_safe : string :=
  "ABCDEFGHIJKLMNOPQRSTUVWXYZabcdefghijklmnopqrstuvwxyz0123456789_.-".

Definition nibble : Type := (bool * bool * bool * bool)%type.

Definition nibble_index (n : nibble) : nat :=
  let '(b3, b2, b1, b0) := n in
  (if b3 then 8 else 0) + (if b2 then 4 else 0)
  + (if b1 then 2 else 0) + (if b0 then 1 else 0).

Definition hex_digit (digits : string) (n : nibble) : ascii :=
  match String.get (nibble_index n) digits with
  | Some c => c
  | None => "0"%char
  end.

Definition all_nibbles : list nibble :=
  b3 ← [false; true]; b2 ← [false; true];
  b1 ← [false; true]; b0 ← [false; true]; [(b3, b2, b1, b0)].

(** The value of a hexadecimal digit of either case. *)
Definition hex_value (c : ascii) : option nibble :=
  List.find
    (fun n => Str.eqc (hex_digit "0123456789ABCDEF" n) c
              || Str.eqc (hex_digit "0123456789abcdef" n) c)
    all_nibbles.

(** ['%{:02X}'.format(i)] *)
Definition percent (c : ascii) : string :=
  match c with
  | Ascii b0 b1 b2 b3 b4 b5 b6 b7 =>
      String "%" (String (hex_digit "0123456789ABCDEF" (b7, b6, b5, b4))
                    (String (hex_digit "0123456789ABCDEF" (b3, b2, b1, b0)) ""))
  end.

(** The entry of [_safe_map], updated with the characters of [safe]. *)
Definition quoter (safe : string) (c : ascii) : string :=
  if Str.mem c safe || (Str.is_ascii c && Str.mem c always_safe)
  then String c ""
  else percent c.

(** [quote(s, safe)]: the quoter mapped over [s] and joined. The two
    fast paths of the library (an empty [s], an [s] of safe characters
    only) return [s], which is the same string. *)
Fixpoint quote (safe : string) (s : string) : string :=
  match s with
  | "" => ""
  | String c r => quoter safe c +:+ quote safe r
  end.

(** [s.replace(a, b)] for single characters. *)
Fixpoint replace (a b : ascii) (s : string) : string :=
  match s with
  | "" => ""
  | String c r => String (if Str.eqc c a then b else c) (replace a b r)
  end.

Definition quote_plus (s : string) : string :=
  if Str.mem " " s then replace " " "+" (quote " " s) else quote "" s.

(** [unquote]: the library splits at every percent sign and decodes the
    two characters that follow one when both are hexadecimal digits;
    otherwise the percent sign stays. Read left to right this is: *)
Fixpoint unquote (s : string) : string :=
  match s with
  | "" => ""
  | String c t =>
      if Str.eqc c "%" then
        match t with
        | String h1 (String h2 r) =>
            match hex_value h1, hex_value h2 with
            | Some (b7, b6, b5, b4), Some (b3, b2, b1, b0) =>
                String (Ascii b0 b1 b2 b3 b4 b5 b6 b7) (unquote r)
            | _, _ => String c (unquote t)
            end
        | _ => String c (unquote t)
        end
      else String c (unquote t)
  end.

Definition unquote_plus (s : string) : string :=
  unquote (replace "+" " " s).

(** What [quote_plus] writes for one character, and for a string. *)
Definition plus_quoter (c : ascii) : string :=
  if Str.eqc c " " then "+" else quoter "" c.

Fixpoint plus_quote (s : string) : string :=
  match s with
  | "" => ""
  | String c r => plus_quoter c +:+ plus_quote r
  end.

(** The characters [quote_plus] can produce. *)
Definition url_safe (c : ascii) : bool :=
  Str.mem c always_safe || Str.mem c "%+".

End Urllib.

(** ** Python values that are JSON scalars *)

Inductive pyval : Type :=
| PyStr (s : string)
| PyInt (n : Z)
| PyBool (b : bool)
| PyNone.

(** What [json.loads] returns on the modelled fragment: a scalar, or a
    dictionary of scalars. *)
Inductive pyobj : Type :=
| Atom (v : pyval)
| Dict (d : gmap string pyval).

(** Decimal digits of a positive number, least significant digit first
    in the recursion, accumulated in reading order. *)
Fixpoint digits_of (fuel : nat) (n : Z) (acc : string) : string :=
  match fuel with
  | O => acc
  | S f =>
      let acc' := String (ascii_of_N (48 + Z.to_N (n mod 10))) acc in
      if n / 10 =? 0 then acc' else digits_of f (n / 10) acc'
  end.

(** [str(n)] for an [int] or a [long]. *)
Definition str_of_int (n : Z) : string :=
  if n <? 0 then String "-" (digits_of (Z.to_nat (Z.log2 (- n)) + 1) (- n) "")
  else digits_of (Z.to_nat (Z.log2 n) + 1) n "".

(** [str(value)] *)
Definition py_str (v : pyval) : string :=
  match v with
  | PyStr s => s
  | PyInt n => str_of_int n
  | PyBool true => "True"
  | PyBool false => "False"
  | PyNone => "None"
  end.

(** The dictionary a sequence of [(key, value)] pairs builds: a later
    pair overrides an earlier one with the same key. *)
Definition put {V} (d : gmap string V) (kv : string * V) : gmap string V :=
  <[kv.1 := kv.2]> d.

Definition dict_of_items {V} (items : list (string * V)) : gmap string V :=
  foldl put ∅ items.

(** [{f(k, v) for k, v in d.items()}] where [f] gives a pair and may
    raise. *)
Definition dict_comprehension {A B}
    (f : string → A → outcome (string * B)) (d : gmap string A)
  : outcome (gmap string B) :=
  items ← traverse (fun kv => f kv.1 kv.2) (map_to_list d);
  Return (dict_of_items items).

(** ** The [json] module (Python 2.7), on a fragment

    The fragment: 7-bit text; the values null, true, false, integers and
    strings; objects whose members are such values. Arrays, nested
    objects, numbers with a fraction or an exponent, [NaN] and
    [Infinity], bytes above 0x7f and [\u] escapes above 0x7f are answered
    with [Unmodelled]. Strings that [json.loads] returns are unicode
    objects; on 7-bit text they are equal to the byte strings with the
    same characters, and are modelled by them. *)

Module Json.

Definition dquote : ascii := "034"%char.
Definition backslash : ascii := "092"%char.

Definition printable (c : ascii) : bool :=
  (32 <=? N_of_ascii c)%N && (N_of_ascii c <=? 126)%N.

(** [ESCAPE_ASCII] with [ESCAPE_DCT]: how [dumps] writes one character
    of a string. *)
Definition escape (c : ascii) : string :=
  if Str.eqc c dquote then String backslash (String dquote "")
  else if Str.eqc c backslash then String backslash (String backslash "")
  else if Str.eqc c "010" then String backslash "n"
  else if Str.eqc c "013" then String backslash "r"
  else if Str.eqc c "009" then String backslash "t"
  else if Str.eqc c "008" then String backslash "b"
  else if Str.eqc c "012" then String backslash "f"
  else if printable c then String c ""
  else
    match c with
    | Ascii b0 b1 b2 b3 b4 b5 b6 b7 =>
        String backslash
          (String "u" (String "0" (String "0"
             (String (Urllib.hex_digit "0123456789abcdef" (b7, b6, b5, b4))
                (String (Urllib.hex_digit "0123456789abcdef" (b3, b2, b1, b0))
                   "")))))
    end.

Fixpoint escape_all (s : string) : string :=
  match s with
  | "" => ""
  | String c r => escape c +:+ escape_all r
  end.

(** A string between quotes, escaped. *)
Definition quoted (s : string) : string :=
  String dquote (escape_all s +:+ String dquote "").

Definition dumps_string (s : string) : outcome string :=
  if Str.all Str.is_ascii s then Return (quoted s) else Raise Unmodelled.

Definition dumps_scalar (v : pyval) : outcome string :=
  match v with
  | PyStr s => dumps_string s
  | PyInt n => Return (str_of_int n)
  | PyBool true => Return "true"
  | PyBool false => Return "false"
  | PyNone => Return "null"
  end.

Definition dumps_member (kv : string * pyval) : outcome string :=
  k ← dumps_string kv.1;
  v ← dumps_scalar kv.2;
  Return (k +:+ ": " +:+ v).

(** [', '.join(members)] *)
Fixpoint join_members (ms : list string) : string :=
  match ms with
  | [] => ""
  | [m] => m
  | m :: ms' => m +:+ ", " +:+ join_members ms'
  end.

(** [json.dumps(d)] for a dictionary [d], with the default separators. *)
Definition dumps (d : gmap string pyval) : outcome string :=
  ms ← traverse dumps_member (map_to_list d);
  Return ("{" +:+ join_members ms +:+ "}").

(** The text of a member whose key and value are 7-bit strings, and
    the entries that have such a text. *)
Definition member_text (kv : string * pyval) : string :=
  quoted kv.1 +:+ ": " +:+ quoted (py_str kv.2).

Definition text_entry (k : string) (v : pyval) : Prop :=
  Str.all Str.is_ascii k = true
  ∧ ∃ s, v = PyStr s ∧ Str.all Str.is_ascii s = true.

(** *** Decoding *)

Definition is_ws (c : ascii) : bool :=
  Str.eqc c " " || Str.eqc c "009" || Str.eqc c "010" || Str.eqc c "013".

Fixpoint skip_ws (s : string) : string :=
  match s with
  | String c r => if is_ws c then skip_ws r else s
  | "" => ""
  end.

(** The [BACKSLASH] table. *)
Definition unescape (e : ascii) : option ascii :=
  if Str.eqc e dquote then Some dquote
  else if Str.eqc e backslash then Some backslash
  else if Str.eqc e "/" then Some "/"%char
  else if Str.eqc e "b" then Some "008"%char
  else if Str.eqc e "f" then Some "012"%char
  else if Str.eqc e "n" then Some "010"%char
  else if Str.eqc e "r" then Some "013"%char
  else if Str.eqc e "t" then Some "009"%char
  else None.

Definition cons_char (c : ascii) (o : outcome (string * string))
  : outcome (string * string) :=
  p ← o; Return (String c p.1, p.2).

(** The four hexadecimal digits of a [\u] escape: the character they
    name when it is below 0x80. *)
Definition unicode_escape (h1 h2 h3 h4 : ascii) : outcome ascii :=
  match Urllib.hex_value h1, Urllib.hex_value h2,
        Urllib.hex_value h3, Urllib.hex_value h4 with
  | Some n1, Some n2, Some (b7, b6, b5, b4), Some (b3, b2, b1, b0) =>
      if bool_decide (n1 = (false, false, false, false))
         && bool_decide (n2 = (false, false, false, false)) && negb b7
      then Return (Ascii b0 b1 b2 b3 b4 b5 b6 b7)
      else Raise Unmodelled
  | _, _, _, _ => Raise ValueError
  end.

(** [scanstring], strict: the text after an opening quote gives the
    string and the text after its closing quote. *)
Fixpoint scanstring (s : string) : outcome (string * string) :=
  match s with
  | "" => Raise ValueError
  | String c r =>
      if Str.eqc c dquote then Return ("", r)
      else if Str.eqc c backslash then
        match r with
        | "" => Raise ValueError
        | String e r' =>
            if Str.eqc e "u" then
              match r' with
              | String h1 (String h2 (String h3 (String h4 r''))) =>
                  ch ← unicode_escape h1 h2 h3 h4;
                  cons_char ch (scanstring r'')
              | _ => Raise ValueError
              end
            else
              match unescape e with
              | Some ch => cons_char ch (scanstring r')
              | None => Raise ValueError
              end
        end
      else if negb (Str.is_ascii c) then Raise Unmodelled
      else if (N_of_ascii c <? 32)%N then Raise ValueError
      else cons_char c (scanstring r)
  end.

Definition digit_value (c : ascii) : option Z :=
  let n := N_of_ascii c in
  if (48 <=? n)%N && (n <=? 57)%N then Some (Z.of_N n - 48) else None.

(** The digits at the head of [s], read as a number on top of [acc]. *)
Fixpoint scan_digits (s : string) (acc : Z) : Z * string :=
  match s with
  | String c r =>
      match digit_value c with
      | Some d => scan_digits r (acc * 10 + d)
      | None => (acc, s)
      end
  | "" => (acc, "")
  end.

(** After the integer part of a number: a fraction or an exponent may
    follow, which the fragment leaves out. *)
Definition after_integer (n : Z) (rest : string) : outcome (pyval * string) :=
  match rest with
  | String c _ =>
      if Str.eqc c "." || Str.eqc c "e" || Str.eqc c "E"
      then Raise Unmodelled
      else Return (PyInt n, rest)
  | "" => Return (PyInt n, rest)
  end.

(** [NUMBER_RE]: the integer part is a single zero or starts with a
    non-zero digit. *)
Definition scan_natural (s : string) : option (Z * string) :=
  match s with
  | String c r =>
      match digit_value c with
      | Some 0 => Some (0, r)
      | Some d => Some (scan_digits r d)
      | None => None
      end
  | "" => None
  end.

(** One scalar at the head of [s] (no white space before it). *)
Definition scan_scalar (s : string) : outcome (pyval * string) :=
  match s with
  | "" => Raise ValueError
  | String c r =>
      if Str.eqc c dquote then
        p ← scanstring r; Return (PyStr p.1, p.2)
      else if Str.eqc c "[" || Str.eqc c "{" || Str.eqc c "N"
              || Str.eqc c "I" then Raise Unmodelled
      else if Str.eqc c "-" then
        match scan_natural r with
        | Some (n, rest) => after_integer (- n) rest
        | None =>
            if Str.startswith "I" r then Raise Unmodelled
            else Raise ValueError
        end
      else if Str.startswith "null" s then Return (PyNone, Str.drop 4 s)
      else if Str.startswith "true" s then Return (PyBool true, Str.drop 4 s)
      else if Str.startswith "false" s then Return (PyBool false, Str.drop 5 s)
      else
        match scan_natural s with
        | Some (n, rest) => after_integer n rest
        | None => Raise ValueError
        end
  end.

(** The members of an object, from the first key on; the loop of
    [JSONObject]. [fuel] bounds the number of members. *)
Fixpoint scan_members (fuel : nat) (s : string) (acc : gmap string pyval)
  : outcome (gmap string pyval * string) :=
  match fuel with
  | O => Raise Unmodelled
  | S fuel' =>
      match s with
      | String q r =>
          if Str.eqc q dquote then
            k ← scanstring r;
            match skip_ws k.2 with
            | String colon r2 =>
                if Str.eqc colon ":" then
                  v ← scan_scalar (skip_ws r2);
                  let acc' := <[k.1 := v.1]> acc in
                  match skip_ws v.2 with
                  | String d r4 =>
                      if Str.eqc d "}" then Return (acc', r4)
                      else if Str.eqc d ","
                      then scan_members fuel' (skip_ws r4) acc'
                      else Raise ValueError
                  | "" => Raise ValueError
                  end
                else Raise ValueError
            | "" => Raise ValueError
            end
          else Raise ValueError
      | "" => Raise ValueError
      end
  end.

(** Nothing but white space may follow the value. *)
Definition finish (v : pyobj) (rest : string) : outcome pyobj :=
  match skip_ws rest with
  | "" => Return v
  | String _ _ => Raise ValueError
  end.

(** [json.loads(s)] *)
Definition loads (s : string) : outcome pyobj :=
  match skip_ws s with
  | String c r =>
      if Str.eqc c "{" then
        match skip_ws r with
        | String d r' =>
            if Str.eqc d "}" then finish (Dict ∅) r'
            else
              m ← scan_members (String.length s) (skip_ws r) ∅;
              finish (Dict m.1) m.2
        | "" => Raise ValueError
        end
      else
        v ← scan_scalar (skip_ws s); finish (Atom v.1) v.2
  | "" => Raise ValueError
  end.

(** The two ways the decoder fails: the text is no JSON of the fragment's
    grammar, or it leaves the fragment. *)
Definition decoding_failure (e : exn) : Prop := e = ValueError ∨ e = Unmodelled.

End Json.

(** ** [swift/common/crypto_utils.py] *)

Module CryptoUtils.

Definition CRYPTO_KEY_CALLBACK : string := "swift.callback.fetch_crypto_keys".

(** *** [CryptoWSGIContext.get_keys] *)

(** What the context writes with [self.logger.exception]. *)
Inductive log_record : Type :=
| LogCallbackNotInEnv (callback : string)
| LogCallbackFailed (callback : string) (err : exn)
| LogMissingKey (name : string)
| LogNotAKeysDict
| LogBadKey (name : string) (err : exn).

Definition unable : exn :=
  HTTPInternalServerError "Unable to retrieve encryption keys.".

Section get_keys.

(** The key material and [self.crypto.check_key], which the context
    takes from the crypto application it wraps. *)
Variable Key : Type.
Variable check_key : Key → outcome ().

(** What the callback may hand back: a dictionary, or an object that
    has no items to look up (subscripting it is a [TypeError]). *)
Inductive keys_object : Type :=
| KeysDict (d : gmap string Key)
| NotADict.

Definition keys_getitem (keys : keys_object) (name : string) : outcome Key :=
  match keys with
  | KeysDict d => getitem d name
  | NotADict => Raise TypeError
  end.

(** The request environment: the entry under [CRYPTO_KEY_CALLBACK],
    when present, is a callable, given by the outcome of calling it. *)
Abbreviation environ := (gmap string (outcome keys_object)).

(** The loop [for name in required]. *)
Fixpoint check_required (keys : keys_object) (required : list string)
  : list log_record * outcome () :=
  match required with
  | [] => ([], Return ())
  | name :: rest =>
      match key ← keys_getitem keys name; check_key key with
      | Return _ => check_required keys rest
      | Raise (KeyError _) => ([LogMissingKey name], Raise unable)
      | Raise TypeError => ([LogNotAKeysDict], Raise unable)
      | Raise ValueError => ([LogBadKey name ValueError], Raise unable)
      | Raise e => ([], Raise e)
      end
  end.

Definition get_keys (server_type : string) (env : environ)
    (required : option (list string))
  : list log_record * outcome keys_object :=
  let required :=
    match required with
    | Some r => r
    | None => [server_type]
    end in
  match getitem env CRYPTO_KEY_CALLBACK with
  | Raise (KeyError _) =>
      ([LogCallbackNotInEnv CRYPTO_KEY_CALLBACK], Raise unable)
  | Raise e => ([], Raise e)
  | Return fetch_crypto_keys =>
      match fetch_crypto_keys with
      | Raise err =>
          ([LogCallbackFailed CRYPTO_KEY_CALLBACK err], Raise unable)
      | Return keys =>
          match check_required keys required with
          | (log, Return _) => (log, Return keys)
          | (log, Raise e) => (log, Raise e)
          end
      end
  end.

(** A role whose key is there and passes the check. *)
Definition role_validates (keys : keys_object) (name : string) : Prop :=
  ∃ key, keys_getitem keys name = Return key ∧ check_key key = Return ().

(** The three ways a required role can fail, with the record each
    one leaves in the log: the key is missing from the mapping, what
    the callback returned is no mapping, the key fails the check. *)
Inductive role_fails (keys : keys_object) (name : string)
  : log_record → Prop :=
| key_missing d :
    keys = KeysDict d → d !! name = None →
    role_fails keys name (LogMissingKey name)
| not_a_mapping :
    keys = NotADict → role_fails keys name LogNotAKeysDict
| key_rejected d key :
    keys = KeysDict d → d !! name = Some key →
    check_key key = Raise ValueError →
    role_fails keys name (LogBadKey name ValueError).

End get_keys.

Arguments KeysDict {Key} d.
Arguments NotADict {Key}.
Abbreviation environ Key := (gmap string (outcome (keys_object Key))).
Arguments keys_getitem {Key} keys name.
Arguments check_required {Key} check_key keys required.
Arguments get_keys {Key} check_key server_type env required.
Arguments role_validates {Key} check_key keys name.
Arguments role_fails {Key} check_key keys name _.

(** A key check for the examples: a key is 32 bytes long. *)
Definition check_key_32 (key : string) : outcome () :=
  if bool_decide (String.length key = 32%nat) then Return ()
  else Raise ValueError.

(** *** [dump_crypto_meta] *)

(** [base64.b64encode(value).decode()] *)
Definition b64encode_value (value : pyval) : outcome pyval :=
  match value with
  | PyStr s => Return (PyStr (Base64.b64encode s))
  | _ => Raise TypeError
  end.

Definition dump_crypto_meta (crypto_meta : gmap string pyval) : outcome string :=
  d ← dict_comprehension
        (fun name value =>
           v ← (if bool_decide (name = "iv") then b64encode_value value
                else Return value);
           Return (name, v))
        crypto_meta;
  j ← Json.dumps d;
  Return (Urllib.quote_plus j).

(** *** [load_crypto_meta] *)

(** [base64.b64decode(value)] *)
Definition b64decode_value (value : pyval) : outcome string :=
  match value with
  | PyStr s => Base64.b64decode s
  | _ => Raise TypeError
  end.

(** [json.loads(value).items()] *)
Definition items (o : pyobj) : outcome (gmap string pyval) :=
  match o with
  | Dict d => Return d
  | Atom _ => Raise AttributeError
  end.

Definition load_crypto_meta (value : string) : outcome (gmap string string) :=
  let value := Urllib.unquote_plus value in
  match
    o ← Json.loads value;
    d ← items o;
    dict_comprehension
      (fun name value =>
         v ← (if bool_decide (name = "iv") then b64decode_value value
              else Return (py_str value));
         Return (name, v))
      d
  with
  | Return crypto_meta => Return crypto_meta
  | Raise (KeyError k) => Raise (EncryptionException value (KeyError k))
  | Raise ValueError => Raise (EncryptionException value ValueError)
  | Raise TypeError => Raise (EncryptionException value TypeError)
  | Raise e => Raise e
  end.

(** *** [append_crypto_meta] *)

Definition append_crypto_meta (value : string) (crypto_meta : gmap string pyval)
  : outcome string :=
  d ← dump_crypto_meta crypto_meta;
  Return (value +:+ "; meta=" +:+ d).

(** *** [extract_crypto_meta] *)

Definition extract_crypto_meta (value : string)
  : outcome (string * option (gmap string string)) :=
  match Str.rsplit1 ";" value with
  | Some (value, param) =>
      if Str.startswith "meta=" (Str.strip param) then
        let param := Str.drop 5 (Str.strip param) in
        crypto_meta ← load_crypto_meta param;
        Return (value, Some crypto_meta)
      else Return (value, None)
  | None => Return (value, None)
  end.

(** *** [parse_header_keys] *)

Definition _validate_key (headers : gmap string string) (header_name : string)
  : outcome string :=
  match v ← getitem headers header_name; Base64.b64decode v with
  | Raise (KeyError _) =>
      Raise (HTTPBadRequest (header_name +:+ " is missing"))
  | Raise TypeError =>
      Raise (HTTPBadRequest (header_name +:+ " is an invalid format"))
  | Raise e => Raise e
  | Return key =>
      if bool_decide (String.length key ≠ 32%nat)
      then Raise (HTTPBadRequest (header_name +:+ " length should be 32"))
      else Return key
  end.

Definition parse_header_keys (headers : gmap string string)
  : outcome (gmap string string) :=
  if bool_decide (is_Some (headers !! "X-Crypto-Object-Key"))
     || bool_decide (is_Some (headers !! "X-Crypto-Container-Key"))
  then
    object_key ← _validate_key headers "X-Crypto-Object-Key";
    container_key ← _validate_key headers "X-Crypto-Container-Key";
    Return (<["container" := container_key]> (<["object" := object_key]> ∅))
  else Return ∅.

(** What follows the last semicolon of a value; the whole value when
    it has none. *)
Definition last_segment (value : string) : string :=
  match Str.rsplit1 ";" value with
  | Some (_, param) => param
  | None => value
  end.

(** The claim on values without crypto meta, as the specification
    words it: such a value comes back unchanged. *)
Definition extract_leaves_unchanged (value : string) : Prop :=
  Str.startswith "meta=" (Str.strip (last_segment value)) = false →
  extract_crypto_meta value = Return (value, None).

(** A crypto meta of byte strings whose names, and whose values other
    than the [iv], are 7-bit text. *)
Definition text_meta (m : gmap string string) : Prop :=
  ∀ name value,
    m !! name = Some value →
    Str.all Str.is_ascii name = true
    ∧ (name ≠ "iv" → Str.all Str.is_ascii value = true).

(** A crypto meta as a dictionary of Python values. *)
Definition as_values (m : gmap string string) : gmap string pyval :=
  PyStr <$> m.

(** What the comprehension of [dump_crypto_meta] makes of a value,
    and of a crypto meta of byte strings. *)
Definition encoded (name : string) (value : pyval) : pyval :=
  if bool_decide (name = "iv") then
    match value with
    | PyStr s => PyStr (Base64.b64encode s)
    | _ => value
    end
  else value.

Definition encoded_meta (m : gmap string string) : gmap string pyval :=
  map_imap (fun name value => Some (encoded name value)) (as_values m).

(** The round-trip claims, as the specification words them: [dump]
    writes text in which nothing is raw and from which [load] gives the
    crypto meta back; [extract] undoes [append]. *)
Definition dump_round_trips (crypto_meta : gmap string pyval) : Prop :=
  ∃ text loaded,
    dump_crypto_meta crypto_meta = Return text
    ∧ Str.all Urllib.url_safe text = true
    ∧ load_crypto_meta text = Return loaded
    ∧ as_values loaded = crypto_meta.

Definition append_round_trips (value : string)
    (crypto_meta : gmap string pyval) : Prop :=
  ∃ text loaded,
    append_crypto_meta value crypto_meta = Return text
    ∧ extract_crypto_meta text = Return (value, Some loaded)
    ∧ as_values loaded = crypto_meta.

(** A crypto meta with an initialization vector, a cipher name and a
    key number. *)
Definition numbered_meta : gmap string pyval :=
  {[ "iv" := PyStr "0123456789abcdef";
     "cipher" := PyStr "AES_CTR_256";
     "key_id" := PyInt 1 ]}.

(** A crypto meta of text whose initialization vector holds the
    bytes 0xff, 0x00, 0x80, a quote, a semicolon and a line feed. *)
Definition binary_iv : string :=
  String "255" (String "000" (String "128" (String "034"
    (String ";" (String "010" "")))))%char.

Definition binary_meta : gmap string string :=
  {[ "iv" := binary_iv; "cipher" := "AES_CTR_256" ]}.

(** [load_crypto_meta] raises its own exception, for the given cause. *)
Definition raises_encryption_exception {A} (o : outcome A) (cause : exn)
  : Prop :=
  ∃ text, o = Raise (EncryptionException text cause).

Definition OBJECT_KEY_HEADER : string := "X-Crypto-Object-Key".
Definition CONTAINER_KEY_HEADER : string := "X-Crypto-Container-Key".

(** What becomes of one key header: it is absent, the decoder rejects
    its text, the text decodes to some other length than 32, or it gives
    a key. *)
Inductive header_verdict (headers : gmap string string) (name : string)
  : outcome string → Prop :=
| header_absent :
    headers !! name = None →
    header_verdict headers name
      (Raise (HTTPBadRequest (name +:+ " is missing")))
| header_malformed v :
    headers !! name = Some v → Base64.b64decode v = Raise TypeError →
    header_verdict headers name
      (Raise (HTTPBadRequest (name +:+ " is an invalid format")))
| header_wrong_length v key :
    headers !! name = Some v → Base64.b64decode v = Return key →
    String.length key ≠ 32%nat →
    header_verdict headers name
      (Raise (HTTPBadRequest (name +:+ " length should be 32")))
| header_accepted v key :
    headers !! name = Some v → Base64.b64decode v = Return key →
    String.length key = 32%nat →
    header_verdict headers name (Return key).

(** The three rejections a header can meet; none of them contains
    anything of the header's value. *)
Definition rejections (name : string) : list exn :=
  [HTTPBadRequest (name +:+ " is missing");
   HTTPBadRequest (name +:+ " is an invalid format");
   HTTPBadRequest (name +:+ " length should be 32")].

(** The claim on malformed key headers, as the specification words
    it: when a key header holds text that is no base64 text, because a
    character of it is no base64 character, the request fails with a
    client error. *)
Definition malformed_header_fails (headers : gmap string string) : Prop :=
  ∀ name v,
    name ∈ [OBJECT_KEY_HEADER; CONTAINER_KEY_HEADER] →
    headers !! name = Some v →
    Str.all Base64.base64_char v = false →
    ∃ body, parse_header_keys headers = Raise (HTTPBadRequest body).

(** Two key headers: the object key is the base64 text of a 32 byte
    key with an exclamation mark put in after its fourth digit, the
    container key is the base64 text of that key. *)
Definition stray_headers : gmap string string :=
  {[ "X-Crypto-Object-Key" := "MDEy!MzQ1Njc4OWFiY2RlZjAxMjM0NTY3ODlhYmNkZWY=";
     "X-Crypto-Container-Key" := "MDEyMzQ1Njc4OWFiY2RlZjAxMjM0NTY3ODlhYmNkZWY=" ]}.

End CryptoUtils.

(** ** [os.path] (posixpath, Python 2.7) *)

Module Posixpath.

Fixpoint rstrip_slash (s : string) : string :=
  match s with
  | "" => ""
  | String c r =>
      match rstrip_slash r with
      | "" => if Str.eqc c "/" then "" else String c ""
      | r' => String c r'
      end
  end.

(** [p[:i]] and [p[i:]] for [i = p.rfind('/') + 1]. *)
Definition cut (p : string) : string * string :=
  match Str.rsplit1 "/" p with
  | Some (a, b) => (a +:+ "/", b)
  | None => ("", p)
  end.

Definition basename (p : string) : string := (cut p).2.

Definition dirname (p : string) : string :=
  let head := (cut p).1 in
  if negb (String.eqb head "") && negb (Str.all (Str.eqc "/") head)
  then rstrip_slash head
  else head.

Definition join2 (path b : string) : string :=
  if Str.startswith "/" b then b
  else if String.eqb path "" || Str.endswith "/" path then path +:+ b
  else path +:+ "/" +:+ b.

Definition join (a : string) (p : list string) : string := foldl join2 a p.

End Posixpath.

(** ** [swift/obj/auditor.py] *)

Module Auditor.

Record AuditorWorker : Type := {
  devices : string;
  max_files_per_second : Q;
  max_bytes_per_second : Q;
  auditor_type : string;
  zero_byte_only_at_fps : Z;
  log_time : Z;
  files_running_time : Q;
  bytes_running_time : Q;
  bytes_processed : Z;
  total_bytes_processed : Z;
  total_files_processed : Z;
  passes : Z;
  quarantines : Z;
  errors : Z
}.

Definition set_files_running_time (v : Q) (a : AuditorWorker) :=
  {| devices := devices a; max_files_per_second := max_files_per_second a;
     max_bytes_per_second := max_bytes_per_second a;
     auditor_type := auditor_type a;
     zero_byte_only_at_fps := zero_byte_only_at_fps a;
     log_time := log_time a; files_running_time := v;
     bytes_running_time := bytes_running_time a;
     bytes_processed := bytes_processed a;
     total_bytes_processed := total_bytes_processed a;
     total_files_processed := total_files_processed a;
     passes := passes a; quarantines := quarantines a; errors := errors a |}.

Definition set_bytes_running_time (v : Q) (a : AuditorWorker) :=
  {| devices := devices a; max_files_per_second := max_files_per_second a;
     max_bytes_per_second := max_bytes_per_second a;
     auditor_type := auditor_type a;
     zero_byte_only_at_fps := zero_byte_only_at_fps a;
     log_time := log_time a; files_running_time := files_running_time a;
     bytes_running_time := v;
     bytes_processed := bytes_processed a;
     total_bytes_processed := total_bytes_processed a;
     total_files_processed := total_files_processed a;
     passes := passes a; quarantines := quarantines a; errors := errors a |}.

(** The integer counters, set together. *)
Definition set_counters
    (bp tbp tfp ps qs es : Z) (a : AuditorWorker) :=
  {| devices := devices a; max_files_per_second := max_files_per_second a;
     max_bytes_per_second := max_bytes_per_second a;
     auditor_type := auditor_type a;
     zero_byte_only_at_fps := zero_byte_only_at_fps a;
     log_time := log_time a; files_running_time := files_running_time a;
     bytes_running_time := bytes_running_time a;
     bytes_processed := bp;
     total_bytes_processed := tbp;
     total_files_processed := tfp;
     passes := ps; quarantines := qs; errors := es |}.

Definition add_bytes (n : Z) (a : AuditorWorker) :=
  set_counters (bytes_processed a + n) (total_bytes_processed a + n)
    (total_files_processed a) (passes a) (quarantines a) (errors a) a.
Definition incr_passes (a : AuditorWorker) :=
  set_counters (bytes_processed a) (total_bytes_processed a)
    (total_files_processed a) (passes a + 1) (quarantines a) (errors a) a.
Definition incr_quarantines (a : AuditorWorker) :=
  set_counters (bytes_processed a) (total_bytes_processed a)
    (total_files_processed a) (passes a) (quarantines a + 1) (errors a) a.
Definition incr_errors (a : AuditorWorker) :=
  set_counters (bytes_processed a) (total_bytes_processed a)
    (total_files_processed a) (passes a) (quarantines a) (errors a + 1) a.
Definition incr_total_files (a : AuditorWorker) :=
  set_counters (bytes_processed a) (total_bytes_processed a)
    (total_files_processed a + 1) (passes a) (quarantines a) (errors a) a.
Definition reset_totals (a : AuditorWorker) :=
  set_counters (bytes_processed a) 0 0 (passes a) (quarantines a) (errors a) a.
Definition reset_window (a : AuditorWorker) :=
  set_counters 0 (total_bytes_processed a) (total_files_processed a) 0 0 0 a.

(** What [object_server.DiskFile(..., keep_data_fp=True)] gives the
    auditor: the data file it found, if any, its metadata, and the
    chunks that iterating over it yields. *)
Record disk_file : Type := {
  data_file : option string;
  metadata : gmap string string;
  chunks : list string
}.

(** The collaborators of the auditor, none of which is defined in
    [auditor.py]: the object server, the replicator, [swift.common.utils],
    [os.path.getsize], [hashlib.md5], the builtin [int] on a metadata
    value, and the clock, whose [n]-th reading is [time_time n]. The
    file system does not change while one object is audited: a path has
    one size and one metadata throughout, so calling [getsize] or [int]
    a second time for the message of an exception gives what the first
    call gave. The chunks of a disk file arrive without failure. *)
Record World : Type := {
  read_metadata : string → outcome (gmap string string);
  DiskFile : string → string → string → string → string → string
             → outcome disk_file;
  getsize : string → outcome Z;
  py_int : string → outcome Z;
  md5_hexdigest : string → string;
  ratelimit_sleep : Q → Q → Z → Q;
  invalidate_hash : string → outcome ();
  renamer : string → string → outcome ();
  audit_location_generator : string → list (string * string * string);
  time_time : nat → Q
}.

Inductive log_line : Type :=
| BeginAudit (mode type : string)
| Progress (type : string) (start_time : Q) (passes quars errors : Z)
    (frate brate : Q)
| Completed (type mode : string) (elapsed frate brate : Q)
| FailedAudit (obj : string) (err : audit_failure)
| ErrorAuditing (path : string) (exc : exn).

(** What a run does to the outside, in order. *)
Inductive event : Type :=
| Log (l : log_line)
| InvalidateHash (dir : string)
| Renamer (src dst : string)
| ReadChunk (len : Z).

(** The state a run threads: the worker object, the number of clock
    readings taken, and the events so far (latest last). *)
Record run : Type := {
  self : AuditorWorker;
  clock : nat;
  trace : list event
}.

Definition M (A : Type) : Type := run → run * outcome A.

Global Instance M_ret : MRet M := fun A a st => (st, Return a).
Global Instance M_bind : MBind M := fun A B k c st =>
  match c st with
  | (st', Return a) => k a st'
  | (st', Raise e) => (st', Raise e)
  end.

Definition lift {A} (o : outcome A) : M A := fun st => (st, o).
Definition raise {A} (e : exn) : M A := fun st => (st, Raise e).
Definition get_self : M AuditorWorker := fun st => (st, Return (self st)).
Definition modify (f : AuditorWorker → AuditorWorker) : M () := fun st =>
  ({| self := f (self st); clock := clock st; trace := trace st |}, Return ()).
Definition emit (e : event) : M () := fun st =>
  ({| self := self st; clock := clock st; trace := trace st ++ [e] |},
   Return ()).

Section world.

Variable w : World.

(** [time.time()] *)
Definition now : M Q := fun st =>
  ({| self := self st; clock := S (clock st); trace := trace st |},
   Return (time_time w (clock st))).

(** [n / d] for an integer [n] and a float [d]: Python raises
    [ZeroDivisionError] when [d] is zero. Floats are modelled by
    rationals; the difference of two clock readings is zero as a float
    exactly when the readings are equal, as it is here. *)
Definition divide (n : Z) (d : Q) : outcome Q :=
  if Qeq_bool d 0 then Raise ZeroDivisionError
  else Return (inject_Z n / d)%Q.

(** The loop [for chunk in df] of [object_audit]; the result is the
    data the digest has been fed. *)
Fixpoint read_chunks (cs : list string) (fed : string) : M string :=
  match cs with
  | [] => mret fed
  | chunk :: cs' =>
      _ ← emit (ReadChunk (Str.len chunk));
      a ← get_self;
      _ ← modify (set_bytes_running_time
                    (ratelimit_sleep w (bytes_running_time a)
                       (max_bytes_per_second a) (Str.len chunk)));
      _ ← modify (add_bytes (Str.len chunk));
      read_chunks cs' (fed +:+ chunk)
  end.

(** How the [try] block of [object_audit] ends when it does not
    raise: by one of its [return] statements, or by reaching its end. *)
Inductive completion : Type := Returned | Completes.

(** The [try] block of [object_audit]. *)
Definition audit_block (path device partition : string) : M completion :=
  if negb (Str.endswith ".data" path) then mret Returned
  else
    name ← lift
      (match md ← read_metadata w path; getitem md "name" with
       | Return name => Return name
       | Raise exc => Raise (AuditException (ReadingMetadata exc))
       end);
    match Str.split "/" 3 name with
    | [_junk; account; container; obj] =>
        a ← get_self;
        df ← lift (DiskFile w (devices a) device partition
                     account container obj);
        match data_file df with
        | None => mret Returned
        | Some file =>
            obj_size ← lift (getsize w file);
            content_length ←
              lift (v ← getitem (metadata df) "Content-Length"; py_int w v);
            if bool_decide (obj_size ≠ content_length) then
              raise (AuditException
                       (ContentLengthDiffers content_length obj_size))
            else if bool_decide (zero_byte_only_at_fps a ≠ 0)
                    && bool_decide (obj_size ≠ 0) then mret Returned
            else
              fed ← read_chunks (chunks df) "";
              let etag := md5_hexdigest w fed in
              stored ← lift (getitem (metadata df) "ETag");
              if bool_decide (etag ≠ stored) then
                raise (AuditException (ETagDiffers stored etag))
              else mret Completes
        end
    | _ => raise ValueError
    end.

(** The handler [except AuditException, err]. *)
Definition quarantine (path device : string) (err : audit_failure) : M () :=
  _ ← modify incr_quarantines;
  _ ← emit (Log (FailedAudit path err));
  _ ← emit (InvalidateHash (Posixpath.dirname path));
  _ ← lift (invalidate_hash w (Posixpath.dirname path));
  let renamer_path := Posixpath.dirname path in
  a ← get_self;
  let target :=
    Posixpath.join (devices a)
      [device; "quarantined"; "objects"; Posixpath.basename renamer_path] in
  _ ← emit (Renamer renamer_path target);
  lift (renamer w renamer_path target).

Definition object_audit (path device partition : string) : M () :=
  fun st =>
    match audit_block path device partition st with
    | (st', Return Returned) => (st', Return ())
    | (st', Return Completes) => modify incr_passes st'
    | (st', Raise (AuditException err)) => quarantine path device err st'
    | (st', Raise exc) =>
        (_ ← modify incr_errors; emit (Log (ErrorAuditing path exc))) st'
    end.

(** The body of the loop of [audit_all_objects]; [reported] is the
    local variable of that name. *)
Definition audit_location (reported : Q) (loc : string * string * string)
  : M Q :=
  let '(path, device, partition) := loc in
  _ ← object_audit path device partition;
  a ← get_self;
  _ ← modify (set_files_running_time
                (ratelimit_sleep w (files_running_time a)
                   (max_files_per_second a) 1));
  _ ← modify incr_total_files;
  t ← now;
  a ← get_self;
  if Qle_bool (inject_Z (log_time a)) (t - reported) then
    t1 ← now;
    frate ← lift (divide (passes a) (t1 - reported));
    t2 ← now;
    brate ← lift (divide (bytes_processed a) (t2 - reported));
    _ ← emit (Log (Progress (auditor_type a) reported (passes a)
                     (quarantines a) (errors a) frate brate));
    reported' ← now;
    _ ← modify reset_window;
    mret reported'
  else mret reported.

Fixpoint audit_locations (reported : Q)
    (locs : list (string * string * string)) : M Q :=
  match locs with
  | [] => mret reported
  | loc :: locs' =>
      reported' ← audit_location reported loc;
      audit_locations reported' locs'
  end.

Definition audit_all_objects (mode : string) : M () :=
  a ← get_self;
  _ ← emit (Log (BeginAudit mode (auditor_type a)));
  begin ← now;
  _ ← modify reset_totals;
  _ ← audit_locations begin (audit_location_generator w (devices a));
  t ← now;
  let elapsed := (t - begin)%Q in
  a ← get_self;
  frate ← lift (divide (total_files_processed a) elapsed);
  brate ← lift (divide (total_bytes_processed a) elapsed);
  emit (Log (Completed (auditor_type a) mode elapsed frate brate)).

End world.

(** [AuditorWorker.__init__], from configuration values already read:
    the devices directory, the two rates, the report interval and the
    zero-byte rate. *)
Definition init (devices : string) (files_per_second bytes_per_second : Q)
    (log_time zero_byte_only_at_fps : Z) : AuditorWorker :=
  {| devices := devices;
     max_files_per_second :=
       if bool_decide (zero_byte_only_at_fps ≠ 0)
       then inject_Z zero_byte_only_at_fps else files_per_second;
     max_bytes_per_second := bytes_per_second;
     auditor_type :=
       if bool_decide (zero_byte_only_at_fps ≠ 0) then "ZBF" else "ALL";
     zero_byte_only_at_fps := zero_byte_only_at_fps;
     log_time := log_time;
     files_running_time := 0; bytes_running_time := 0;
     bytes_processed := 0; total_bytes_processed := 0;
     total_files_processed := 0;
     passes := 0; quarantines := 0; errors := 0 |}.

(** The worker of the default configuration, before its first pass. *)
Definition default_worker : AuditorWorker :=
  init "/srv/node" 20 10000000 3600 0.

Definition start (a : AuditorWorker) : run :=
  {| self := a; clock := 0; trace := [] |}.

(** The quarantine directory of an object path on a device. *)
Definition quarantine_target (a : AuditorWorker) (path device : string)
  : string :=
  Posixpath.join (devices a)
    [device; "quarantined"; "objects";
     Posixpath.basename (Posixpath.dirname path)].

(** A renaming into the quarantine area. *)
Definition is_rename (e : event) : bool :=
  match e with
  | Renamer _ _ => true
  | _ => false
  end.

(** A read of object content. *)
Definition is_read (e : event) : bool :=
  match e with
  | ReadChunk _ => true
  | _ => false
  end.

(** The metadata read of [object_audit] fails: [read_metadata] raises,
    or what it returns has no name. *)
Inductive metadata_read_fails (w : World) (path : string) : exn → Prop :=
| read_raises exc :
    read_metadata w path = Raise exc → metadata_read_fails w path exc
| name_missing md :
    read_metadata w path = Return md → md !! "name" = None →
    metadata_read_fails w path (KeyError "name").

(** The audit of [path] gets as far as comparing sizes: the path is a
    data file, its metadata names an object, the object's disk file
    has a data file of [actual] bytes, and its metadata records a
    content length of [recorded]. *)
Inductive reaches_size_check (w : World) (a : AuditorWorker)
    (path device partition : string) (actual recorded : Z) : Prop :=
| size_check md name junk account container obj df file v :
    Str.endswith ".data" path = true →
    read_metadata w path = Return md →
    md !! "name" = Some name →
    Str.split "/" 3 name = [junk; account; container; obj] →
    DiskFile w (devices a) device partition account container obj
    = Return df →
    data_file df = Some file →
    getsize w file = Return actual →
    metadata df !! "Content-Length" = Some v →
    py_int w v = Return recorded →
    reaches_size_check w a path device partition actual recorded.

(** What the handler for [AuditException] adds to the trace. *)
Definition quarantine_events (w : World) (a : AuditorWorker)
    (path device : string) (err : audit_failure) : list event :=
  [Log (FailedAudit path err); InvalidateHash (Posixpath.dirname path)]
  ++ match invalidate_hash w (Posixpath.dirname path) with
     | Return _ =>
         [Renamer (Posixpath.dirname path) (quarantine_target a path device)]
     | Raise _ => []
     end.

(** The claim on a failed metadata read, as the specification words
    it: the audit counts an error and quarantines nothing. *)
Definition read_failure_is_an_error (w : World) (st : run)
    (path device partition : string) : Prop :=
  (∃ exc, read_metadata w path = Raise exc) →
  let st' := (object_audit w path device partition st).1 in
  errors (self st') = errors (self st) + 1
  ∧ quarantines (self st') = quarantines (self st)
  ∧ existsb is_rename (trace st') = false.

(** A small node for the examples. There are two object files on
    device sda. The metadata of the first cannot be read. The second
    is the object /a/c/o, recorded with a content length of 3, whose
    data file holds the 4 bytes [abcd]. The clock stands still, and
    [locations] is what the location generator yields. *)
Definition unreadable : string := "/srv/node/sda/objects/1/abc/0a/1.data".
Definition truncated : string := "/srv/node/sda/objects/2/def/0b/2.data".

Definition node (locations : list (string * string * string)) : World :=
  {| read_metadata := fun path =>
       if String.eqb path truncated
       then Return {[ "name" := "/a/c/o" ]}
       else Raise OSError;
     DiskFile := fun _ _ _ account container obj =>
       if String.eqb account "a" && String.eqb container "c"
          && String.eqb obj "o"
       then Return {| data_file := Some truncated;
                      metadata := {[ "Content-Length" := "3";
                                     "ETag" := "900150983cd24fb0d6963f7d28e17f72" ]};
                      chunks := ["abcd"] |}
       else Raise OSError;
     getsize := fun path =>
       if String.eqb path truncated then Return 4 else Raise OSError;
     py_int := fun v =>
       if String.eqb v "3" then Return 3 else Raise ValueError;
     md5_hexdigest := fun _ => "e2fc714c4727ee9395f324cd2e7f331f";
     ratelimit_sleep := fun running_time _ _ => running_time;
     invalidate_hash := fun _ => Return ();
     renamer := fun _ _ => Return ();
     audit_location_generator := fun _ => locations;
     time_time := fun _ => 1000000%Q |}.



End Auditor.

(** ** The ways through [object_audit] *)

Module AuditorPaths.
Import Auditor.

(** [isinstance(e, AuditException)] *)
Definition is_audit_exception (e : exn) : bool :=
  match e with
  | AuditException _ => true
  | _ => false
  end.

(** The worker after the chunk loop has run over [cs]: each chunk paces
    the byte rate limiter and is added to the two byte counters. *)
Fixpoint pace (w : World) (cs : list string) (a : AuditorWorker)
  : AuditorWorker :=
  match cs with
  | [] => a
  | chunk :: cs' =>
      pace w cs'
        (add_bytes (Str.len chunk)
           (set_bytes_running_time
              (ratelimit_sleep w (bytes_running_time a)
                 (max_bytes_per_second a) (Str.len chunk)) a))
  end.

(** The run after the chunk loop: the worker paced, one read per chunk
    in the trace. *)
Definition after_reading (w : World) (cs : list string) (st : run) : run :=
  {| self := pace w cs (self st);
     clock := clock st;
     trace := trace st ++ ((fun chunk => ReadChunk (Str.len chunk)) <$> cs) |}.

(** The bytes of a list of chunks, and their number. *)
Fixpoint joined (cs : list string) : string :=
  match cs with
  | [] => ""
  | chunk :: cs' => chunk +:+ joined cs'
  end.

Fixpoint byte_count (cs : list string) : Z :=
  match cs with
  | [] => 0
  | chunk :: cs' => Str.len chunk + byte_count cs'
  end.

(** The audit of [path] gets as far as opening the disk file [df] of
    the object its metadata names. *)
Inductive opens (w : World) (a : AuditorWorker)
    (path device partition : string) (df : disk_file) : Prop :=
| opened md name junk account container obj :
    Str.endswith ".data" path = true →
    read_metadata w path = Return md →
    md !! "name" = Some name →
    Str.split "/" 3 name = [junk; account; container; obj] →
    DiskFile w (devices a) device partition account container obj
    = Return df →
    opens w a path device partition df.

(** The audit gets as far as the chunk loop: the disk file has a data
    file whose size is the recorded content length, and the worker either
    audits every object or the data file is empty. *)
Inductive reads (w : World) (a : AuditorWorker)
    (path device partition : string) (df : disk_file) : Prop :=
| reading file size v :
    opens w a path device partition df →
    data_file df = Some file →
    getsize w file = Return size →
    metadata df !! "Content-Length" = Some v →
    py_int w v = Return size →
    zero_byte_only_at_fps a = 0 ∨ size = 0 →
    reads w a path device partition df.

(** The three [return] statements of the [try] block: the path is no
    data file, the object is deleted, the worker audits empty objects
    only and this one is not empty. *)
Inductive skips (w : World) (a : AuditorWorker)
    (path device partition : string) : Prop :=
| not_a_data_file :
    Str.endswith ".data" path = false →
    skips w a path device partition
| deleted df :
    opens w a path device partition df →
    data_file df = None →
    skips w a path device partition
| not_empty df file size v :
    opens w a path device partition df →
    data_file df = Some file →
    getsize w file = Return size →
    metadata df !! "Content-Length" = Some v →
    py_int w v = Return size →
    zero_byte_only_at_fps a ≠ 0 →
    size ≠ 0 →
    skips w a path device partition.

(** The audit stops with the exception [exc] before it has read any
    content: the object name has not four parts, the disk file cannot be
    opened, the size of the data file cannot be had, or the content
    length is missing or is no integer. *)
Inductive stops (w : World) (a : AuditorWorker)
    (path device partition : string) : exn → Prop :=
| malformed_name md name :
    Str.endswith ".data" path = true →
    read_metadata w path = Return md →
    md !! "name" = Some name →
    length (Str.split "/" 3 name) ≠ 4%nat →
    stops w a path device partition ValueError
| disk_file_raises md name junk account container obj exc :
    Str.endswith ".data" path = true →
    read_metadata w path = Return md →
    md !! "name" = Some name →
    Str.split "/" 3 name = [junk; account; container; obj] →
    DiskFile w (devices a) device partition account container obj
    = Raise exc →
    stops w a path device partition exc
| getsize_raises df file exc :
    opens w a path device partition df →
    data_file df = Some file →
    getsize w file = Raise exc →
    stops w a path device partition exc
| content_length_missing df file size :
    opens w a path device partition df →
    data_file df = Some file →
    getsize w file = Return size →
    metadata df !! "Content-Length" = None →
    stops w a path device partition (KeyError "Content-Length")
| content_length_no_integer df file size v exc :
    opens w a path device partition df →
    data_file df = Some file →
    getsize w file = Return size →
    metadata df !! "Content-Length" = Some v →
    py_int w v = Raise exc →
    stops w a path device partition exc.

(** The counters and settings of two workers that object audits leave
    alone are the same. *)
Definition same_settings (a b : AuditorWorker) : Prop :=
  devices a = devices b
  ∧ max_files_per_second a = max_files_per_second b
  ∧ max_bytes_per_second a = max_bytes_per_second b
  ∧ auditor_type a = auditor_type b
  ∧ zero_byte_only_at_fps a = zero_byte_only_at_fps b
  ∧ log_time a = log_time b
  ∧ files_running_time a = files_running_time b
  ∧ total_files_processed a = total_files_processed b.

(** How the [try] block ends once the chunk loop has run: the stored
    ETag is missing, or differs from the digest of what was read, or is
    that digest. *)
Definition verdict (w : World) (df : disk_file) : outcome completion :=
  match metadata df !! "ETag" with
  | None => Raise (KeyError "ETag")
  | Some stored =>
      if bool_decide (md5_hexdigest w (joined (chunks df)) = stored)
      then Return Completes
      else Raise (AuditException
                    (ETagDiffers stored (md5_hexdigest w (joined (chunks df)))))
  end.

(** The ways through the [try] block. *)
Inductive way (w : World) (a : AuditorWorker)
    (path device partition : string) : Prop :=
| way_skips :
    skips w a path device partition → way w a path device partition
| way_unreadable exc :
    Str.endswith ".data" path = true →
    metadata_read_fails w path exc →
    way w a path device partition
| way_stops exc :
    stops w a path device partition exc → way w a path device partition
| way_size_differs actual recorded :
    reaches_size_check w a path device partition actual recorded →
    actual ≠ recorded →
    way w a path device partition
| way_reads df :
    reads w a path device partition df → way w a path device partition.

(** The state in which the loop of [audit_all_objects] meets a location:
    [reported] is an earlier reading of the clock. *)
Definition earlier_reading (w : World) (reported : Q) (st : run) : Prop :=
  ∃ k, (k < clock st)%nat ∧ reported = time_time w k.

(** A second node for the examples. Its object /a/c/o is stored in
    [kept], recorded with a content length of 3 and the MD5 digest of
    [abc] as ETag; the data file has [size] bytes, is read as the two
    chunks [ab] and [c], and the digest of whatever is read is [digest].
    The metadata of [misnamed] names no object. Moving a directory into
    quarantine ends as [move] says. The clock advances by one second at
    every reading. *)
Definition kept : string := "/srv/node/sdb/objects/3/abc/0c/3.data".
Definition misnamed : string := "/srv/node/sdb/objects/4/def/0d/4.data".
Definition abc_digest : string := "900150983cd24fb0d6963f7d28e17f72".

Definition store (size : Z) (digest : string) (move : outcome ())
    (locations : list (string * string * string)) : World :=
  {| read_metadata := fun path =>
       if String.eqb path kept then Return {[ "name" := "/a/c/o" ]}
       else if String.eqb path misnamed then Return {[ "name" := "AUTH_test" ]}
       else Raise OSError;
     DiskFile := fun _ _ _ account container obj =>
       if String.eqb account "a" && String.eqb container "c"
          && String.eqb obj "o"
       then Return {| data_file := Some kept;
                      metadata := {[ "Content-Length" := "3";
                                     "ETag" := abc_digest ]};
                      chunks := ["ab"; "c"] |}
       else Raise OSError;
     getsize := fun path =>
       if String.eqb path kept then Return size else Raise OSError;
     py_int := fun v =>
       if String.eqb v "3" then Return 3 else Raise ValueError;
     md5_hexdigest := fun _ => digest;
     ratelimit_sleep := fun running_time _ _ => running_time;
     invalidate_hash := fun _ => Return ();
     renamer := fun _ _ => move;
     audit_location_generator := fun _ => locations;
     time_time := fun n => inject_Z (Z.of_nat n) |}.

(** The disk file of the object of that node. *)
Definition kept_file : disk_file :=
  {| data_file := Some kept;
     metadata := {[ "Content-Length" := "3"; "ETag" := abc_digest ]};
     chunks := ["ab"; "c"] |}.

(** The worker of a zero-byte pass at 50 files per second. *)
Definition zero_byte_worker : AuditorWorker :=
  init "/srv/node" 20 10000000 3600 50.

(** The lines [audit_all_objects] itself logs: the first line of a
    pass, its progress reports and its summary. *)
Definition is_report (e : event) : bool :=
  match e with
  | Log (BeginAudit _ _) => true
  | Log (Progress _ _ _ _ _ _ _) => true
  | Log (Completed _ _ _ _ _) => true
  | _ => false
  end.

(** The events of a trace that are no reports of a pass: what the
    audits of objects did. *)
Definition audits (events : list event) : list event :=
  List.filter (fun e => negb (is_report e)) events.

(** What the audit of one location by the worker [a] does to the
    outside. *)
Definition audit_events (w : World) (a : AuditorWorker)
    (loc : string * string * string) : list event :=
  let '(path, device, partition) := loc in
  trace (object_audit w path device partition (start a)).1.

(** Two workers that audit alike: they have the same devices directory
    and the same zero-byte setting. *)
Definition alike (a b : AuditorWorker) : Prop :=
  devices a = devices b ∧ zero_byte_only_at_fps a = zero_byte_only_at_fps b.

End AuditorPaths.

(** ** Sample key material *)

Module CryptoSamples.

(** A key of 32 bytes that are no text: the bytes 0xff, 0x00, a line
    feed and a semicolon, eight times over. *)
Definition binary_key : string :=
  let four r := String "255" (String "000" (String "010" (String ";" r)))%char in
  four (four (four (four (four (four (four (four ""))))))).

End CryptoSamples.

(** ** JSON scalars as [json.dumps] writes them *)

Module JsonScalars.
Import Json.

(** The character of a decimal digit. *)
Definition digit_char (d : Z) : ascii := ascii_of_N (48 + Z.to_N d).

(** What [dumps] writes for a scalar and for a member. *)
Definition scalar_text (v : pyval) : string :=
  match v with
  | PyStr s => quoted s
  | PyInt n => str_of_int n
  | PyBool true => "true"
  | PyBool false => "false"
  | PyNone => "null"
  end.

Definition entry_text (kv : string * pyval) : string :=
  quoted kv.1 +:+ ": " +:+ scalar_text kv.2.

(** The entries of the fragment: the key is 7-bit text, and so is the
    value when it is a string. *)
Definition scalar_entry (k : string) (v : pyval) : Prop :=
  Str.all Str.is_ascii k = true
  ∧ ∀ s, v = PyStr s → Str.all Str.is_ascii s = true.

(** What follows a member in an object: a comma or a closing brace. *)
Definition closes (c : ascii) : Prop := c = ","%char ∨ c = "}"%char.

End JsonScalars.

(** ** What the envelope makes of a crypto meta of scalars *)

Module CryptoCasts.
Import CryptoUtils.

(** A crypto meta inside the JSON fragment: names are 7-bit text, the
    [iv] is a byte string, a string under another name is 7-bit text,
    and the other values are integers, booleans or [None]. *)
Definition plain_meta (m : gmap string pyval) : Prop :=
  ∀ name value,
    m !! name = Some value →
    Str.all Str.is_ascii name = true
    ∧ (name = "iv" → ∃ s, value = PyStr s)
    ∧ (name ≠ "iv" → ∀ s, value = PyStr s → Str.all Str.is_ascii s = true).

(** What the comprehension of [dump_crypto_meta] makes of it. *)
Definition encoded_values (m : gmap string pyval) : gmap string pyval :=
  map_imap (fun name value => Some (encoded name value)) m.

(** What comes back for a value stored under [name]: the [iv] as it
    was, every other value as [str] writes it. *)
Definition cast (name : string) (value : pyval) : string :=
  if bool_decide (name = "iv") then
    match value with
    | PyStr s => s
    | _ => py_str value
    end
  else py_str value.

Definition cast_meta (m : gmap string pyval) : gmap string string :=
  map_imap (fun name value => Some (cast name value)) m.

(** A crypto meta with a cipher name, a key number, a flag and a
    missing value beside its [iv]. *)
Definition mixed_meta : gmap string pyval :=
  {[ "iv" := PyStr binary_iv;
     "cipher" := PyStr "AES_CTR_256";
     "key_id" := PyInt (-1205);
     "sealed" := PyBool true;
     "path" := PyNone ]}.

End CryptoCasts.

(** * Properties *)

(** ** Byte strings *)

Module StrFacts.

Lemma app_cons c a b : String c a +:+ b = String c (a +:+ b).
Proof. reflexivity. Qed.

Lemma app_nil_l s : "" +:+ s = s.
Proof. reflexivity. Qed.

Lemma app_nil_r s : s +:+ "" = s.
Proof. induction s as [|c s IH]; [done|]. by rewrite app_cons, IH. Qed.

Lemma app_assoc a b c : (a +:+ b) +:+ c = a +:+ b +:+ c.
Proof. induction a as [|x a IH]; [done|]. by rewrite !app_cons, IH. Qed.

Lemma eqc_eq a b : Str.eqc a b = true ↔ a = b.
Proof. apply Ascii.eqb_eq. Qed.

Lemma eqc_refl a : Str.eqc a a = true.
Proof. by apply eqc_eq. Qed.

Lemma mem_app c a b : Str.mem c (a +:+ b) = Str.mem c a || Str.mem c b.
Proof.
  induction a as [|x a IH]; [done|].
  rewrite app_cons. simpl. by rewrite IH, orb_assoc.
Qed.

Lemma all_app p a b : Str.all p (a +:+ b) = Str.all p a && Str.all p b.
Proof.
  induction a as [|x a IH]; [done|].
  rewrite app_cons. simpl. by rewrite IH, andb_assoc.
Qed.

(** A string none of whose characters is [sep] is not split. *)
Lemma rsplit1_none sep s : Str.mem sep s = false → Str.rsplit1 sep s = None.
Proof.
  induction s as [|c s IH]; simpl; [done|].
  intros [Hc Hs]%orb_false_iff. rewrite (IH Hs).
  rewrite Ascii.eqb_sym in Hc. unfold Str.eqc in *. by rewrite Hc.
Qed.

(** The split is at the last separator. *)
Lemma rsplit1_app sep a b :
  Str.mem sep b = false →
  Str.rsplit1 sep (a +:+ String sep b) = Some (a, b).
Proof.
  intros Hb. induction a as [|c a IH].
  - rewrite app_nil_l. simpl. by rewrite (rsplit1_none _ _ Hb), eqc_refl.
  - rewrite app_cons. simpl. by rewrite IH.
Qed.

Lemma rstrip_no_space s :
  Str.all (fun c => negb (Ascii.is_space c)) s = true → Str.rstrip s = s.
Proof.
  induction s as [|c s IH]; simpl; [done|].
  intros [Hc Hs]%andb_true_iff. rewrite (IH Hs).
  destruct s; [|done]. by apply negb_true_iff in Hc as ->.
Qed.

(** The string methods on sample values. *)
Example str_methods :
  Str.rsplit1 ";" "a;b;c" = Some ("a;b", "c")
  ∧ Str.strip "  meta=x  " = "meta=x"
  ∧ Str.split "/" 3 "/a/c/o/p" = [""; "a"; "c"; "o/p"]
  ∧ Str.split "/" 3 "a/c" = ["a"; "c"]
  ∧ Str.endswith ".data" "1.data" = true
  ∧ Str.endswith ".data" "1.ts" = false.
Proof. by repeat split. Qed.

End StrFacts.

(** ** base64 *)

Module Base64Facts.
Import Base64.

(** Encoding and decoding a sample. *)
Example b64_hello :
  Base64.b64encode "hello" = "aGVsbG8="
  ∧ Base64.b64decode "aGVsbG8=" = Return "hello"
  ∧ Base64.b64encode "" = "".
Proof. by repeat split. Qed.

(** The decoder has one way to fail. *)
Lemma a2b_loop_raises s : ∀ quad_pos left e,
  a2b_loop s quad_pos left = Raise e → e = TypeError.
Proof.
  induction s as [|c r IH]; intros quad_pos left e; simpl.
  - destruct left; congruence.
  - destruct (skipped c); [apply IH|].
    destruct (is_pad c).
    + destruct (_ || _); [apply IH|congruence].
    + destruct (value c) as [[[[[[b5 b4] b3] b2] b1] b0]|]; [|apply IH].
      destruct (left ++ _) as [|x7 [|x6 [|x5 [|x4 [|x3 [|x2 [|x1 [|x0 l']]]]]]]];
        try apply IH.
      destruct (a2b_loop r _ l') eqn:Hr; simpl; [congruence|].
      intros [= <-]. by eapply IH.
Qed.

Lemma b64decode_raises s e : b64decode s = Raise e → e = TypeError.
Proof. apply a2b_loop_raises. Qed.


(** Strings three characters at a time. *)
Lemma string_ind_by_three (P : string → Prop) :
  P "" →
  (∀ a, P (String a "")) →
  (∀ a b, P (String a (String b ""))) →
  (∀ a b c r, P r → P (String a (String b (String c r)))) →
  ∀ s, P s.
Proof.
  intros H0 H1 H2 H3 s.
  assert (P s ∧ (∀ a, P (String a s)) ∧ (∀ a b, P (String a (String b s))))
    as [? _]; [|done].
  induction s as [|c s (IH0 & IH1 & IH2)]; [by auto|].
  split; [apply IH1|]. split; [intros; apply IH2|].
  intros a b. by apply H3.
Qed.

(** The table reads back what [digit] writes, and no digit is a
    character the decoder steps over or takes for padding. *)
Lemma value_digit s : value (digit s) = Some s.
Proof. by destruct s as [[[[[[] []] []] []] []] []]. Qed.

Lemma skipped_digit s : skipped (digit s) = false.
Proof. by destruct s as [[[[[[] []] []] []] []] []]. Qed.

Lemma is_pad_digit s : is_pad (digit s) = false.
Proof. by destruct s as [[[[[[] []] []] []] []] []]. Qed.

(** One digit, shifted in. *)
Lemma a2b_loop_digit b5 b4 b3 b2 b1 b0 r quad_pos left :
  a2b_loop (String (digit (b5, b4, b3, b2, b1, b0)) r) quad_pos left
  = match left ++ [b5; b4; b3; b2; b1; b0] with
    | x7 :: x6 :: x5 :: x4 :: x3 :: x2 :: x1 :: x0 :: left' =>
        bs ← a2b_loop r ((quad_pos + 1) mod 4)%nat left';
        Return (String (Ascii x0 x1 x2 x3 x4 x5 x6 x7) bs)
    | left' => a2b_loop r ((quad_pos + 1) mod 4)%nat left'
    end.
Proof.
  cbn [a2b_loop]. by rewrite skipped_digit, is_pad_digit, value_digit.
Qed.

Theorem b64decode_b64encode s : b64decode (b64encode s) = Return s.
Proof.
  unfold b64decode.
  induction s as [|a|a b|a b c r IH] using string_ind_by_three.
  - done.
  - destruct a as [a0 a1 a2 a3 a4 a5 a6 a7]. cbn [b64encode].
    repeat (rewrite a2b_loop_digit; cbn -[digit a2b_loop]). reflexivity.
  - destruct a as [a0 a1 a2 a3 a4 a5 a6 a7], b as [b0 b1 b2 b3 b4 b5 b6 b7].
    cbn [b64encode].
    repeat (rewrite a2b_loop_digit; cbn -[digit a2b_loop]). reflexivity.
  - destruct a as [a0 a1 a2 a3 a4 a5 a6 a7], b as [b0 b1 b2 b3 b4 b5 b6 b7],
      c as [c0 c1 c2 c3 c4 c5 c6 c7].
    cbn [b64encode].
    repeat (rewrite a2b_loop_digit; cbn -[digit a2b_loop]).
    rewrite IH. reflexivity.
Qed.

(** The decoder steps over characters outside the alphabet: text with a
    stray character in it decodes like the text without it. *)
Example b64decode_skips_stray_characters :
  b64decode "aGVs!bG8=" = Return "hello" ∧ b64decode "aGVsbG8" = Raise TypeError.
Proof. by split. Qed.

(** A base64 character is 7-bit and is not stepped over; any other
    character is no padding and has no entry in the table. *)
Lemma base64_char_cases c :
  if base64_char c
  then Str.is_ascii c = true ∧ skipped c = false
  else is_pad c = false ∧ value c = None.
Proof.
  destruct c as [[] [] [] [] [] [] [] []]; vm_compute; by split.
Qed.

Lemma find_valid_base64_chars s : ∀ num,
  find_valid (base64_chars s) num = find_valid s num.
Proof.
  induction s as [|c r IH]; intros num; [done|].
  cbn [base64_chars find_valid].
  pose proof (base64_char_cases c) as Hc. unfold base64_char in *.
  destruct (is_pad c || bool_decide (is_Some (value c))) eqn:Hb.
  - cbn [find_valid]. rewrite Hb. destruct Hc as [-> _]. cbn.
    destruct num; [done|apply IH].
  - rewrite andb_false_r. apply IH.
Qed.

Lemma a2b_loop_base64_chars s : ∀ quad_pos left,
  a2b_loop (base64_chars s) quad_pos left = a2b_loop s quad_pos left.
Proof.
  induction s as [|c r IH]; intros quad_pos left; [done|].
  pose proof (find_valid_base64_chars (String c r) 1) as Hfind.
  cbn [base64_chars] in *.
  pose proof (base64_char_cases c) as Hc.
  destruct (base64_char c) eqn:Hb.
  - destruct Hc as [_ Hskip]. cbn [a2b_loop]. rewrite Hskip, Hfind.
    destruct (is_pad c).
    + destruct (_ || _); [apply IH|done].
    + destruct (value c) as [[[[[[b5 b4] b3] b2] b1] b0]|]; [|apply IH].
      destruct (left ++ _) as [|x7 [|x6 [|x5 [|x4 [|x3 [|x2 [|x1 [|x0 l']]]]]]]];
        try apply IH.
      by rewrite IH.
  - destruct Hc as [Hpad Hvalue]. cbn [a2b_loop]. rewrite Hpad, Hvalue.
    rewrite IH. by destruct (skipped c).
Qed.

(** The decoder reads the base64 characters of a text and nothing
    else. *)
Lemma b64decode_base64_chars s :
  b64decode (base64_chars s) = b64decode s.
Proof. apply a2b_loop_base64_chars. Qed.

End Base64Facts.

(** ** urllib *)

Module UrllibFacts.
Import Urllib.

Lemma replace_app a b s t :
  replace a b (s +:+ t) = replace a b s +:+ replace a b t.
Proof.
  induction s as [|c s IH]; [done|].
  rewrite StrFacts.app_cons. simpl. by rewrite IH.
Qed.

Lemma replace_quoter c : replace " " "+" (quoter " " c) = plus_quoter c.
Proof. by destruct c as [[] [] [] [] [] [] [] []]. Qed.

Lemma quoter_no_space c :
  Str.eqc c " " = false → quoter "" c = plus_quoter c.
Proof. unfold plus_quoter. by intros ->. Qed.

Lemma quote_plus_eq s : quote_plus s = plus_quote s.
Proof.
  unfold quote_plus. destruct (Str.mem " " s) eqn:Hs.
  - clear Hs. induction s as [|c s IH]; [done|].
    simpl. by rewrite replace_app, replace_quoter, IH.
  - induction s as [|c s IH]; [done|].
    cbn [Str.mem] in Hs. apply orb_false_iff in Hs as [Hc Hs].
    unfold Str.eqc in Hc. rewrite Ascii.eqb_sym in Hc.
    cbn [quote plus_quote]. by rewrite (quoter_no_space _ Hc), (IH Hs).
Qed.

(** Decoding one quoted character gives the character back. *)
Lemma unquote_plus_quoter c t :
  unquote (replace "+" " " (plus_quoter c) +:+ t) = String c (unquote t).
Proof. by destruct c as [[] [] [] [] [] [] [] []]. Qed.

Theorem unquote_plus_quote_plus s : unquote_plus (quote_plus s) = s.
Proof.
  rewrite quote_plus_eq. unfold unquote_plus.
  induction s as [|c s IH]; [done|].
  simpl. by rewrite replace_app, unquote_plus_quoter, IH.
Qed.

Lemma url_safe_quoter c : Str.all url_safe (plus_quoter c) = true.
Proof. by destruct c as [[] [] [] [] [] [] [] []]. Qed.

Theorem quote_plus_url_safe s : Str.all url_safe (quote_plus s) = true.
Proof.
  rewrite quote_plus_eq. induction s as [|c s IH]; [done|].
  simpl. by rewrite StrFacts.all_app, url_safe_quoter, IH.
Qed.

(** A safe character is no semicolon and no white space. *)
Lemma url_safe_plain c :
  url_safe c = true →
  Str.eqc ";" c = false ∧ negb (Ascii.is_space c) = true.
Proof. by destruct c as [[] [] [] [] [] [] [] []]. Qed.

Lemma url_safe_no_semicolon s :
  Str.all url_safe s = true → Str.mem ";" s = false.
Proof.
  induction s as [|c s IH]; cbn [Str.all Str.mem]; [done|].
  intros [Hc Hs]%andb_true_iff.
  by rewrite (proj1 (url_safe_plain _ Hc)), (IH Hs).
Qed.

Lemma url_safe_no_space s :
  Str.all url_safe s = true →
  Str.all (fun c => negb (Ascii.is_space c)) s = true.
Proof.
  induction s as [|c s IH]; cbn [Str.all Str.mem]; [done|].
  intros [Hc Hs]%andb_true_iff.
  by rewrite (proj2 (url_safe_plain _ Hc)), (IH Hs).
Qed.

(** Quoting and unquoting samples; a percent sign that no two
    hexadecimal digits follow stays. *)
Example quote_plus_json :
  Urllib.quote_plus "a b+c/=;%" = "a+b%2Bc%2F%3D%3B%25"
  ∧ Urllib.unquote_plus "a+b%2Bc%2f%3D%3b%25" = "a b+c/=;%"
  ∧ Urllib.unquote_plus "%4%41%zz%" = "%4A%zz%".
Proof. by repeat split. Qed.

End UrllibFacts.

(** ** Dictionaries *)

Module DictFacts.

Lemma foldl_put {V} (l : list (string * V)) : ∀ acc,
  NoDup (l.*1) → foldl put acc l = list_to_map l ∪ acc.
Proof.
  induction l as [|[k v] l IH]; intros acc Hnd; simpl.
  - by rewrite (left_id_L ∅ (∪)).
  - apply NoDup_cons in Hnd as [Hk Hnd]. rewrite (IH _ Hnd). unfold put. simpl.
    rewrite <- insert_union_r by by apply not_elem_of_list_to_map.
    by rewrite insert_union_l.
Qed.

Lemma dict_of_items_list_to_map {V} (l : list (string * V)) :
  NoDup (l.*1) → dict_of_items l = list_to_map l.
Proof.
  intros H. unfold dict_of_items. by rewrite (foldl_put _ _ H), (right_id_L ∅ (∪)).
Qed.

Lemma dict_of_items_map_to_list {V} (d : gmap string V) :
  dict_of_items (map_to_list d) = d.
Proof.
  rewrite dict_of_items_list_to_map by apply NoDup_fst_map_to_list.
  apply list_to_map_to_list.
Qed.

Lemma traverse_total {A B} (f : A → outcome B) (g : A → B) (l : list A) :
  Forall (fun a => f a = Return (g a)) l → traverse f l = Return (g <$> l).
Proof.
  induction 1 as [|a l Ha _ IH]; [done|]. cbn [traverse]. by rewrite Ha, IH.
Qed.

(** A comprehension whose function returns on every item of the
    dictionary, keeping the key, maps the values. *)
Lemma NoDup_keys_kept {A B} (g : string → A → B) (d : gmap string A) :
  NoDup (((fun kv : string * A => (kv.1, g kv.1 kv.2)) <$> map_to_list d).*1).
Proof.
  rewrite <- list_fmap_compose.
  replace (fst ∘ (fun kv : string * A => (kv.1, g kv.1 kv.2)))
    with (@fst string A) by done.
  apply NoDup_fst_map_to_list.
Qed.

(** A comprehension whose function returns on every item of the
    dictionary, keeping the key, maps the values. *)
Lemma dict_comprehension_total {A B}
    (f : string → A → outcome (string * B)) (g : string → A → B)
    (d : gmap string A) :
  (∀ k v, d !! k = Some v → f k v = Return (k, g k v)) →
  dict_comprehension f d = Return (map_imap (fun k v => Some (g k v)) d).
Proof.
  intros Hf. unfold dict_comprehension.
  rewrite (traverse_total _ (fun kv => (kv.1, g kv.1 kv.2))).
  - cbn [mbind outcome_bind]. f_equal.
    rewrite dict_of_items_list_to_map by apply NoDup_keys_kept.
    apply map_eq. intros k. rewrite map_lookup_imap.
    apply option_eq. intros b.
    rewrite <- elem_of_list_to_map by apply NoDup_keys_kept.
    rewrite list_elem_of_fmap. split.
    + intros ([k' a] & [= -> ->] & Ha%elem_of_map_to_list).
      simpl. by rewrite Ha.
    + destruct (d !! k) as [a|] eqn:Ha; [|done]. intros [= <-].
      exists (k, a). split; [done|]. by apply elem_of_map_to_list.
  - apply Forall_forall. intros [k v] Hkv%elem_of_map_to_list. by apply Hf.
Qed.

Lemma traverse_raises {A B} (f : A → outcome B) l e :
  traverse f l = Raise e → ∃ a, a ∈ l ∧ f a = Raise e.
Proof.
  induction l as [|a l IH]; cbn [traverse]; [done|].
  destruct (f a) as [b|e'] eqn:Ha; cbn [mbind outcome_bind].
  - destruct (traverse f l) as [bs|e''] eqn:Hl; cbn [mbind outcome_bind]; [done|].
    intros [= <-]. destruct (IH eq_refl) as (a' & Hin & Hf).
    exists a'. split; [by right|done].
  - intros [= <-]. exists a. split; [by left|done].
Qed.

End DictFacts.

(** ** json *)

Module JsonFacts.
Import Json.

(** The decoder on sample texts, inside and outside the fragment. *)
Example str_of_int_examples :
  str_of_int 0 = "0" ∧ str_of_int 1205 = "1205" ∧ str_of_int (-30) = "-30".
Proof. by repeat split. Qed.

Example loads_examples :
  Json.loads " { } " = Return (Dict ∅)
  ∧ Json.loads "-12" = Return (Atom (PyInt (-12)))
  ∧ Json.loads "null" = Return (Atom PyNone)
  ∧ Json.loads "{,}" = Raise ValueError
  ∧ Json.loads "01" = Raise ValueError
  ∧ Json.loads "" = Raise ValueError
  ∧ Json.loads "[1]" = Raise Unmodelled
  ∧ Json.loads "1.5" = Raise Unmodelled.
Proof. by repeat split. Qed.

Lemma scanstring_escape c u :
  Str.is_ascii c = true →
  scanstring (escape c +:+ u) = cons_char c (scanstring u).
Proof.
  destruct c as [[] [] [] [] [] [] [] []]; intros H;
    first [discriminate H | reflexivity].
Qed.

(** Reading back an escaped string up to its closing quote. *)
Lemma scanstring_escape_all s t :
  Str.all Str.is_ascii s = true →
  scanstring (escape_all s +:+ String dquote t) = Return (s, t).
Proof.
  induction s as [|c s IH]; [done|].
  cbn [Str.all escape_all]. intros [Hc Hs]%andb_true_iff.
  by rewrite StrFacts.app_assoc, (scanstring_escape _ _ Hc), (IH Hs).
Qed.

Lemma quoted_app s t :
  quoted s +:+ t = String dquote (escape_all s +:+ String dquote t).
Proof.
  unfold quoted. by rewrite StrFacts.app_cons, StrFacts.app_assoc.
Qed.

Lemma scan_scalar_quoted s t :
  Str.all Str.is_ascii s = true →
  scan_scalar (quoted s +:+ t) = Return (PyStr s, t).
Proof.
  intros H. rewrite quoted_app. cbn [scan_scalar].
  change (Str.eqc dquote dquote) with true. cbv iota.
  by rewrite (scanstring_escape_all _ _ H).
Qed.

Lemma dumps_member_text kv :
  text_entry kv.1 kv.2 → dumps_member kv = Return (member_text kv).
Proof.
  destruct kv as [k v]. intros (Hk & s & Hv & Hs). simpl in Hk, Hv.
  subst v. unfold dumps_member, dumps_scalar, dumps_string, member_text.
  simpl. by rewrite Hk, Hs.
Qed.

Lemma traverse_dumps_member l :
  Forall (fun kv => text_entry kv.1 kv.2) l →
  traverse dumps_member l = Return (member_text <$> l).
Proof.
  induction 1 as [|kv l Hkv _ IH]; [done|].
  cbn [traverse]. by rewrite (dumps_member_text _ Hkv), IH.
Qed.

(** A member followed by [t], as the scanner meets it. *)
Lemma member_text_app kv t :
  member_text kv +:+ t
  = String dquote
      (escape_all kv.1
       +:+ String dquote
             (String ":" (String " " (quoted (py_str kv.2) +:+ t)))).
Proof.
  unfold member_text.
  by rewrite !StrFacts.app_assoc, quoted_app, !StrFacts.app_cons.
Qed.

Lemma skip_ws_colon r : skip_ws (String ":" r) = String ":" r.
Proof. reflexivity. Qed.

Lemma skip_ws_comma r : skip_ws (String "," r) = String "," r.
Proof. reflexivity. Qed.

Lemma skip_ws_space r : skip_ws (String " " r) = skip_ws r.
Proof. reflexivity. Qed.

Lemma skip_ws_quoted s t : skip_ws (quoted s +:+ t) = quoted s +:+ t.
Proof. reflexivity. Qed.

Lemma scan_member kv fuel t acc :
  text_entry kv.1 kv.2 →
  scan_members (S fuel) (member_text kv +:+ t) acc
  = match skip_ws t with
    | String d r4 =>
        if Str.eqc d "}" then Return (put acc kv, r4)
        else if Str.eqc d "," then scan_members fuel (skip_ws r4) (put acc kv)
        else Raise ValueError
    | "" => Raise ValueError
    end.
Proof.
  destruct kv as [k v]. intros (Hk & s & Hv & Hs). simpl in Hk, Hv.
  subst v. rewrite member_text_app. cbn [scan_members fst snd py_str].
  change (Str.eqc dquote dquote) with true. cbv iota.
  rewrite (scanstring_escape_all _ _ Hk).
  cbn [mbind outcome_bind fst snd].
  rewrite skip_ws_colon. change (Str.eqc ":" ":") with true. cbv iota.
  rewrite skip_ws_space, skip_ws_quoted, (scan_scalar_quoted _ _ Hs).
  reflexivity.
Qed.

Lemma scan_members_text l : ∀ fuel acc rest,
  l ≠ [] →
  Forall (fun kv => text_entry kv.1 kv.2) l →
  (length l ≤ fuel)%nat →
  scan_members fuel (join_members (member_text <$> l) +:+ String "}" rest) acc
  = Return (foldl put acc l, rest).
Proof.
  induction l as [|kv l IH]; intros fuel acc rest Hne Hall Hfuel; [done|].
  apply Forall_cons in Hall as [Hkv Hall].
  destruct fuel as [|fuel]; [simpl in Hfuel; lia|].
  destruct l as [|kv' l].
  - cbn [fmap list_fmap join_members foldl].
    by rewrite (scan_member _ _ _ _ Hkv).
  - change (join_members (member_text <$> kv :: kv' :: l))
      with (member_text kv +:+ ", " +:+ join_members (member_text <$> kv' :: l)).
    rewrite !StrFacts.app_assoc, (scan_member _ _ _ _ Hkv).
    rewrite !StrFacts.app_cons, StrFacts.app_nil_l, skip_ws_comma.
    change (Str.eqc "," "}") with false. change (Str.eqc "," ",") with true.
    cbv iota. rewrite skip_ws_space.
    assert (skip_ws (join_members (member_text <$> kv' :: l) +:+ String "}" rest)
            = join_members (member_text <$> kv' :: l) +:+ String "}" rest)
      as ->.
    { destruct l; cbn [fmap list_fmap join_members];
        rewrite ?StrFacts.app_assoc, member_text_app; reflexivity. }
    rewrite IH; [done|done|done|]. simpl in *. lia.
Qed.

Lemma length_app a b :
  String.length (a +:+ b) = (String.length a + String.length b)%nat.
Proof.
  induction a as [|c a IH]; [done|].
  rewrite StrFacts.app_cons. simpl. by rewrite IH.
Qed.

Lemma length_join_members l :
  (length l ≤ String.length (join_members (member_text <$> l)))%nat.
Proof.
  induction l as [|kv [|kv' l] IH]; [simpl; lia|simpl; lia|].
  change (join_members (member_text <$> kv :: kv' :: l))
    with (member_text kv +:+ ", " +:+ join_members (member_text <$> kv' :: l)).
  rewrite !length_app. simpl in *. lia.
Qed.

(** [loads] reads an object of 7-bit strings back from what [dumps]
    writes for it. *)
Theorem loads_dumps (d : gmap string pyval) :
  map_Forall text_entry d →
  ∃ j, dumps d = Return j ∧ loads j = Return (Dict d).
Proof.
  intros Hd%map_Forall_to_list.
  assert (Forall (fun kv => text_entry kv.1 kv.2) (map_to_list d)) as Hl.
  { eapply Forall_impl; [exact Hd|]. by intros []. }
  unfold dumps. rewrite (traverse_dumps_member _ Hl). eexists. split; [done|].
  assert (dict_of_items (map_to_list d) = d) as Hback.
  { apply DictFacts.dict_of_items_map_to_list. }
  unfold dict_of_items in Hback. revert Hl Hback.
  generalize (map_to_list d) as l. intros l Hl Hback.
  rewrite !StrFacts.app_cons, StrFacts.app_nil_l.
  unfold loads. cbn [skip_ws].
  change (is_ws "{") with false. cbv iota.
  change (Str.eqc "{" "{") with true. cbv iota.
  destruct l as [|kv l].
  - simpl in Hback. by subst d.
  - assert (skip_ws (join_members (member_text <$> kv :: l) +:+ "}")
            = join_members (member_text <$> kv :: l) +:+ "}") as Hskip.
    { destruct l; cbn [fmap list_fmap join_members];
        rewrite ?StrFacts.app_assoc, member_text_app; reflexivity. }
    rewrite Hskip.
    rewrite scan_members_text; [|done|done|].
    + destruct l; cbn [fmap list_fmap join_members];
        rewrite ?StrFacts.app_assoc, member_text_app;
        cbn [mbind outcome_bind fst snd finish skip_ws]; by rewrite Hback.
    + pose proof (length_join_members (kv :: l)).
      cbn [String.length]. rewrite length_app. lia.
Qed.

Lemma cons_char_raises c o e :
  cons_char c o = Raise e → o = Raise e.
Proof. by destruct o. Qed.

Lemma unicode_escape_raises h1 h2 h3 h4 e :
  unicode_escape h1 h2 h3 h4 = Raise e → decoding_failure e.
Proof.
  unfold unicode_escape, decoding_failure.
  repeat case_match; intros [= <-]; auto.
Qed.

Lemma scanstring_raises n : ∀ s e,
  (String.length s ≤ n)%nat → scanstring s = Raise e → decoding_failure e.
Proof.
  unfold decoding_failure.
  induction n as [|n IH]; intros [|c r] e Hn; simpl in Hn;
    try lia; cbn [scanstring]; try (intros [= <-]; by auto).
  repeat case_match; subst; simpl in Hn;
    try (intros [= <-]; by auto);
    try (intros Hrest%cons_char_raises; refine (IH _ _ _ Hrest); simpl; lia).
  destruct (unicode_escape _ _ _ _) eqn:Hu; cbn [mbind outcome_bind].
  - intros Hrest%cons_char_raises; refine (IH _ _ _ Hrest); simpl; lia.
  - intros [= <-]; by eapply unicode_escape_raises.
Qed.


Lemma after_integer_raises n rest e :
  after_integer n rest = Raise e → decoding_failure e.
Proof.
  unfold after_integer, decoding_failure.
  repeat case_match; intros [= <-]; auto.
Qed.

Lemma scan_scalar_raises s e :
  scan_scalar s = Raise e → decoding_failure e.
Proof.
  unfold scan_scalar.
  repeat case_match; subst; try (intros [= <-]; unfold decoding_failure; by auto);
    try apply after_integer_raises.
  destruct (scanstring _) eqn:Hs; cbn [mbind outcome_bind]; [done|].
  intros [= <-]. by eapply scanstring_raises.
Qed.

Lemma scan_members_raises fuel : ∀ s acc e,
  scan_members fuel s acc = Raise e → decoding_failure e.
Proof.
  induction fuel as [|fuel IH]; intros s acc e; cbn [scan_members];
    [intros [= <-]; by right|].
  repeat case_match; subst; try (intros [= <-]; unfold decoding_failure; by auto).
  destruct (scanstring _) as [k|] eqn:Hk; cbn [mbind outcome_bind];
    [|intros [= <-]; by eapply scanstring_raises].
  repeat case_match; subst; try (intros [= <-]; unfold decoding_failure; by auto).
  destruct (scan_scalar _) as [v|] eqn:Hv; cbn [mbind outcome_bind];
    [|intros [= <-]; by eapply scan_scalar_raises].
  repeat case_match; subst; try (intros [= <-]; unfold decoding_failure; by auto).
  apply IH.
Qed.

Lemma finish_raises v rest e : finish v rest = Raise e → decoding_failure e.
Proof. unfold finish. case_match; [done|]. intros [= <-]. by left. Qed.

(** Decoding fails in no other way. *)
Lemma loads_raises s e : loads s = Raise e → decoding_failure e.
Proof.
  unfold loads.
  repeat case_match; subst; try (intros [= <-]; unfold decoding_failure; by auto);
    try apply finish_raises.
  - destruct (scan_members _ _ _) as [m|] eqn:Hm; cbn [mbind outcome_bind];
      [apply finish_raises|intros [= <-]; by eapply scan_members_raises].
  - destruct (scan_scalar _) as [v|] eqn:Hv; cbn [mbind outcome_bind];
      [apply finish_raises|intros [= <-]; by eapply scan_scalar_raises].
Qed.

End JsonFacts.

(** ** Key retrieval *)

Module KeyRetrieval.
Import CryptoUtils.

Section get_keys.

Context {Key : Type} (check_key : Key → outcome ()).

Lemma check_required_app keys before rest :
  Forall (role_validates check_key keys) before →
  check_required check_key keys (before ++ rest)
  = check_required check_key keys rest.
Proof.
  induction 1 as [|name names (key & Hk & Hc) _ IH]; simpl; [done|].
  by rewrite Hk; simpl; rewrite Hc.
Qed.

Lemma check_required_fails keys name rest record :
  role_fails check_key keys name record →
  check_required check_key keys (name :: rest) = ([record], Raise unable).
Proof.
  destruct 1 as [d -> Hd| -> |d key -> Hd Hc]; simpl; unfold getitem.
  - by rewrite Hd.
  - done.
  - by rewrite Hd; simpl; rewrite Hc.
Qed.

End get_keys.

(** C8: when the key-source callback raises, [get_keys] raises the
    internal-server-error signal instead of the callback's exception;
    and whichever way the first failing required role fails (key
    missing, no mapping returned, key rejected by the check), the caller
    gets that same signal with the same body, while the log record
    differs. *)
Theorem get_keys_one_signal {Key} (check_key : Key → outcome ())
    (server_type : string) (env : environ Key)
    (required : option (list string)) :
  (∀ err,
      env !! CRYPTO_KEY_CALLBACK = Some (Raise err) →
      get_keys check_key server_type env required
      = ([LogCallbackFailed CRYPTO_KEY_CALLBACK err],
         Raise (HTTPInternalServerError "Unable to retrieve encryption keys.")))
  ∧ (∀ keys before name after record,
      env !! CRYPTO_KEY_CALLBACK = Some (Return keys) →
      default [server_type] required = before ++ name :: after →
      Forall (role_validates check_key keys) before →
      role_fails check_key keys name record →
      get_keys check_key server_type env required
      = ([record],
         Raise (HTTPInternalServerError "Unable to retrieve encryption keys."))).
Proof.
  split.
  - intros err Henv. unfold get_keys, getitem. by rewrite Henv.
  - intros keys before name after record Henv Hreq Hbefore Hfail.
    unfold get_keys, getitem. rewrite Henv.
    replace (match required with Some r => r | None => [server_type] end)
      with (default [server_type] required) by by destruct required.
    rewrite Hreq, (check_required_app _ _ _ _ Hbefore).
    by rewrite (check_required_fails _ _ _ _ _ Hfail).
Qed.

Lemma get_keys_one_signal_witness :
  get_keys check_key_32 "object"
    {[ CRYPTO_KEY_CALLBACK := Raise OSError ]} None
  = ([LogCallbackFailed CRYPTO_KEY_CALLBACK OSError], Raise unable)
  ∧ get_keys check_key_32 "object"
      {[ CRYPTO_KEY_CALLBACK :=
           Return (KeysDict {[ "container" := "0123456789abcdef0123456789abcdef";
                               "object" := "too short" ]}) ]}
      (Some ["container"; "object"])
    = ([LogBadKey "object" ValueError], Raise unable).
Proof.
  split.
  - apply (get_keys_one_signal check_key_32). reflexivity.
  - eapply (proj2 (get_keys_one_signal check_key_32 "object" _ _)
              _ ["container"] "object" []); [reflexivity|reflexivity| |].
    + repeat constructor. by exists "0123456789abcdef0123456789abcdef".
    + by eapply key_rejected.
Defined.

(** C10: with [required] left out, [get_keys] checks the one role
    named by the context's [server_type] and nothing else.  When the
    key of that role is in the mapping and passes the check, the whole
    mapping the callback returned is handed back, whatever its other
    entries are; when that role fails, the call fails with the record
    of that failure; a call that returns has validated that role; and
    the log and the verdict depend on the mapping and on the check
    only through the entry of that role. *)
Theorem get_keys_default_role {Key} (check_key : Key → outcome ())
    (server_type : string) (env : environ Key) :
  get_keys check_key server_type env None
  = get_keys check_key server_type env (Some [server_type])
  ∧ ∀ keys,
      env !! CRYPTO_KEY_CALLBACK = Some (Return keys) →
      (role_validates check_key keys server_type →
       get_keys check_key server_type env None = ([], Return keys))
      ∧ (∀ record,
           role_fails check_key keys server_type record →
           get_keys check_key server_type env None
           = ([record], Raise unable))
      ∧ (∀ log returned,
           get_keys check_key server_type env None = (log, Return returned) →
           log = [] ∧ returned = keys
           ∧ role_validates check_key keys server_type)
      ∧ (∀ (check_key' : Key → outcome ()) (env' : environ Key) keys',
           env' !! CRYPTO_KEY_CALLBACK = Some (Return keys') →
           keys_getitem keys' server_type = keys_getitem keys server_type →
           (∀ key, keys_getitem keys server_type = Return key →
                   check_key' key = check_key key) →
           (get_keys check_key' server_type env' None).1
           = (get_keys check_key server_type env None).1
           ∧ (λ _, ()) <$> (get_keys check_key' server_type env' None).2
             = (λ _, ()) <$> (get_keys check_key server_type env None).2).
Proof.
  split; [done|]. intros keys Henv.
  unfold get_keys, getitem. rewrite Henv. cbn [check_required].
  split; [|split; [|split]].
  - intros (key & Hk & Hc). by rewrite Hk; simpl; rewrite Hc.
  - destruct 1 as [d -> Hd| -> |d key -> Hd Hc]; simpl; unfold getitem.
    + by rewrite Hd.
    + done.
    + by rewrite Hd; simpl; rewrite Hc.
  - intros log returned.
    destruct (keys_getitem keys server_type) as [key|e] eqn:Hk; simpl.
    + destruct (check_key key) as [[]|e] eqn:Hc.
      * intros [= <- <-]. repeat split. by exists key.
      * by destruct e.
    + by destruct e.
  - intros check_key' env' keys' Henv' Hsame Hcheck. rewrite Henv'.
    cbn [check_required]. rewrite Hsame.
    destruct (keys_getitem keys server_type) as [key|e]; simpl.
    + rewrite (Hcheck key eq_refl).
      destruct (check_key key) as [[]|e]; [done|]. by destruct e.
    + by destruct e.
Qed.

Lemma get_keys_default_role_witness :
  let key := "0123456789abcdef0123456789abcdef" in
  get_keys check_key_32 "object"
    {[ CRYPTO_KEY_CALLBACK :=
         Return (KeysDict {[ "container" := "not a valid key";
                             "object" := key ]}) ]}
    None
  = ([], Return (KeysDict {[ "container" := "not a valid key";
                             "object" := key ]}))
  ∧ get_keys check_key_32 "object"
      {[ CRYPTO_KEY_CALLBACK := Return (KeysDict {[ "container" := key ]}) ]}
      None
    = ([LogMissingKey "object"],
       Raise (HTTPInternalServerError "Unable to retrieve encryption keys."))
  ∧ get_keys check_key_32 "object"
      {[ CRYPTO_KEY_CALLBACK :=
           Return (KeysDict {[ "container" := key; "object" := "too short" ]}) ]}
      None
    = ([LogBadKey "object" ValueError],
       Raise (HTTPInternalServerError "Unable to retrieve encryption keys.")).
Proof.
  intros key. split; [|split].
  - refine (proj1 (proj2 (get_keys_default_role check_key_32 "object" _)
                     (KeysDict {[ "container" := "not a valid key";
                                  "object" := key ]}) _) _);
      [reflexivity|]. by exists key.
  - refine (proj1 (proj2 (proj2 (get_keys_default_role check_key_32 "object" _)
                            (KeysDict {[ "container" := key ]}) _)) _ _);
      [reflexivity|]. by eapply key_missing.
  - refine (proj1 (proj2 (proj2 (get_keys_default_role check_key_32 "object" _)
                            (KeysDict {[ "container" := key;
                                         "object" := "too short" ]}) _))
              _ _); [reflexivity|].
    by eapply key_rejected.
Defined.

End KeyRetrieval.

(** ** Keys from request headers *)

Module Byok.
Import CryptoUtils.

Lemma validate_key_verdict headers name o :
  header_verdict headers name o → _validate_key headers name = o.
Proof.
  unfold _validate_key, getitem.
  destruct 1 as [H|v H Hd|v key H Hd Hl|v key H Hd Hl];
    rewrite H; simpl; rewrite ?Hd; try done.
  - by rewrite bool_decide_eq_true_2.
  - rewrite bool_decide_eq_false_2; [done|]. by intros [].
Qed.

Lemma validate_key_raises headers name e :
  _validate_key headers name = Raise e → e ∈ rejections name.
Proof.
  unfold _validate_key, getitem, rejections.
  destruct (headers !! name) as [v|]; simpl.
  - destruct (Base64.b64decode v) as [key|e'] eqn:Hd.
    + case_bool_decide; intros [= <-]. set_solver.
    + apply Base64Facts.b64decode_raises in Hd as ->. intros [= <-]. set_solver.
  - intros [= <-]. set_solver.
Qed.

Lemma validate_key_base64_chars headers name :
  _validate_key (Base64.base64_chars <$> headers) name
  = _validate_key headers name.
Proof.
  unfold _validate_key, getitem. rewrite lookup_fmap.
  destruct (headers !! name) as [v|]; [|done]. cbn.
  by rewrite Base64Facts.b64decode_base64_chars.
Qed.

(** C9, as the specification words it, fails: the object key header
    holds an exclamation mark, which is no base64 character, and the
    request is accepted with the 32 byte key the rest decodes to. *)
Lemma malformed_header_is_accepted : ¬ malformed_header_fails stray_headers.
Proof.
  intros H.
  destruct (H OBJECT_KEY_HEADER
              "MDEy!MzQ1Njc4OWFiY2RlZjAxMjM0NTY3ODlhYmNkZWY=")
    as [body Hbody]; [set_solver|done|done|].
  vm_compute in Hbody. discriminate.
Qed.

(** C9, amended: with neither key header the result is the empty
    mapping; with at least one, the object header is judged first and
    the container header second: a missing header, a header whose text
    the base64 decoder rejects and a key of another length than 32 each
    fail the request with a client error that names the header, and no
    failure carries anything but one of these fixed texts. The decoder
    reads the base64 characters of a header and nothing else: the
    characters that are neither base64 digits nor padding make no
    difference to what the request comes to. *)
Theorem parse_header_keys_table (headers : gmap string string) :
  (headers !! OBJECT_KEY_HEADER = None →
   headers !! CONTAINER_KEY_HEADER = None →
   parse_header_keys headers = Return ∅)
  ∧ (is_Some (headers !! OBJECT_KEY_HEADER)
     ∨ is_Some (headers !! CONTAINER_KEY_HEADER) →
     ∀ o, header_verdict headers OBJECT_KEY_HEADER o →
       match o with
       | Raise e => parse_header_keys headers = Raise e
       | Return object_key =>
           ∀ c, header_verdict headers CONTAINER_KEY_HEADER c →
             match c with
             | Raise e => parse_header_keys headers = Raise e
             | Return container_key =>
                 parse_header_keys headers
                 = Return {[ "object" := object_key;
                             "container" := container_key ]}
             end
       end)
  ∧ (∀ e, parse_header_keys headers = Raise e →
       e ∈ rejections OBJECT_KEY_HEADER ++ rejections CONTAINER_KEY_HEADER)
  ∧ parse_header_keys (Base64.base64_chars <$> headers)
    = parse_header_keys headers.
Proof.
  unfold parse_header_keys, OBJECT_KEY_HEADER, CONTAINER_KEY_HEADER.
  split; [|split; [|split]].
  - intros Ho Hc. rewrite Ho, Hc.
    rewrite !bool_decide_eq_false_2; [done|by intros []..].
  - intros Hpresent o Ho.
    assert (bool_decide (is_Some (headers !! "X-Crypto-Object-Key"))
            || bool_decide (is_Some (headers !! "X-Crypto-Container-Key"))
            = true) as ->.
    { apply orb_true_iff. destruct Hpresent; [left|right];
        by apply bool_decide_eq_true_2. }
    rewrite (validate_key_verdict _ _ _ Ho).
    destruct o as [object_key|e]; [|done].
    intros c Hc. rewrite (validate_key_verdict _ _ _ Hc).
    destruct c as [container_key|e]; [|done].
    done.
  - intros e. destruct (_ || _); [|done].
    destruct (_validate_key headers "X-Crypto-Object-Key") eqn:Ho.
    + destruct (_validate_key headers "X-Crypto-Container-Key") eqn:Hc;
        [done|].
      intros [= <-]. apply elem_of_app. right.
      by apply validate_key_raises with headers.
    + intros [= <-]. apply elem_of_app. left.
      by apply validate_key_raises with headers.
  - rewrite !validate_key_base64_chars, !lookup_fmap.
    by destruct (headers !! "X-Crypto-Object-Key"),
      (headers !! "X-Crypto-Container-Key").
Qed.

Lemma parse_header_keys_table_witness :
  parse_header_keys
    {[ "X-Crypto-Object-Key" := "MDEyMzQ1Njc4OWFiY2RlZjAxMjM0NTY3ODlhYmNkZWY=" ]}
  = Raise (HTTPBadRequest "X-Crypto-Container-Key is missing")
  ∧ parse_header_keys
      {[ "X-Crypto-Object-Key" := "MDEyMzQ1Njc4OWFiY2RlZjAxMjM0NTY3ODlhYmNkZWY=";
         "X-Crypto-Container-Key" := "MDEyMzQ1Njc4OWFiY2RlZjAxMjM=" ]}
    = Raise (HTTPBadRequest "X-Crypto-Container-Key length should be 32")
  ∧ parse_header_keys
      {[ "X-Crypto-Object-Key" := "MDEyMzQ1Njc4OWFiY2RlZjAxMjM0NTY3ODlhYmNkZWY";
         "X-Crypto-Container-Key" := "MDEyMzQ1Njc4OWFiY2RlZjAxMjM0NTY3ODlhYmNkZWY=" ]}
    = Raise (HTTPBadRequest "X-Crypto-Object-Key is an invalid format")
  ∧ parse_header_keys stray_headers
    = Return {[ "object" := "0123456789abcdef0123456789abcdef";
                "container" := "0123456789abcdef0123456789abcdef" ]}.
Proof.
  split; [|split; [|split]].
  - refine (proj1 (proj2 (parse_header_keys_table _)) _
              (Return "0123456789abcdef0123456789abcdef") _
              (Raise _) _).
    + left. by eexists.
    + by eapply header_accepted.
    + by apply header_absent.
  - refine (proj1 (proj2 (parse_header_keys_table _)) _
              (Return "0123456789abcdef0123456789abcdef") _
              (Raise _) _).
    + left. by eexists.
    + by eapply header_accepted.
    + by apply (header_wrong_length _ CONTAINER_KEY_HEADER
                  "MDEyMzQ1Njc4OWFiY2RlZjAxMjM=" "0123456789abcdef0123").
  - refine (proj1 (proj2 (parse_header_keys_table _)) _ (Raise _) _).
    + left. by eexists.
    + by eapply header_malformed.
  - refine (proj1 (proj2 (parse_header_keys_table stray_headers)) _
              (Return "0123456789abcdef0123456789abcdef") _
              (Return "0123456789abcdef0123456789abcdef") _).
    + left. by eexists.
    + by eapply header_accepted.
    + by eapply header_accepted.
Defined.

End Byok.

(** ** The crypto-meta envelope *)

Module Codec.
Import CryptoUtils.

(** The envelope of a sample crypto meta, written and read. *)
Example dump_example :
  CryptoUtils.dump_crypto_meta {[ "iv" := PyStr "0123456789abcdef" ]}
  = Return "%7B%22iv%22%3A+%22MDEyMzQ1Njc4OWFiY2RlZg%3D%3D%22%7D".
Proof. reflexivity. Qed.

Example extract_example :
  CryptoUtils.extract_crypto_meta
    "abc; meta=%7B%22iv%22%3A+%22MDEyMzQ1Njc4OWFiY2RlZg%3D%3D%22%7D"
  = Return ("abc", Some {[ "iv" := "0123456789abcdef" ]}).
Proof. vm_compute. reflexivity. Qed.

(** The handled failures of [load_crypto_meta]: text that is no JSON, an
    [iv] that is no base64 text, an [iv] that is no string. *)
Example load_failures :
  raises_encryption_exception (load_crypto_meta "not json") ValueError
  ∧ raises_encryption_exception
      (CryptoUtils.load_crypto_meta "%7B%22iv%22%3A+%22a%22%7D") TypeError
  ∧ raises_encryption_exception
      (CryptoUtils.load_crypto_meta "%7B%22iv%22%3A+7%7D") TypeError.
Proof. repeat split; by eexists. Qed.


(** C2, as the specification words it, fails on a value that ends in
    an unrelated segment: the segment is cut off. *)
Lemma extract_cuts_unrelated_segment :
  ¬ extract_leaves_unchanged "abc; foo=bar".
Proof.
  intros H. specialize (H eq_refl). vm_compute in H. discriminate.
Qed.

(** C2, amended: a value with no semicolon comes back unchanged with
    no crypto meta; a value whose text after the last semicolon does
    not, once stripped, start with [meta=] comes back cut at that
    semicolon, with no crypto meta. *)
Theorem extract_without_meta :
  (∀ value,
      Str.mem ";" value = false →
      extract_crypto_meta value = Return (value, None))
  ∧ (∀ value param,
      Str.mem ";" param = false →
      Str.startswith "meta=" (Str.strip param) = false →
      extract_crypto_meta (value +:+ String ";" param)
      = Return (value, None)).
Proof.
  split.
  - intros value H. unfold extract_crypto_meta.
    by rewrite (StrFacts.rsplit1_none _ _ H).
  - intros value param Hp Hmeta. unfold extract_crypto_meta.
    by rewrite (StrFacts.rsplit1_app _ _ _ Hp), Hmeta.
Qed.

Lemma extract_without_meta_witness :
  extract_crypto_meta "d41d8cd98f00b204e9800998ecf8427e"
  = Return ("d41d8cd98f00b204e9800998ecf8427e", None)
  ∧ extract_crypto_meta "a;b; foo=bar" = Return ("a;b", None).
Proof.
  split.
  - by apply (proj1 extract_without_meta).
  - by apply (proj2 extract_without_meta "a;b" " foo=bar").
Defined.

(** What the body of the [try] block of [load_crypto_meta] can raise. *)
Lemma load_items_raises d e :
  dict_comprehension
    (fun name value =>
       v ← (if bool_decide (name = "iv") then b64decode_value value
            else Return (py_str value));
       Return (name, v))
    d
  = Raise e →
  e = TypeError.
Proof.
  unfold dict_comprehension.
  destruct (traverse _ _) as [l|e'] eqn:Hl; cbn [mbind outcome_bind]; [done|].
  intros [= <-]. apply DictFacts.traverse_raises in Hl as ([k v] & _ & Hkv).
  cbn [fst snd] in Hkv. case_bool_decide; [|done].
  destruct v as [s| | |]; cbn [b64decode_value mbind outcome_bind] in Hkv;
    try by injection Hkv as <-.
  destruct (Base64.b64decode s) as [bs|e''] eqn:Hs; [done|].
  cbn [mbind outcome_bind] in Hkv. injection Hkv as <-.
  by eapply Base64Facts.b64decode_raises.
Qed.

(** Besides [EncryptionException], an [AttributeError] is all that
    [load_crypto_meta] raises on the modelled fragment. *)
Lemma load_crypto_meta_raises value e :
  load_crypto_meta value = Raise e →
  (∃ text err, e = EncryptionException text err)
  ∨ e = AttributeError ∨ e = Unmodelled.
Proof.
  unfold load_crypto_meta.
  destruct (Json.loads _) as [o|e'] eqn:Ho; cbn [mbind outcome_bind].
  - destruct o as [v|d]; cbn [items mbind outcome_bind].
    + intros [= <-]. auto.
    + destruct (dict_comprehension _ d) as [m|e''] eqn:Hd; [done|].
      apply load_items_raises in Hd as ->. intros [= <-]. eauto.
  - apply JsonFacts.loads_raises in Ho as [-> | ->]; intros [= <-]; eauto.
Qed.

(** C4, on a text that is JSON but no JSON object: [load_crypto_meta]
    lets the [AttributeError] of [.items()] through. *)
Theorem load_lets_attribute_error_through :
  load_crypto_meta "1" = Raise AttributeError.
Proof. reflexivity. Qed.

Lemma b64encode_ascii s : Str.all Str.is_ascii (Base64.b64encode s) = true.
Proof.
  assert (∀ x, Str.is_ascii (Base64.digit x) = true) as Hdigit.
  { by intros [[[[[[] []] []] []] []] []]. }
  induction s as [|a|a b|a b c r IH] using Base64Facts.string_ind_by_three.
  - done.
  - destruct a. cbn [Base64.b64encode Str.all]. by rewrite !Hdigit.
  - destruct a, b. cbn [Base64.b64encode Str.all]. by rewrite !Hdigit.
  - destruct a, b, c. cbn [Base64.b64encode Str.all]. by rewrite !Hdigit, IH.
Qed.

Lemma lookup_encoded_meta m name :
  encoded_meta m !! name = (fun s => encoded name (PyStr s)) <$> m !! name.
Proof.
  unfold encoded_meta, as_values. rewrite map_lookup_imap, lookup_fmap.
  by destruct (m !! name).
Qed.

Lemma dump_comprehension m :
  dict_comprehension
    (fun name value =>
       v ← (if bool_decide (name = "iv") then b64encode_value value
            else Return value);
       Return (name, v))
    (as_values m)
  = Return (encoded_meta m).
Proof.
  apply DictFacts.dict_comprehension_total. intros k v.
  unfold as_values. rewrite lookup_fmap.
  destruct (m !! k) as [s|]; [|done]. intros [= <-].
  unfold encoded. by case_bool_decide.
Qed.

Lemma encoded_meta_text m :
  text_meta m → map_Forall Json.text_entry (encoded_meta m).
Proof.
  intros Hm k v. rewrite lookup_encoded_meta.
  destruct (m !! k) as [s|] eqn:Hk; [|done]. intros [= <-].
  destruct (Hm _ _ Hk) as [Hname Hvalue]. split; [done|].
  unfold encoded. case_bool_decide.
  - eexists. split; [done|]. apply b64encode_ascii.
  - eexists. split; [done|]. by apply Hvalue.
Qed.

Lemma load_comprehension m :
  dict_comprehension
    (fun name value =>
       v ← (if bool_decide (name = "iv") then b64decode_value value
            else Return (py_str value));
       Return (name, v))
    (encoded_meta m)
  = Return m.
Proof.
  rewrite (DictFacts.dict_comprehension_total _
             (fun name _ => default "" (m !! name))).
  - f_equal. apply map_eq. intros k.
    rewrite map_lookup_imap, lookup_encoded_meta. by destruct (m !! k).
  - intros k v. rewrite lookup_encoded_meta.
    destruct (m !! k) as [s|]; [|done]. intros [= <-].
    unfold encoded. case_bool_decide; [|done].
    cbn [b64decode_value]. by rewrite Base64Facts.b64decode_b64encode.
Qed.

(** The text [dump_crypto_meta] writes for a crypto meta of text: the
    quoted JSON text of its encoded form, which [Json.loads] reads back. *)
Lemma dump_text_meta m :
  text_meta m →
  ∃ j,
    Json.loads j = Return (Dict (encoded_meta m))
    ∧ dump_crypto_meta (as_values m) = Return (Urllib.quote_plus j).
Proof.
  intros Hm.
  destruct (JsonFacts.loads_dumps _ (encoded_meta_text _ Hm))
    as (j & Hdumps & Hloads).
  exists j. split; [done|].
  unfold dump_crypto_meta. rewrite dump_comprehension.
  cbn [mbind outcome_bind]. by rewrite Hdumps.
Qed.

(** What [load_crypto_meta] makes of such a text. *)
Lemma load_quoted m j :
  Json.loads j = Return (Dict (encoded_meta m)) →
  load_crypto_meta (Urllib.quote_plus j) = Return m.
Proof.
  intros Hloads. unfold load_crypto_meta.
  rewrite UrllibFacts.unquote_plus_quote_plus, Hloads.
  cbn [mbind outcome_bind items]. by rewrite load_comprehension.
Qed.

(** C5, as the specification words it, fails on a crypto meta with a
    number in it: the number comes back as a string. *)
Lemma dump_load_loses_numbers : ¬ dump_round_trips numbered_meta.
Proof.
  intros (text & loaded & Hdump & _ & Hload & Hsame).
  vm_compute in Hdump. injection Hdump as <-.
  vm_compute in Hload. injection Hload as <-.
  apply (f_equal (fun d => d !! "key_id")) in Hsame.
  vm_compute in Hsame. discriminate.
Qed.

(** C5, amended: for every crypto meta of byte strings whose names
    and whose values other than the [iv] are 7-bit text, the [iv] being
    any byte string, [dump_crypto_meta] writes a text of URL-safe
    characters only, and [load_crypto_meta] gives the crypto meta back
    from it. *)
Theorem load_dump_text_meta (m : gmap string string) :
  text_meta m →
  ∃ text,
    dump_crypto_meta (as_values m) = Return text
    ∧ Str.all Urllib.url_safe text = true
    ∧ load_crypto_meta text = Return m.
Proof.
  intros Hm. destruct (dump_text_meta _ Hm) as (j & Hloads & Hdump).
  exists (Urllib.quote_plus j). split; [exact Hdump|]. split.
  - apply UrllibFacts.quote_plus_url_safe.
  - by apply load_quoted.
Qed.

Lemma binary_meta_text : text_meta binary_meta.
Proof.
  intros name value. unfold binary_meta.
  by intros [[<- <-]|[_ [<- <-]%lookup_singleton_Some]]%lookup_insert_Some.
Qed.

Lemma load_dump_text_meta_witness :
  ∃ text,
    dump_crypto_meta (as_values binary_meta) = Return text
    ∧ Str.all Urllib.url_safe text = true
    ∧ load_crypto_meta text = Return binary_meta.
Proof. exact (load_dump_text_meta binary_meta binary_meta_text). Defined.

Lemma strip_meta text :
  Str.all Urllib.url_safe text = true →
  Str.strip (" meta=" +:+ text) = "meta=" +:+ text.
Proof.
  intros H. unfold Str.strip.
  change (Str.lstrip (" meta=" +:+ text)) with ("meta=" +:+ text).
  apply StrFacts.rstrip_no_space.
  rewrite StrFacts.all_app. by rewrite (UrllibFacts.url_safe_no_space _ H).
Qed.

(** [extract_crypto_meta] on a value with a dumped crypto meta
    appended. *)
Lemma extract_appended value text :
  Str.all Urllib.url_safe text = true →
  extract_crypto_meta (value +:+ "; meta=" +:+ text)
  = crypto_meta ← load_crypto_meta text; Return (value, Some crypto_meta).
Proof.
  intros H. unfold extract_crypto_meta.
  change (value +:+ "; meta=" +:+ text)
    with (value +:+ String ";" (" meta=" +:+ text)).
  rewrite StrFacts.rsplit1_app.
  - by rewrite (strip_meta _ H).
  - rewrite StrFacts.mem_app. by rewrite (UrllibFacts.url_safe_no_semicolon _ H).
Qed.

(** C6, as the specification words it, fails on a crypto meta with a
    number in it. *)
Lemma extract_append_loses_numbers :
  ¬ append_round_trips "d41d8cd98f00b204e9800998ecf8427e" numbered_meta.
Proof.
  intros (text & loaded & Happend & Hextract & Hsame).
  vm_compute in Happend. injection Happend as <-.
  vm_compute in Hextract. injection Hextract as <-.
  apply (f_equal (fun d => d !! "key_id")) in Hsame.
  vm_compute in Hsame. discriminate.
Qed.

(** C6, amended: for every value, semicolons or not, and every
    crypto meta of byte strings whose names and whose values other than
    the [iv] are 7-bit text, [extract_crypto_meta] gives the value and
    the crypto meta back from what [append_crypto_meta] writes. *)
Theorem extract_append_text_meta (value : string) (m : gmap string string) :
  text_meta m →
  ∃ text,
    append_crypto_meta value (as_values m) = Return text
    ∧ extract_crypto_meta text = Return (value, Some m).
Proof.
  intros Hm. destruct (dump_text_meta _ Hm) as (j & Hloads & Hdump).
  exists (value +:+ "; meta=" +:+ Urllib.quote_plus j). split.
  - unfold append_crypto_meta. by rewrite Hdump.
  - rewrite extract_appended by apply UrllibFacts.quote_plus_url_safe.
    by rewrite (load_quoted _ _ Hloads).
Qed.

Lemma extract_append_text_meta_witness :
  ∃ text,
    append_crypto_meta "a;b; meta=c" (as_values binary_meta) = Return text
    ∧ extract_crypto_meta text = Return ("a;b; meta=c", Some binary_meta).
Proof.
  exact (extract_append_text_meta "a;b; meta=c" binary_meta binary_meta_text).
Defined.

End Codec.

(** ** The auditor *)

Module Audit.
Import Auditor.

(** The path functions on the paths of the example node. *)
Example posixpath_examples :
  Posixpath.dirname "/srv/node/sda/objects/1/abc/0a/1.data"
  = "/srv/node/sda/objects/1/abc/0a"
  ∧ Posixpath.basename "/srv/node/sda/objects/1/abc/0a" = "0a"
  ∧ Posixpath.dirname "/x" = "/"
  ∧ Posixpath.dirname "x" = ""
  ∧ Posixpath.join "/srv/node" ["sda"; "quarantined"; "objects"; "0a"]
    = "/srv/node/sda/quarantined/objects/0a"
  ∧ Posixpath.join "/srv/node/" ["sda"; "/abs"; "x"] = "/abs/x".
Proof. by repeat split. Qed.

Ltac run_monad :=
  unfold mbind, mret, M_bind, M_ret, lift, raise, get_self, modify, emit;
  cbn -[Str.split Str.endswith Posixpath.dirname Posixpath.basename
        Posixpath.join].

(** The handler for [AuditException]: what it does to the counters and
    to the trace. *)
Lemma quarantine_spec w path device err st :
  let st' := (quarantine w path device err st).1 in
  self st' = incr_quarantines (self st)
  ∧ clock st' = clock st
  ∧ trace st' = trace st ++ quarantine_events w (self st) path device err.
Proof.
  unfold quarantine, quarantine_events. run_monad.
  destruct (invalidate_hash w (Posixpath.dirname path)); simpl;
    by rewrite <- !app_assoc.
Qed.

Lemma object_audit_quarantines w path device partition st st1 err :
  audit_block w path device partition st = (st1, Raise (AuditException err)) →
  object_audit w path device partition st = quarantine w path device err st1.
Proof. intros H. unfold object_audit. by rewrite H. Qed.

Lemma audit_block_read_failure w path device partition st exc :
  Str.endswith ".data" path = true →
  metadata_read_fails w path exc →
  audit_block w path device partition st
  = (st, Raise (AuditException (ReadingMetadata exc))).
Proof.
  intros Hdata Hfail. unfold audit_block. rewrite Hdata. simpl.
  destruct Hfail as [exc H|md H Hname]; run_monad; rewrite H; simpl; [done|].
  unfold getitem. by rewrite Hname.
Qed.

Lemma audit_block_size_mismatch w path device partition st actual recorded :
  reaches_size_check w (self st) path device partition actual recorded →
  actual ≠ recorded →
  audit_block w path device partition st
  = (st, Raise (AuditException (ContentLengthDiffers recorded actual))).
Proof.
  intros [md name junk account container obj df file v
            Hdata Hread Hname Hsplit Hdf Hfile Hsize Hcl Hint] Hne.
  unfold audit_block. rewrite Hdata. run_monad.
  rewrite Hread. run_monad. unfold getitem at 1. rewrite Hname, Hsplit.
  rewrite Hdf, Hfile, Hsize. unfold getitem. rewrite Hcl. run_monad.
  rewrite Hint. by rewrite bool_decide_eq_true_2.
Qed.

(** C1, as the specification words it, fails on the example node: the
    metadata of the first object file cannot be read, and the audit
    counts no error. *)
Lemma read_failure_is_not_an_error :
  ¬ read_failure_is_an_error (node []) (start default_worker)
      unreadable "sda" "1".
Proof.
  intros H. destruct H as [Herrors _]; [by exists OSError|].
  vm_compute in Herrors. discriminate.
Qed.

(** C1, amended: when the metadata of a data file cannot be read,
    [object_audit] quarantines: it adds one to the quarantine counter,
    leaves the error and pass counters alone, logs the failure,
    invalidates the hash of the object's directory and, unless that
    raises, renames the directory into the quarantine area. *)
Theorem read_failure_quarantines (w : World) (st : run)
    (path device partition : string) (exc : exn) :
  Str.endswith ".data" path = true →
  metadata_read_fails w path exc →
  let st' := (object_audit w path device partition st).1 in
  quarantines (self st') = quarantines (self st) + 1
  ∧ errors (self st') = errors (self st)
  ∧ passes (self st') = passes (self st)
  ∧ trace st'
    = trace st
      ++ quarantine_events w (self st) path device (ReadingMetadata exc).
Proof.
  intros Hdata Hfail.
  rewrite (object_audit_quarantines _ _ _ _ _ _ _
             (audit_block_read_failure _ _ device partition st _ Hdata Hfail)).
  destruct (quarantine_spec w path device (ReadingMetadata exc) st)
    as (Hself & _ & Htrace).
  cbv zeta. rewrite Hself, Htrace. done.
Qed.

Lemma read_failure_quarantines_witness :
  let st' := (object_audit (node []) unreadable "sda" "1"
                (start default_worker)).1 in
  quarantines (self st') = 1
  ∧ errors (self st') = 0
  ∧ passes (self st') = 0
  ∧ trace st'
    = [Log (FailedAudit unreadable (ReadingMetadata OSError));
       InvalidateHash "/srv/node/sda/objects/1/abc/0a";
       Renamer "/srv/node/sda/objects/1/abc/0a"
         "/srv/node/sda/quarantined/objects/0a"].
Proof.
  apply (read_failure_quarantines (node []) (start default_worker)
           unreadable "sda" "1" OSError).
  - reflexivity.
  - by apply read_raises.
Defined.

(** How the handler for [AuditException] ends: with what renaming the
    directory gives, unless invalidating the hash raised. *)
Lemma quarantine_outcome w path device err st :
  (quarantine w path device err st).2
  = match invalidate_hash w (Posixpath.dirname path) with
    | Return _ =>
        renamer w (Posixpath.dirname path)
          (quarantine_target (self st) path device)
    | Raise exc => Raise exc
    end.
Proof.
  unfold quarantine, quarantine_target. run_monad.
  by destruct (invalidate_hash w (Posixpath.dirname path)).
Qed.




(** The final summary of [audit_all_objects] divides by the time the
    pass took, whatever it is. *)
Lemma audit_all_objects_no_time (w : World) (mode : string) (st : run) :
  audit_location_generator w (devices (self st)) = [] →
  Qeq_bool (time_time w (S (clock st)) - time_time w (clock st)) 0 = true →
  (audit_all_objects w mode st).2 = Raise ZeroDivisionError.
Proof.
  intros Hlocs Hzero. unfold audit_all_objects, now, divide. run_monad.
  rewrite Hlocs. run_monad. by rewrite Hzero.
Qed.

(** C3, on the example node: the device tree holds no object and the
    clock reads the same at the start and at the end of the pass; the
    final summary raises [ZeroDivisionError]. *)
Theorem final_summary_divides_by_zero :
  (audit_all_objects (node []) "once" (start default_worker)).2
  = Raise ZeroDivisionError.
Proof. reflexivity. Qed.

End Audit.

(** ** Key retrieval: when it returns and how it fails *)

Module KeysMore.
Import CryptoUtils.

Lemma check_required_returns {Key} (check_key : Key → outcome ()) keys required log :
  check_required check_key keys required = (log, Return ()) →
  log = [] ∧ Forall (role_validates check_key keys) required.
Proof.
  revert log. induction required as [|name rest IH]; intros log; cbn [check_required].
  - by intros [= <-].
  - destruct (keys_getitem keys name) as [key|e] eqn:Hkey; cbn [mbind outcome_bind].
    + destruct (check_key key) as [[]|e] eqn:Hcheck.
      * intros [-> Hrest]%IH. split; [done|]. constructor; [by exists key|done].
      * destruct e; intros [=].
    + destruct e; intros [=].
Qed.

Lemma check_required_raises {Key} (check_key : Key → outcome ()) keys required log e :
  (∀ key e', check_key key = Raise e' →
     e' = ValueError ∨ e' = TypeError ∨ ∃ k, e' = KeyError k) →
  check_required check_key keys required = (log, Raise e) →
  e = unable ∧ length log = 1%nat.
Proof.
  intros Hcheck. revert log.
  induction required as [|name rest IH]; intros log; cbn [check_required]; [done|].
  destruct (keys_getitem keys name) as [key|e1] eqn:Hkey; cbn [mbind outcome_bind].
  - destruct (check_key key) as [[]|e1] eqn:Hk; [apply IH|].
    destruct (Hcheck _ _ Hk) as [->|[->|[k ->]]]; by intros [= <- <-].
  - destruct keys as [d|]; cbn [keys_getitem] in Hkey.
    + unfold getitem in Hkey. destruct (d !! name); [done|].
      injection Hkey as <-. by intros [= <- <-].
    + injection Hkey as <-. by intros [= <- <-].
Qed.

(** [get_keys] returns exactly when the callback is in the environment
    and returns, and every required role has a key in what it returns
    that passes the check; what [get_keys] returns is then what the
    callback returned, and nothing is logged. *)
Theorem get_keys_returns_checked_keys {Key} (check_key : Key → outcome ())
    (server_type : string) (env : environ Key)
    (required : option (list string)) (log : list log_record)
    (keys : keys_object Key) :
  get_keys check_key server_type env required = (log, Return keys)
  ↔ log = []
    ∧ env !! CRYPTO_KEY_CALLBACK = Some (Return keys)
    ∧ Forall (role_validates check_key keys) (default [server_type] required).
Proof.
  unfold get_keys, getitem.
  replace (match required with Some r => r | None => [server_type] end)
    with (default [server_type] required) by by destruct required.
  destruct (env !! CRYPTO_KEY_CALLBACK) as [[keys'|err]|] eqn:Henv.
  - destruct (check_required check_key keys' (default [server_type] required))
      as [log' [[]|e]] eqn:Hreq.
    + apply check_required_returns in Hreq as [-> Hall]. split.
      * by intros [= <- <-].
      * by intros (-> & [= <-] & _).
    + split; [done|]. intros (_ & [= <-] & Hall).
      pose proof (KeyRetrieval.check_required_app check_key keys' _ [] Hall)
        as Hok.
      rewrite app_nil_r in Hok. cbn [check_required] in Hok.
      by rewrite Hok in Hreq.
  - split; [done|]. by intros (_ & [=] & _).
  - split; [done|]. by intros (_ & [=] & _).
Qed.

Lemma get_keys_returns_checked_keys_witness :
  get_keys check_key_32 "object"
    {[ CRYPTO_KEY_CALLBACK :=
         Return (KeysDict {[ "object" := "0123456789abcdef0123456789abcdef" ]}) ]}
    (Some [])
  = ([], Return (KeysDict {[ "object" := "0123456789abcdef0123456789abcdef" ]}))
  ∧ Forall (role_validates check_key_32
              (KeysDict {[ "object" := "0123456789abcdef0123456789abcdef" ]}))
      ["object"].
Proof.
  split.
  - apply (proj2 (get_keys_returns_checked_keys check_key_32 "object" _
                    (Some []) [] _)).
    by repeat split.
  - apply (proj1 (get_keys_returns_checked_keys check_key_32 "object"
                    {[ CRYPTO_KEY_CALLBACK :=
                         Return (KeysDict {[ "object" := "0123456789abcdef0123456789abcdef" ]}) ]}
                    None [] _)).
    reflexivity.
Defined.

(** When the key check rejects keys with [ValueError], [TypeError] or
    [KeyError] only, every failure of [get_keys] is the one internal
    server error, with one record in the log: a callback that is not in
    the environment, a callback that raises, and a required role that
    fails look the same to the caller. *)
Theorem get_keys_fails_with_one_signal {Key} (check_key : Key → outcome ())
    (server_type : string) (env : environ Key)
    (required : option (list string)) (log : list log_record) (e : exn) :
  (∀ key e', check_key key = Raise e' →
     e' = ValueError ∨ e' = TypeError ∨ ∃ k, e' = KeyError k) →
  get_keys check_key server_type env required = (log, Raise e) →
  e = HTTPInternalServerError "Unable to retrieve encryption keys."
  ∧ length log = 1%nat.
Proof.
  intros Hcheck. unfold get_keys, getitem.
  destruct (env !! CRYPTO_KEY_CALLBACK) as [[keys|err]|] eqn:Henv.
  - destruct (check_required check_key keys _) as [log' [[]|e']] eqn:Hreq;
      [done|]. intros [= <- <-].
    by eapply check_required_raises.
  - by intros [= <- <-].
  - by intros [= <- <-].
Qed.

Lemma check_key_32_raises key e :
  check_key_32 key = Raise e → e = ValueError ∨ e = TypeError ∨ ∃ k, e = KeyError k.
Proof. unfold check_key_32. case_bool_decide; [done|]. intros [= <-]. by left. Qed.

Lemma get_keys_fails_with_one_signal_witness :
  unable = HTTPInternalServerError "Unable to retrieve encryption keys."
  ∧ length [LogCallbackNotInEnv CRYPTO_KEY_CALLBACK] = 1%nat.
Proof.
  apply (get_keys_fails_with_one_signal check_key_32 "object" ∅ None
           [LogCallbackNotInEnv CRYPTO_KEY_CALLBACK] unable check_key_32_raises).
  reflexivity.
Defined.

End KeysMore.

(** ** Keys from request headers: what a returned mapping holds *)

Module ByokMore.
Import CryptoUtils CryptoSamples.

Lemma validate_key_returns headers name key :
  _validate_key headers name = Return key →
  ∃ v, headers !! name = Some v
       ∧ Base64.b64decode v = Return key
       ∧ String.length key = 32%nat.
Proof.
  unfold _validate_key, getitem.
  destruct (headers !! name) as [v|]; cbn [mbind outcome_bind]; [|done].
  destruct (Base64.b64decode v) as [k|e] eqn:Hd.
  - case_bool_decide as Hl; [done|]. intros [= <-]. exists v.
    repeat split; [done|]. by destruct (decide (String.length k = 32%nat)).
  - by destruct e.
Qed.

(** A mapping that [parse_header_keys] returns is empty, and then the
    request has neither key header, or it holds exactly the object key
    and the container key, each 32 bytes long and each the base64
    decoding of its header: there is no mapping with one key only and no
    key of another length. *)
Theorem parsed_keys_are_both_or_none (headers keys : gmap string string) :
  parse_header_keys headers = Return keys →
  (headers !! OBJECT_KEY_HEADER = None
   ∧ headers !! CONTAINER_KEY_HEADER = None
   ∧ keys = ∅)
  ∨ (∃ o c object_key container_key,
        headers !! OBJECT_KEY_HEADER = Some o
        ∧ headers !! CONTAINER_KEY_HEADER = Some c
        ∧ Base64.b64decode o = Return object_key
        ∧ Base64.b64decode c = Return container_key
        ∧ String.length object_key = 32%nat
        ∧ String.length container_key = 32%nat
        ∧ keys = {[ "object" := object_key; "container" := container_key ]}).
Proof.
  unfold parse_header_keys, OBJECT_KEY_HEADER, CONTAINER_KEY_HEADER.
  destruct (bool_decide (is_Some (headers !! "X-Crypto-Object-Key"))
            || bool_decide (is_Some (headers !! "X-Crypto-Container-Key")))
    eqn:Hany.
  - destruct (_validate_key headers "X-Crypto-Object-Key")
      as [object_key|e] eqn:Ho; cbn [mbind outcome_bind]; [|done].
    destruct (_validate_key headers "X-Crypto-Container-Key")
      as [container_key|e] eqn:Hc; cbn [mbind outcome_bind]; [|done].
    intros [= <-]. right.
    apply validate_key_returns in Ho as (o & Ho & Hdo & Hlo).
    apply validate_key_returns in Hc as (c & Hc & Hdc & Hlc).
    by exists o, c, object_key, container_key.
  - apply orb_false_iff in Hany as [Ho Hc].
    apply bool_decide_eq_false in Ho, Hc.
    apply eq_None_not_Some in Ho, Hc.
    intros [= <-]. by left.
Qed.

Lemma parsed_keys_are_both_or_none_witness :
  ({[ "X-Crypto-Object-Key" := "MDEyMzQ1Njc4OWFiY2RlZjAxMjM0NTY3ODlhYmNkZWY=";
      "X-Crypto-Container-Key" := "ZmVkY2JhOTg3NjU0MzIxMGZlZGNiYTk4NzY1NDMyMTA=" ]}
     : gmap string string) !! OBJECT_KEY_HEADER = None
  ∧ ({[ "X-Crypto-Object-Key" := "MDEyMzQ1Njc4OWFiY2RlZjAxMjM0NTY3ODlhYmNkZWY=";
        "X-Crypto-Container-Key" := "ZmVkY2JhOTg3NjU0MzIxMGZlZGNiYTk4NzY1NDMyMTA=" ]}
       : gmap string string) !! CONTAINER_KEY_HEADER = None
  ∧ ({[ "object" := "0123456789abcdef0123456789abcdef";
        "container" := "fedcba9876543210fedcba9876543210" ]}
       : gmap string string) = ∅
  ∨ (∃ o c object_key container_key,
        ({[ "X-Crypto-Object-Key" := "MDEyMzQ1Njc4OWFiY2RlZjAxMjM0NTY3ODlhYmNkZWY=";
            "X-Crypto-Container-Key" := "ZmVkY2JhOTg3NjU0MzIxMGZlZGNiYTk4NzY1NDMyMTA=" ]}
           : gmap string string) !! OBJECT_KEY_HEADER = Some o
        ∧ ({[ "X-Crypto-Object-Key" := "MDEyMzQ1Njc4OWFiY2RlZjAxMjM0NTY3ODlhYmNkZWY=";
              "X-Crypto-Container-Key" := "ZmVkY2JhOTg3NjU0MzIxMGZlZGNiYTk4NzY1NDMyMTA=" ]}
             : gmap string string) !! CONTAINER_KEY_HEADER = Some c
        ∧ Base64.b64decode o = Return object_key
        ∧ Base64.b64decode c = Return container_key
        ∧ String.length object_key = 32%nat
        ∧ String.length container_key = 32%nat
        ∧ ({[ "object" := "0123456789abcdef0123456789abcdef";
              "container" := "fedcba9876543210fedcba9876543210" ]}
             : gmap string string)
          = {[ "object" := object_key; "container" := container_key ]}).
Proof.
  apply (parsed_keys_are_both_or_none
           {[ "X-Crypto-Object-Key" := "MDEyMzQ1Njc4OWFiY2RlZjAxMjM0NTY3ODlhYmNkZWY=";
              "X-Crypto-Container-Key" := "ZmVkY2JhOTg3NjU0MzIxMGZlZGNiYTk4NzY1NDMyMTA=" ]}).
  vm_compute. reflexivity.
Defined.

(** Two keys of 32 bytes, whatever their bytes, sent base64 encoded in
    the two headers come back as the object key and the container key,
    whatever other headers the request has. *)
Theorem encoded_keys_are_parsed (headers : gmap string string)
    (object_key container_key : string) :
  String.length object_key = 32%nat →
  String.length container_key = 32%nat →
  headers !! OBJECT_KEY_HEADER = Some (Base64.b64encode object_key) →
  headers !! CONTAINER_KEY_HEADER = Some (Base64.b64encode container_key) →
  parse_header_keys headers
  = Return {[ "object" := object_key; "container" := container_key ]}.
Proof.
  intros Hlo Hlc Ho Hc. unfold parse_header_keys.
  unfold OBJECT_KEY_HEADER in Ho. unfold CONTAINER_KEY_HEADER in Hc.
  rewrite bool_decide_eq_true_2 by by rewrite Ho.
  cbn [orb].
  rewrite (Byok.validate_key_verdict headers "X-Crypto-Object-Key"
             (Return object_key)).
  - rewrite (Byok.validate_key_verdict headers "X-Crypto-Container-Key"
               (Return container_key)); [done|].
    eapply header_accepted;
      [exact Hc|apply Base64Facts.b64decode_b64encode|done].
  - eapply header_accepted;
      [exact Ho|apply Base64Facts.b64decode_b64encode|done].
Qed.

Lemma encoded_keys_are_parsed_witness :
  parse_header_keys
    {[ "X-Crypto-Object-Key" := Base64.b64encode "0123456789abcdef0123456789abcdef";
       "X-Crypto-Container-Key" := Base64.b64encode binary_key;
       "X-Timestamp" := "1" ]}
  = Return {[ "object" := "0123456789abcdef0123456789abcdef";
              "container" := binary_key ]}.
Proof.
  by apply (encoded_keys_are_parsed
              {[ "X-Crypto-Object-Key" := Base64.b64encode "0123456789abcdef0123456789abcdef";
                 "X-Crypto-Container-Key" := Base64.b64encode binary_key;
                 "X-Timestamp" := "1" ]}
              "0123456789abcdef0123456789abcdef" binary_key).
Defined.

End ByokMore.

(** ** The crypto-meta envelope: what it writes and what it cuts *)

Module CodecMore.
Import CryptoUtils.

Lemma rsplit1_some sep s a b :
  Str.rsplit1 sep s = Some (a, b) →
  s = a +:+ String sep b ∧ Str.mem sep b = false.
Proof.
  revert a. induction s as [|c s IH]; intros a; cbn [Str.rsplit1]; [done|].
  destruct (Str.rsplit1 sep s) as [[a' b']|] eqn:Hs.
  - intros [= <- <-]. destruct (IH _ eq_refl) as [-> Hb]. by split.
  - destruct (Str.eqc c sep) eqn:Hc; [|done]. intros [= <- <-].
    apply StrFacts.eqc_eq in Hc as ->. split; [done|].
    destruct (Str.mem sep s) eqn:Hm; [|done].
    clear IH. exfalso. induction s as [|d s IH]; [done|].
    cbn [Str.rsplit1 Str.mem] in Hs, Hm.
    destruct (Str.rsplit1 sep s) as [[a' b']|]; [done|].
    destruct (Str.eqc d sep) eqn:Hd; [done|].
    apply orb_true_iff in Hm as [Hm|Hm]; [|by apply IH].
    apply StrFacts.eqc_eq in Hm as ->. by rewrite StrFacts.eqc_refl in Hd.
Qed.

Lemma rsplit1_mem sep s :
  Str.rsplit1 sep s = None → Str.mem sep s = false.
Proof.
  induction s as [|c s IH]; cbn [Str.rsplit1 Str.mem]; [done|].
  destruct (Str.rsplit1 sep s) as [[a b]|]; [done|].
  destruct (Str.eqc c sep) eqn:Hc; [done|]. intros _.
  rewrite (IH eq_refl), orb_false_r.
  destruct (Str.eqc sep c) eqn:Hc'; [|done].
  apply StrFacts.eqc_eq in Hc' as ->. by rewrite StrFacts.eqc_refl in Hc.
Qed.

(** What [dump_crypto_meta] writes, for any crypto meta it accepts, is
    made of URL-safe characters only; it has no semicolon and no space
    in it, the two characters [extract_crypto_meta] cuts and strips
    at. *)
Theorem dump_writes_url_safe_text (m : gmap string pyval) (text : string) :
  dump_crypto_meta m = Return text →
  Str.all Urllib.url_safe text = true
  ∧ Str.mem ";" text = false
  ∧ Str.mem " " text = false.
Proof.
  unfold dump_crypto_meta.
  destruct (dict_comprehension _ m) as [d|e]; cbn [mbind outcome_bind]; [|done].
  destruct (Json.dumps d) as [j|e]; cbn [mbind outcome_bind]; [|done].
  intros [= <-].
  pose proof (UrllibFacts.quote_plus_url_safe j) as Hsafe.
  split; [done|]. split; [by apply UrllibFacts.url_safe_no_semicolon|].
  clear -Hsafe. induction (Urllib.quote_plus j) as [|c s IH]; [done|].
  cbn [Str.all Str.mem] in *. apply andb_true_iff in Hsafe as [Hc Hs].
  rewrite (IH Hs), orb_false_r.
  by destruct c as [[] [] [] [] [] [] [] []].
Qed.

Lemma dump_writes_url_safe_text_witness :
  Str.all Urllib.url_safe "%7B%22key_id%22%3A+1%7D" = true
  ∧ Str.mem ";" "%7B%22key_id%22%3A+1%7D" = false
  ∧ Str.mem " " "%7B%22key_id%22%3A+1%7D" = false.
Proof.
  apply (dump_writes_url_safe_text {[ "key_id" := PyInt 1 ]}).
  vm_compute. reflexivity.
Defined.

(** Whatever the value is (it may hold semicolons, or end in a
    [meta=] segment of its own) and whatever the crypto meta is, when
    [append_crypto_meta] returns a text, [extract_crypto_meta] cuts that
    text where the crypto meta was appended: it hands the dumped crypto
    meta to [load_crypto_meta], and what it returns has the value
    unchanged and some crypto meta with it. *)
Theorem appended_value_comes_back (value : string) (m : gmap string pyval)
    (text : string) :
  append_crypto_meta value m = Return text →
  ∃ dumped,
    dump_crypto_meta m = Return dumped
    ∧ text = value +:+ "; meta=" +:+ dumped
    ∧ extract_crypto_meta text
      = (crypto_meta ← load_crypto_meta dumped;
         Return (value, Some crypto_meta)).
Proof.
  unfold append_crypto_meta.
  destruct (dump_crypto_meta m) as [dumped|e] eqn:Hdump;
    cbn [mbind outcome_bind]; [|done].
  intros [= <-]. exists dumped. split; [done|]. split; [done|].
  apply Codec.extract_appended.
  unfold dump_crypto_meta in Hdump.
  destruct (dict_comprehension _ m) as [d|e]; cbn [mbind outcome_bind] in Hdump;
    [|done].
  destruct (Json.dumps d) as [j|e]; cbn [mbind outcome_bind] in Hdump; [|done].
  injection Hdump as <-. apply UrllibFacts.quote_plus_url_safe.
Qed.

Lemma appended_value_comes_back_witness :
  ∃ dumped,
    dump_crypto_meta {[ "key_id" := PyInt 1 ]} = Return dumped
    ∧ "a;b; meta=c; meta=%7B%22key_id%22%3A+1%7D"
      = "a;b; meta=c" +:+ "; meta=" +:+ dumped
    ∧ extract_crypto_meta
        "a;b; meta=c; meta=%7B%22key_id%22%3A+1%7D"
      = (crypto_meta ← load_crypto_meta dumped;
         Return ("a;b; meta=c", Some crypto_meta)).
Proof.
  apply (appended_value_comes_back "a;b; meta=c" {[ "key_id" := PyInt 1 ]}).
  vm_compute. reflexivity.
Defined.

(** The first failure of a traversal, when every failure there is in
    the list is the same. *)
Lemma traverse_fails {A B} (f : A → outcome B) (l : list A) (a : A) (e : exn) :
  a ∈ l → f a = Raise e →
  (∀ a' e', a' ∈ l → f a' = Raise e' → e' = e) →
  traverse f l = Raise e.
Proof.
  intros Hin Ha Hall. induction l as [|x l IH]; [by apply elem_of_nil in Hin|].
  cbn [traverse]. destruct (f x) as [b|e'] eqn:Hx; cbn [mbind outcome_bind].
  - apply elem_of_cons in Hin as [->|Hin]; [congruence|].
    rewrite IH; [done|done|]. intros a' e' Ha'. apply Hall. by right.
  - f_equal. apply (Hall x); [by left|done].
Qed.

Lemma dumps_string_raises s e : Json.dumps_string s = Raise e → e = Unmodelled.
Proof. unfold Json.dumps_string. destruct (Str.all _ s); [done|]. by intros [= <-]. Qed.

Lemma dumps_raises d e : Json.dumps d = Raise e → e = Unmodelled.
Proof.
  unfold Json.dumps.
  destruct (traverse _ _) as [ms|e'] eqn:Hms; cbn [mbind outcome_bind]; [done|].
  intros [= <-]. apply DictFacts.traverse_raises in Hms as ([k v] & _ & Hkv).
  unfold Json.dumps_member in Hkv. cbn [fst snd] in Hkv.
  destruct (Json.dumps_string k) as [kt|ek] eqn:Hk; cbn [mbind outcome_bind] in Hkv.
  - destruct (Json.dumps_scalar v) as [vt|ev] eqn:Hv;
      cbn [mbind outcome_bind] in Hkv; [done|].
    injection Hkv as <-. destruct v as [s|n|[]|]; try done.
    by apply dumps_string_raises in Hv.
  - injection Hkv as <-. by apply dumps_string_raises in Hk.
Qed.

(** [dump_crypto_meta] raises a [TypeError] exactly when the crypto
    meta has an [iv] that is no string ([base64.b64encode] takes nothing
    else); no other entry is looked at before the JSON text is
    written. *)
Theorem dump_needs_an_iv_of_bytes (m : gmap string pyval) :
  dump_crypto_meta m = Raise TypeError
  ↔ ∃ v, m !! "iv" = Some v ∧ ∀ s, v ≠ PyStr s.
Proof.
  unfold dump_crypto_meta, dict_comprehension. split.
  - destruct (traverse _ (map_to_list m)) as [l|e] eqn:Hl;
      cbn [mbind outcome_bind].
    + destruct (Json.dumps _) as [j|e] eqn:Hj; cbn [mbind outcome_bind]; [done|].
      by apply dumps_raises in Hj as ->.
    + intros [= ->].
      apply DictFacts.traverse_raises in Hl as ([k v] & Hin & Hkv).
      apply elem_of_map_to_list in Hin. cbn [fst snd] in Hkv.
      case_bool_decide as Hk; [subst k|done].
      exists v. split; [done|]. by intros s ->.
  - intros (v & Hiv & Hv).
    rewrite (traverse_fails _ _ ("iv", v) TypeError); [done| | |].
    + by apply elem_of_map_to_list.
    + cbn [fst snd]. rewrite bool_decide_eq_true_2 by done.
      destruct v as [s| | |]; [by destruct (Hv s)|done..].
    + intros [k v'] e' _. cbn [fst snd]. case_bool_decide; [|done].
      destruct v'; cbn [b64encode_value mbind outcome_bind]; [done|..];
        by intros [= <-].
Qed.

(** [dump_needs_an_iv_of_bytes], on a crypto meta whose [iv] is a
    number, and on one that has a number under another name. *)
Example dump_iv_samples :
  dump_crypto_meta {[ "iv" := PyInt 7; "cipher" := PyStr "AES_CTR_256" ]}
  = Raise TypeError
  ∧ dump_crypto_meta {[ "key_id" := PyInt 7 ]}
    = Return "%7B%22key_id%22%3A+7%7D".
Proof.
  split; [|reflexivity].
  apply dump_needs_an_iv_of_bytes. exists (PyInt 7). by split.
Qed.

(** What [extract_crypto_meta] returns as the value is the input cut
    at its last semicolon, or the whole input when there is none; there
    is a crypto meta with it exactly when the last segment, stripped,
    starts with [meta=]. *)
Theorem extract_cuts_at_the_last_semicolon (value v : string)
    (crypto_meta : option (gmap string string)) :
  extract_crypto_meta value = Return (v, crypto_meta) →
  (Str.mem ";" value = false ∧ v = value ∧ crypto_meta = None)
  ∨ ∃ param,
      value = v +:+ String ";" param
      ∧ Str.mem ";" param = false
      ∧ (Str.startswith "meta=" (Str.strip param) = true
         ↔ ∃ m, crypto_meta = Some m
                ∧ load_crypto_meta (Str.drop 5 (Str.strip param)) = Return m).
Proof.
  unfold extract_crypto_meta.
  destruct (Str.rsplit1 ";" value) as [[v' param]|] eqn:Hsplit.
  - apply rsplit1_some in Hsplit as [-> Hparam].
    destruct (Str.startswith "meta=" (Str.strip param)) eqn:Hmeta.
    + destruct (load_crypto_meta _) as [m|e] eqn:Hload;
        cbn [mbind outcome_bind]; [|done].
      intros [= <- <-]. right. exists param.
      split; [done|]. split; [done|]. split; [|done]. intros _. by exists m.
    + intros [= <- <-]. right. exists param.
      split; [done|]. split; [done|]. rewrite Hmeta.
      split; [done|]. by intros (m & [=] & _).
  - intros [= <- <-]. left. apply rsplit1_mem in Hsplit. by repeat split.
Qed.

Lemma extract_cuts_at_the_last_semicolon_witness :
  (Str.mem ";" "a;b ; meta=%7B%22n%22%3A+1%7D " = false
   ∧ "a;b " = "a;b ; meta=%7B%22n%22%3A+1%7D "
   ∧ Some ({[ "n" := "1" ]} : gmap string string) = None)
  ∨ ∃ param,
      "a;b ; meta=%7B%22n%22%3A+1%7D " = "a;b " +:+ String ";" param
      ∧ Str.mem ";" param = false
      ∧ (Str.startswith "meta=" (Str.strip param) = true
         ↔ ∃ m, Some ({[ "n" := "1" ]} : gmap string string) = Some m
                ∧ load_crypto_meta (Str.drop 5 (Str.strip param)) = Return m).
Proof.
  apply (extract_cuts_at_the_last_semicolon "a;b ; meta=%7B%22n%22%3A+1%7D ").
  vm_compute. reflexivity.
Defined.

(** A text [load_crypto_meta] does not read, in the three ways it can
    fail on the modelled fragment. *)
Lemma load_crypto_meta_raises_witness :
  ((∃ text err, EncryptionException "not json" ValueError
                = EncryptionException text err)
   ∨ EncryptionException "not json" ValueError = AttributeError
   ∨ EncryptionException "not json" ValueError = Unmodelled)
  ∧ ((∃ text err, AttributeError = EncryptionException text err)
     ∨ AttributeError = AttributeError ∨ AttributeError = Unmodelled).
Proof.
  split.
  - apply (Codec.load_crypto_meta_raises "not+json"). reflexivity.
  - apply (Codec.load_crypto_meta_raises "true"). reflexivity.
Defined.

End CodecMore.

(** ** The auditor: every way through an audit *)

Module AuditPaths.
Import Auditor AuditorPaths.

Ltac run_monad :=
  unfold mbind, mret, M_bind, M_ret, lift, raise, get_self, modify, emit;
  cbn -[Str.split Str.endswith Posixpath.dirname Posixpath.basename
        Posixpath.join Str.len].

(** The chunk loop. *)
Lemma read_chunks_spec w cs : ∀ fed st,
  read_chunks w cs fed st = (after_reading w cs st, Return (fed +:+ joined cs)).
Proof.
  induction cs as [|chunk cs IH]; intros fed st.
  - cbn [read_chunks]. unfold after_reading, mret, M_ret. simpl.
    rewrite app_nil_r, StrFacts.app_nil_r. by destruct st.
  - cbn [read_chunks]. run_monad. rewrite IH. unfold after_reading. simpl.
    by rewrite <- app_assoc, StrFacts.app_assoc.
Qed.

Lemma pace_counters w cs : ∀ a,
  same_settings (pace w cs a) a
  ∧ bytes_processed (pace w cs a) = bytes_processed a + byte_count cs
  ∧ total_bytes_processed (pace w cs a) = total_bytes_processed a + byte_count cs
  ∧ passes (pace w cs a) = passes a
  ∧ quarantines (pace w cs a) = quarantines a
  ∧ errors (pace w cs a) = errors a.
Proof.
  induction cs as [|chunk cs IH]; intros a; cbn [pace byte_count].
  - unfold same_settings. repeat split; lia.
  - destruct (IH (add_bytes (Str.len chunk)
                    (set_bytes_running_time
                       (ratelimit_sleep w (bytes_running_time a)
                          (max_bytes_per_second a) (Str.len chunk)) a)))
      as (Hs & Hb & Ht & Hp & Hq & He).
    unfold same_settings in *. simpl in *.
    repeat split; try tauto; lia.
Qed.

Lemma byte_count_nonneg cs : 0 ≤ byte_count cs.
Proof. induction cs; cbn [byte_count]; unfold Str.len; lia. Qed.

Lemma block_opens w st path device partition df :
  opens w (self st) path device partition df →
  audit_block w path device partition st
  = (match data_file df with
     | None => mret Returned
     | Some file =>
         obj_size ← lift (getsize w file);
         content_length ←
           lift (v ← getitem (metadata df) "Content-Length"; py_int w v);
         if bool_decide (obj_size ≠ content_length) then
           raise (AuditException
                    (ContentLengthDiffers content_length obj_size))
         else if bool_decide (zero_byte_only_at_fps (self st) ≠ 0)
                 && bool_decide (obj_size ≠ 0) then mret Returned
         else
           fed ← read_chunks w (chunks df) "";
           let etag := md5_hexdigest w fed in
           stored ← lift (getitem (metadata df) "ETag");
           if bool_decide (etag ≠ stored) then
             raise (AuditException (ETagDiffers stored etag))
           else mret Completes
     end) st.
Proof.
  intros [md name junk account container obj Hdata Hread Hname Hsplit Hdf].
  unfold audit_block. rewrite Hdata. run_monad.
  rewrite Hread. run_monad. unfold getitem at 1. rewrite Hname, Hsplit, Hdf.
  reflexivity.
Qed.

Lemma block_skips w st path device partition :
  skips w (self st) path device partition →
  audit_block w path device partition st = (st, Return Returned).
Proof.
  intros [Hdata|df Hopen Hfile|df file size v Hopen Hfile Hsize Hv Hint Hz Hne].
  - unfold audit_block. by rewrite Hdata.
  - rewrite (block_opens _ _ _ _ _ _ Hopen), Hfile. reflexivity.
  - rewrite (block_opens _ _ _ _ _ _ Hopen), Hfile. run_monad.
    rewrite Hsize. unfold getitem. rewrite Hv. run_monad. rewrite Hint.
    rewrite bool_decide_eq_false_2 by (intros ?; congruence).
    by rewrite !bool_decide_eq_true_2.
Qed.

Lemma block_stops w st path device partition exc :
  stops w (self st) path device partition exc →
  audit_block w path device partition st = (st, Raise exc).
Proof.
  intros [md name Hdata Hread Hname Hsplit
         |md name junk account container obj exc' Hdata Hread Hname Hsplit Hdf
         |df file exc' Hopen Hfile Hsize
         |df file size Hopen Hfile Hsize Hv
         |df file size v exc' Hopen Hfile Hsize Hv Hint].
  - unfold audit_block. rewrite Hdata. run_monad.
    rewrite Hread. run_monad. unfold getitem at 1. rewrite Hname.
    destruct (Str.split "/" 3 name) as [|? [|? [|? [|? [|]]]]]; try done.
  - unfold audit_block. rewrite Hdata. run_monad.
    rewrite Hread. run_monad. unfold getitem at 1. by rewrite Hname, Hsplit, Hdf.
  - rewrite (block_opens _ _ _ _ _ _ Hopen), Hfile. run_monad. by rewrite Hsize.
  - rewrite (block_opens _ _ _ _ _ _ Hopen), Hfile. run_monad.
    rewrite Hsize. unfold getitem. by rewrite Hv.
  - rewrite (block_opens _ _ _ _ _ _ Hopen), Hfile. run_monad.
    rewrite Hsize. unfold getitem. rewrite Hv. run_monad. by rewrite Hint.
Qed.

Lemma block_reads w st path device partition df :
  reads w (self st) path device partition df →
  audit_block w path device partition st
  = (after_reading w (chunks df) st, verdict w df).
Proof.
  intros [file size v Hopen Hfile Hsize Hv Hint Hz].
  rewrite (block_opens _ _ _ _ _ _ Hopen), Hfile. run_monad.
  rewrite Hsize. unfold getitem at 1. rewrite Hv. run_monad. rewrite Hint.
  rewrite bool_decide_eq_false_2 by (intros ?; congruence).
  assert (bool_decide (zero_byte_only_at_fps (self st) ≠ 0)
          && bool_decide (size ≠ 0) = false) as ->.
  { destruct Hz as [Hz|Hz].
    - rewrite (bool_decide_eq_false_2 _ (fun H => H Hz)). done.
    - rewrite (bool_decide_eq_false_2 (size ≠ 0) (fun H => H Hz)).
      apply andb_false_r. }
  rewrite read_chunks_spec. rewrite StrFacts.app_nil_l.
  unfold verdict, getitem. destruct (metadata df !! "ETag") as [stored|]; [|done].
  case_bool_decide; case_bool_decide; done.
Qed.

(** Every audit takes one of the ways. *)
Lemma every_way w a path device partition : way w a path device partition.
Proof.
  destruct (Str.endswith ".data" path) eqn:Hdata;
    [|by apply way_skips, not_a_data_file].
  destruct (read_metadata w path) as [md|exc] eqn:Hread;
    [|by eapply way_unreadable, read_raises].
  destruct (md !! "name") as [name|] eqn:Hname;
    [|by eapply way_unreadable, name_missing].
  destruct (decide (length (Str.split "/" 3 name) = 4%nat)) as [Hlen|Hlen];
    [|by eapply way_stops, malformed_name].
  destruct (Str.split "/" 3 name)
    as [|junk [|account [|container [|obj [|]]]]] eqn:Hsplit; try done.
  destruct (DiskFile w (devices a) device partition account container obj)
    as [df|exc] eqn:Hdf; [|by eapply way_stops, disk_file_raises].
  assert (opens w a path device partition df) as Hopen by by econstructor.
  destruct (data_file df) as [file|] eqn:Hfile;
    [|by eapply way_skips, deleted].
  destruct (getsize w file) as [size|exc] eqn:Hsize;
    [|by eapply way_stops, getsize_raises].
  destruct (metadata df !! "Content-Length") as [v|] eqn:Hv;
    [|by eapply way_stops, content_length_missing].
  destruct (py_int w v) as [recorded|exc] eqn:Hint;
    [|by eapply way_stops, content_length_no_integer].
  destruct (decide (size = recorded)) as [->|Hne];
    [|eapply way_size_differs; [by econstructor|done]].
  destruct (decide (zero_byte_only_at_fps a = 0)) as [Hz|Hz];
    [eapply way_reads; econstructor; eauto|].
  destruct (decide (recorded = 0)) as [H0|H0];
    [eapply way_reads; econstructor; eauto|].
  by eapply way_skips, not_empty.
Qed.

End AuditPaths.

(** ** The auditor: what an audit does to the worker *)

Module AuditWays.
Import Auditor AuditorPaths AuditPaths.

(** An object that the audit reads (the size of its data file is the
    recorded content length, and the worker audits every object or the
    data file is empty) and whose content has the stored ETag as digest
    passes: one more pass, no quarantine and no error, every chunk read
    once and in order, the two byte counters up by the bytes read, and
    nothing logged or moved. *)
Theorem matching_etag_passes (w : World) (st : run)
    (path device partition : string) (df : disk_file) :
  reads w (self st) path device partition df →
  metadata df !! "ETag" = Some (md5_hexdigest w (joined (chunks df))) →
  let r := object_audit w path device partition st in
  r.2 = Return ()
  ∧ passes (self r.1) = passes (self st) + 1
  ∧ quarantines (self r.1) = quarantines (self st)
  ∧ errors (self r.1) = errors (self st)
  ∧ bytes_processed (self r.1)
    = bytes_processed (self st) + byte_count (chunks df)
  ∧ total_bytes_processed (self r.1)
    = total_bytes_processed (self st) + byte_count (chunks df)
  ∧ trace r.1
    = trace st ++ ((fun chunk => ReadChunk (Str.len chunk)) <$> chunks df).
Proof.
  intros Hreads Hetag. unfold object_audit.
  rewrite (block_reads _ _ _ _ _ _ Hreads). unfold verdict. rewrite Hetag.
  rewrite bool_decide_eq_true_2 by done. cbv zeta.
  destruct (pace_counters w (chunks df) (self st)) as (_ & Hb & Ht & Hp & Hq & He).
  cbn. repeat split; lia.
Qed.

Lemma matching_etag_passes_witness :
  let r := object_audit (store 3 abc_digest (Return ()) []) kept "sdb" "3"
             (start default_worker) in
  r.2 = Return ()
  ∧ passes (self r.1) = 1
  ∧ quarantines (self r.1) = 0
  ∧ errors (self r.1) = 0
  ∧ bytes_processed (self r.1) = 3
  ∧ total_bytes_processed (self r.1) = 3
  ∧ trace r.1 = [ReadChunk 2; ReadChunk 1].
Proof.
  apply (matching_etag_passes (store 3 abc_digest (Return ()) [])
           (start default_worker) kept "sdb" "3" kept_file).
  - eapply (reading _ _ _ _ _ _ kept 3 "3"); try done; [|by left].
    by eapply (opened _ _ _ _ _ _ {[ "name" := "/a/c/o" ]} "/a/c/o"
                 "" "a" "c" "o").
  - reflexivity.
Defined.

(** An object that the audit reads (the size of its data file is the
    recorded content length, and the worker audits every object or the
    data file is empty) and whose content does not have the stored ETag
    as digest is quarantined after all of it has been read: one more
    quarantine, no pass and no error, the byte counters up by the bytes
    read; after the reads the failure is logged, the hash of the
    object's directory is invalidated and, unless that raises, the
    directory is renamed into the quarantine area of its device. The
    call ends as the renaming ends, or with the exception that
    invalidating the hash raised. *)
Theorem differing_etag_quarantines (w : World) (st : run)
    (path device partition : string) (df : disk_file) (stored : string) :
  reads w (self st) path device partition df →
  metadata df !! "ETag" = Some stored →
  md5_hexdigest w (joined (chunks df)) ≠ stored →
  let r := object_audit w path device partition st in
  let dir := Posixpath.dirname path in
  let target :=
    Posixpath.join (devices (self st))
      [device; "quarantined"; "objects"; Posixpath.basename dir] in
  quarantines (self r.1) = quarantines (self st) + 1
  ∧ passes (self r.1) = passes (self st)
  ∧ errors (self r.1) = errors (self st)
  ∧ bytes_processed (self r.1)
    = bytes_processed (self st) + byte_count (chunks df)
  ∧ total_bytes_processed (self r.1)
    = total_bytes_processed (self st) + byte_count (chunks df)
  ∧ trace r.1
    = trace st ++ ((fun chunk => ReadChunk (Str.len chunk)) <$> chunks df)
      ++ [Log (FailedAudit path
                 (ETagDiffers stored (md5_hexdigest w (joined (chunks df)))));
          InvalidateHash dir]
      ++ match invalidate_hash w dir with
         | Return _ => [Renamer dir target]
         | Raise _ => []
         end
  ∧ r.2 = match invalidate_hash w dir with
          | Return _ => renamer w dir target
          | Raise exc => Raise exc
          end.
Proof.
  intros Hreads Hetag Hne. cbv zeta. unfold object_audit.
  rewrite (block_reads _ _ _ _ _ _ Hreads). unfold verdict. rewrite Hetag.
  rewrite bool_decide_eq_false_2 by done.
  destruct (Audit.quarantine_spec w path device
              (ETagDiffers stored (md5_hexdigest w (joined (chunks df))))
              (after_reading w (chunks df) st)) as (Hself & _ & Htrace).
  cbv zeta in Hself, Htrace.
  rewrite Hself, Htrace, Audit.quarantine_outcome.
  destruct (pace_counters w (chunks df) (self st))
    as ((Hdev & _) & Hb & Ht & Hp & Hq & He).
  cbn [after_reading self trace].
  unfold quarantine_events, quarantine_target. rewrite Hdev.
  rewrite <- !app_assoc. cbn. repeat split; lia.
Qed.

Lemma differing_etag_quarantines_witness :
  let r := object_audit (store 3 "d41d8cd98f00b204e9800998ecf8427e"
                           (Raise OSError) [])
             kept "sdb" "3" (start default_worker) in
  quarantines (self r.1) = 1
  ∧ passes (self r.1) = 0
  ∧ errors (self r.1) = 0
  ∧ bytes_processed (self r.1) = 3
  ∧ total_bytes_processed (self r.1) = 3
  ∧ trace r.1
    = [ReadChunk 2; ReadChunk 1;
       Log (FailedAudit kept
              (ETagDiffers abc_digest "d41d8cd98f00b204e9800998ecf8427e"));
       InvalidateHash "/srv/node/sdb/objects/3/abc/0c";
       Renamer "/srv/node/sdb/objects/3/abc/0c"
         "/srv/node/sdb/quarantined/objects/0c"]
  ∧ r.2 = Raise OSError.
Proof.
  apply (differing_etag_quarantines
           (store 3 "d41d8cd98f00b204e9800998ecf8427e" (Raise OSError) [])
           (start default_worker) kept "sdb" "3" kept_file abc_digest).
  - eapply (reading _ _ _ _ _ _ kept 3 "3"); try done; [|by left].
    by eapply (opened _ _ _ _ _ _ {[ "name" := "/a/c/o" ]} "/a/c/o"
                 "" "a" "c" "o").
  - reflexivity.
  - done.
Defined.

(** What is no data file, an object that is deleted, and in a zero-byte
    pass an object whose data file is not empty and has the recorded
    content length as size, are skipped: the worker, the clock and the
    trace are what they were. *)
Theorem skipped_objects_leave_no_mark (w : World) (st : run)
    (path device partition : string) :
  skips w (self st) path device partition →
  object_audit w path device partition st = (st, Return ()).
Proof.
  intros Hskips. unfold object_audit.
  by rewrite (block_skips _ _ _ _ _ Hskips).
Qed.

Lemma skipped_objects_leave_no_mark_witness :
  object_audit (store 3 abc_digest (Return ()) []) kept "sdb" "3"
    (start zero_byte_worker)
  = (start zero_byte_worker, Return ()).
Proof.
  apply (skipped_objects_leave_no_mark (store 3 abc_digest (Return ()) [])
           (start zero_byte_worker) kept "sdb" "3").
  eapply (not_empty _ _ _ _ _ kept_file kept 3 "3"); try done.
  by eapply (opened _ _ _ _ _ _ {[ "name" := "/a/c/o" ]} "/a/c/o"
               "" "a" "c" "o").
Defined.

(** When the audit stops before the chunk loop with an exception that
    is no [AuditException] (a name that has not four parts, a disk file
    that cannot be opened or measured, a content length that is missing
    or no integer), [object_audit] counts one error, logs the exception
    and returns: nothing is quarantined and nothing is read. *)
Theorem stopped_audit_counts_an_error (w : World) (st : run)
    (path device partition : string) (exc : exn) :
  stops w (self st) path device partition exc →
  is_audit_exception exc = false →
  object_audit w path device partition st
  = ({| self := incr_errors (self st);
        clock := clock st;
        trace := trace st ++ [Log (ErrorAuditing path exc)] |},
     Return ()).
Proof.
  intros Hstops Hexc. unfold object_audit.
  rewrite (block_stops _ _ _ _ _ _ Hstops).
  by destruct exc.
Qed.

Lemma stopped_audit_counts_an_error_witness :
  object_audit (store 3 abc_digest (Return ()) []) misnamed "sdb" "4"
    (start default_worker)
  = ({| self := incr_errors default_worker;
        clock := 0%nat;
        trace := [Log (ErrorAuditing misnamed ValueError)] |},
     Return ()).
Proof.
  apply (stopped_audit_counts_an_error (store 3 abc_digest (Return ()) [])
           (start default_worker) misnamed "sdb" "4" ValueError).
  - by eapply (malformed_name _ _ _ _ _ {[ "name" := "AUTH_test" ]} "AUTH_test").
  - reflexivity.
Defined.

(** Where the [try] block leaves the run: where it was, or after the
    chunk loop over some chunks. *)
Lemma block_state w st path device partition :
  ∃ cs, (audit_block w path device partition st).1 = after_reading w cs st.
Proof.
  assert (after_reading w [] st = st) as Hnil.
  { unfold after_reading. cbn. rewrite app_nil_r. by destruct st. }
  destruct (every_way w (self st) path device partition)
    as [H|exc Hdata H|exc H|actual recorded H Hne|df H].
  - exists []. by rewrite (block_skips _ _ _ _ _ H).
  - exists []. by rewrite (Audit.audit_block_read_failure _ _ _ _ _ _ Hdata H).
  - exists []. by rewrite (block_stops _ _ _ _ _ _ H).
  - exists []. by rewrite (Audit.audit_block_size_mismatch _ _ _ _ _ _ _ H Hne).
  - exists (chunks df). by rewrite (block_reads _ _ _ _ _ _ H).
Qed.

(** What the handlers of [object_audit] do to the run the [try] block
    leaves. *)
Lemma handlers_spec w path device partition st :
  let blk := audit_block w path device partition st in
  let st' := (object_audit w path device partition st).1 in
  same_settings (self st') (self blk.1)
  ∧ clock st' = clock blk.1
  ∧ bytes_processed (self st') = bytes_processed (self blk.1)
  ∧ total_bytes_processed (self st') = total_bytes_processed (self blk.1)
  ∧ (∃ events, trace st' = trace blk.1 ++ events
               ∧ existsb is_read events = false)
  ∧ ((passes (self st'), quarantines (self st'), errors (self st'))
     ∈ [(passes (self blk.1), quarantines (self blk.1), errors (self blk.1));
        (passes (self blk.1) + 1, quarantines (self blk.1), errors (self blk.1));
        (passes (self blk.1), quarantines (self blk.1) + 1, errors (self blk.1));
        (passes (self blk.1), quarantines (self blk.1), errors (self blk.1) + 1)]).
Proof.
  cbv zeta. unfold object_audit.
  destruct (audit_block w path device partition st) as [st1 [[]|exc]].
  - unfold same_settings. cbn. repeat split; try done.
    + exists []. by rewrite app_nil_r.
    + set_solver.
  - unfold same_settings. cbn. repeat split; try done.
    + exists []. by rewrite app_nil_r.
    + set_solver.
  - destruct (is_audit_exception exc) eqn:Hexc.
    + destruct exc as [| | | | | |err| | | |]; try done.
      destruct (Audit.quarantine_spec w path device err st1)
        as (Hself & Hclock & Htrace).
      cbv zeta in Hself, Hclock, Htrace. cbn [fst].
      rewrite Hself, Hclock, Htrace. unfold same_settings. cbn.
      repeat split; try done.
      * eexists. split; [done|]. unfold quarantine_events.
        by destruct (invalidate_hash _ _).
      * set_solver.
    + assert ((match exc with
               | AuditException err => quarantine w path device err st1
               | _ => (_ ← modify incr_errors;
                       emit (Log (ErrorAuditing path exc))) st1
               end)
              = ({| self := incr_errors (self st1); clock := clock st1;
                    trace := trace st1 ++ [Log (ErrorAuditing path exc)] |},
                 Return ())) as ->.
      { by destruct exc. }
      unfold same_settings. cbn. repeat split; try done.
      * eexists. split; [done|]. done.
      * set_solver.
Qed.

Lemma same_settings_trans a b c :
  same_settings a b → same_settings b c → same_settings a c.
Proof.
  unfold same_settings. intros (?&?&?&?&?&?&?&?) (?&?&?&?&?&?&?&?).
  repeat split; congruence.
Qed.

(** An audit changes the worker in one way at most: whatever the
    object and whatever the collaborators do, [object_audit] adds one to
    exactly one of the pass, quarantine and error counters or to none of
    them, adds the same amount, which is not negative, to the two byte
    counters, leaves the settings, the file counters and the clock alone,
    and only adds to the trace. *)
Theorem object_audit_counts_once (w : World) (st : run)
    (path device partition : string) :
  let st' := (object_audit w path device partition st).1 in
  same_settings (self st') (self st)
  ∧ clock st' = clock st
  ∧ (∃ events, trace st' = trace st ++ events)
  ∧ (∃ n, 0 ≤ n
          ∧ bytes_processed (self st') = bytes_processed (self st) + n
          ∧ total_bytes_processed (self st')
            = total_bytes_processed (self st) + n)
  ∧ ((passes (self st'), quarantines (self st'), errors (self st'))
     ∈ [(passes (self st), quarantines (self st), errors (self st));
        (passes (self st) + 1, quarantines (self st), errors (self st));
        (passes (self st), quarantines (self st) + 1, errors (self st));
        (passes (self st), quarantines (self st), errors (self st) + 1)]).
Proof.
  destruct (handlers_spec w path device partition st)
    as (Hs & Hc & Hb & Ht & (events & Htr & _) & Hcount).
  destruct (block_state w st path device partition) as (cs & Hblk).
  rewrite Hblk in *.
  destruct (pace_counters w cs (self st)) as (Hs' & Hb' & Ht' & Hp & Hq & He).
  cbn [after_reading self clock trace] in *. cbv zeta.
  split; [by eapply same_settings_trans|]. split; [done|]. split.
  { eexists. rewrite Htr, <- app_assoc. done. }
  split.
  { exists (byte_count cs). pose proof (byte_count_nonneg cs).
    rewrite Hb, Ht. done. }
  by rewrite Hp, Hq, He in Hcount.
Qed.

(** Only the move into quarantine lets an exception out of
    [object_audit]: when [object_audit] raises, the object has been
    counted as quarantined, and the exception is the one that
    invalidating the hash of its directory, or renaming the directory
    into the quarantine area, raised. *)
Theorem only_the_quarantine_move_raises (w : World) (st : run)
    (path device partition : string) (e : exn) :
  (object_audit w path device partition st).2 = Raise e →
  quarantines (self (object_audit w path device partition st).1)
  = quarantines (self st) + 1
  ∧ (invalidate_hash w (Posixpath.dirname path) = Raise e
     ∨ renamer w (Posixpath.dirname path)
         (quarantine_target (self st) path device) = Raise e).
Proof.
  destruct (block_state w st path device partition) as (cs & Hblk).
  destruct (pace_counters w cs (self st)) as ((Hdev & _) & _ & _ & _ & Hq & _).
  unfold object_audit.
  destruct (audit_block w path device partition st) as [st1 [[]|exc]];
    [done|done|].
  cbn [fst] in Hblk. subst st1.
  destruct (is_audit_exception exc) eqn:Hexc.
  - destruct exc as [| | | | | |err| | | |]; try done.
    unfold quarantine, quarantine_target. run_monad. rewrite Hdev.
    destruct (invalidate_hash w (Posixpath.dirname path)) as [[]|e1]; cbn.
    + destruct (renamer w _ _) as [[]|e2] eqn:Hmove; cbn; [done|].
      intros [= <-]. split; [lia|]. by right.
    + intros [= <-]. split; [lia|]. by left.
  - by destruct exc.
Qed.

Lemma only_the_quarantine_move_raises_witness :
  quarantines
    (self (object_audit (store 4 abc_digest (Raise OSError) []) kept "sdb" "3"
             (start default_worker)).1)
  = 1
  ∧ (invalidate_hash (store 4 abc_digest (Raise OSError) [])
       (Posixpath.dirname kept) = Raise OSError
     ∨ renamer (store 4 abc_digest (Raise OSError) []) (Posixpath.dirname kept)
         (quarantine_target default_worker kept "sdb") = Raise OSError).
Proof.
  apply (only_the_quarantine_move_raises
           (store 4 abc_digest (Raise OSError) []) (start default_worker)
           kept "sdb" "3" OSError).
  reflexivity.
Defined.

Lemma raising_block_never_passes w st path device partition exc :
  (audit_block w path device partition st).2 = Raise exc →
  passes (self (object_audit w path device partition st).1)
  = passes (self (audit_block w path device partition st).1).
Proof.
  unfold object_audit.
  destruct (audit_block w path device partition st) as [st1 [c|exc']];
    [done|]. intros _.
  destruct (is_audit_exception exc') eqn:Hexc.
  - destruct exc' as [| | | | | |err| | | |]; try done.
    destruct (Audit.quarantine_spec w path device err st1) as (Hself & _).
    cbv zeta in Hself. cbn [fst snd]. by rewrite Hself.
  - by destruct exc'.
Qed.

(** In a zero-byte pass an object whose data file is not empty is never
    read and never passes: when the worker audits empty objects only,
    and the data file the audit finds for the object, if any, has not
    size 0, [object_audit] reads no chunk, leaves the byte counters and
    the pass counter alone. *)
Theorem zero_byte_audit_reads_no_content (w : World) (st : run)
    (path device partition : string) :
  zero_byte_only_at_fps (self st) ≠ 0 →
  (∀ df file,
      opens w (self st) path device partition df →
      data_file df = Some file →
      getsize w file ≠ Return 0) →
  let st' := (object_audit w path device partition st).1 in
  passes (self st') = passes (self st)
  ∧ bytes_processed (self st') = bytes_processed (self st)
  ∧ total_bytes_processed (self st') = total_bytes_processed (self st)
  ∧ ∃ events, trace st' = trace st ++ events ∧ existsb is_read events = false.
Proof.
  intros Hzero Hsize.
  destruct (handlers_spec w path device partition st)
    as (_ & _ & Hb & Ht & Htr & _).
  assert (∀ exc, audit_block w path device partition st = (st, Raise exc) →
            let st' := (object_audit w path device partition st).1 in
            passes (self st') = passes (self st)
            ∧ bytes_processed (self st') = bytes_processed (self st)
            ∧ total_bytes_processed (self st') = total_bytes_processed (self st)
            ∧ ∃ events, trace st' = trace st ++ events
                        ∧ existsb is_read events = false) as Hraise.
  { intros exc Hblk. pose proof (raising_block_never_passes w st path device
                                  partition exc) as Hp.
    rewrite Hblk in *. cbn [fst snd] in *. by rewrite Hp. }
  destruct (every_way w (self st) path device partition)
    as [H|exc Hdata H|exc H|actual recorded H Hne|df H].
  - cbv zeta. unfold object_audit. rewrite (block_skips _ _ _ _ _ H). cbn.
    repeat split. exists []. by rewrite app_nil_r.
  - eapply Hraise, Audit.audit_block_read_failure; done.
  - eapply Hraise, block_stops; done.
  - eapply Hraise, Audit.audit_block_size_mismatch; done.
  - destruct H as [file size v Hopen Hfile Hgetsize _ _ [Hz|Hz]]; [done|].
    subst size. by destruct (Hsize _ _ Hopen Hfile).
Qed.

Lemma zero_byte_audit_reads_no_content_witness :
  let st' := (object_audit (store 3 abc_digest (Return ()) []) kept "sdb" "3"
                (start zero_byte_worker)).1 in
  passes (self st') = 0
  ∧ bytes_processed (self st') = 0
  ∧ total_bytes_processed (self st') = 0
  ∧ ∃ events, trace st' = [] ++ events ∧ existsb is_read events = false.
Proof.
  apply (zero_byte_audit_reads_no_content (store 3 abc_digest (Return ()) [])
           (start zero_byte_worker) kept "sdb" "3").
  - done.
  - intros df file [md name junk account container obj _ _ _ _ Hdf] Hfile.
    cbn in Hdf. repeat case_match; try done.
    injection Hdf as <-. injection Hfile as <-. done.
Defined.

End AuditWays.

(** ** The auditor: a whole pass *)

Module AuditPass.
Import Auditor AuditorPaths AuditPaths.

(** What an audit leaves alone. *)
Lemma object_audit_frame w st path device partition :
  let st' := (object_audit w path device partition st).1 in
  same_settings (self st') (self st) ∧ clock st' = clock st.
Proof.
  destruct (AuditWays.handlers_spec w path device partition st)
    as (Hs & Hc & _).
  destruct (AuditWays.block_state w st path device partition) as (cs & Hblk).
  rewrite Hblk in *.
  destruct (pace_counters w cs (self st)) as (Hs' & _).
  cbn [after_reading self clock] in *. cbv zeta.
  split; [by eapply AuditWays.same_settings_trans|done].
Qed.

(** An audit returns when the move into quarantine cannot fail. *)
Lemma object_audit_returns w st path device partition :
  (∀ dir, invalidate_hash w dir = Return ()) →
  (∀ src dst, renamer w src dst = Return ()) →
  (object_audit w path device partition st).2 = Return ().
Proof.
  intros Hinv Hmove. unfold object_audit.
  destruct (audit_block w path device partition st) as [st1 [[]|exc]];
    [done|done|].
  destruct (is_audit_exception exc) eqn:Hexc.
  - destruct exc as [| | | | | |err| | | |]; try done.
    unfold quarantine. run_monad. rewrite Hinv. cbn. by rewrite Hmove.
  - by destruct exc.
Qed.

Lemma Qeq_bool_positive (x : Q) : (0 < x)%Q → Qeq_bool x 0 = false.
Proof.
  intros Hx. destruct (Qeq_bool x 0) eqn:H; [|done].
  apply Qeq_bool_iff in H. lra.
Qed.

Lemma inject_Z_positive (z : Z) : 0 < z → (0 < inject_Z z)%Q.
Proof. intros Hz. unfold Qlt. simpl. lia. Qed.

(** Workers that audit alike open the same disk files. *)
Lemma opens_alike w a b path device partition df :
  alike a b → opens w a path device partition df →
  opens w b path device partition df.
Proof.
  intros [Hdev _] [md name junk account container obj ? ? ? ? Hdf].
  rewrite Hdev in Hdf. by econstructor.
Qed.

Lemma after_reading_nil w st : after_reading w [] st = st.
Proof. unfold after_reading. cbn. rewrite app_nil_r. by destruct st. Qed.

(** The [try] block does the same for workers that audit alike. *)
Lemma audit_block_alike w path device partition st1 st2 :
  alike (self st1) (self st2) →
  ∃ cs o,
    audit_block w path device partition st1 = (after_reading w cs st1, o)
    ∧ audit_block w path device partition st2 = (after_reading w cs st2, o).
Proof.
  intros Halike. pose proof Halike as [Hdev Hzero].
  destruct (every_way w (self st1) path device partition)
    as [H|exc Hdata H|exc H|actual recorded H Hne|df H].
  - exists [], (Return Returned). rewrite !after_reading_nil.
    split; [by apply block_skips|]. apply block_skips.
    destruct H as [Hdata|df Hopen Hfile
                  |df file size v Hopen Hfile Hsize Hv Hint Hz Hne].
    + by apply not_a_data_file.
    + eapply deleted; [by eapply opens_alike|done].
    + eapply not_empty; eauto using opens_alike. by rewrite <- Hzero.
  - exists [], (Raise (AuditException (ReadingMetadata exc))).
    rewrite !after_reading_nil.
    split; by apply Audit.audit_block_read_failure.
  - exists [], (Raise exc). rewrite !after_reading_nil.
    split; [by apply block_stops|]. apply block_stops.
    destruct H as [md name Hdata Hread Hname Hsplit
         |md name junk account container obj exc' Hdata Hread Hname Hsplit Hdf
         |df file exc' Hopen Hfile Hsize
         |df file size Hopen Hfile Hsize Hv
         |df file size v exc' Hopen Hfile Hsize Hv Hint].
    + by eapply malformed_name.
    + rewrite Hdev in Hdf. by eapply disk_file_raises.
    + eapply getsize_raises; eauto using opens_alike.
    + eapply content_length_missing; eauto using opens_alike.
    + eapply content_length_no_integer; eauto using opens_alike.
  - exists [], (Raise (AuditException (ContentLengthDiffers recorded actual))).
    rewrite !after_reading_nil.
    split; [by apply Audit.audit_block_size_mismatch|].
    apply Audit.audit_block_size_mismatch; [|done].
    destruct H as [md name junk account container obj df file v
                     ? ? ? ? Hdf ? ? ? ?].
    rewrite Hdev in Hdf. by econstructor.
  - exists (chunks df), (verdict w df).
    split; [by apply block_reads|]. apply block_reads.
    destruct H as [file size v Hopen Hfile Hsize Hv Hint Hz].
    econstructor; eauto using opens_alike. by rewrite <- Hzero.
Qed.

Lemma audits_app l1 l2 : audits (l1 ++ l2) = audits l1 ++ audits l2.
Proof. apply List.filter_app. Qed.

Lemma audits_reads (cs : list string) :
  audits ((fun chunk => ReadChunk (Str.len chunk)) <$> cs)
  = (fun chunk => ReadChunk (Str.len chunk)) <$> cs.
Proof. induction cs as [|c cs IH]; [done|]. cbn. by f_equal. Qed.

Lemma audits_quarantine_events w a path device err :
  audits (quarantine_events w a path device err)
  = quarantine_events w a path device err.
Proof. unfold quarantine_events. by destruct (invalidate_hash _ _). Qed.

(** What an audit adds to the trace is the same for workers that
    audit alike, and none of it is a report of the pass. *)
Lemma object_audit_alike w path device partition st1 st2 :
  alike (self st1) (self st2) →
  ∃ events,
    trace (object_audit w path device partition st1).1 = trace st1 ++ events
    ∧ trace (object_audit w path device partition st2).1 = trace st2 ++ events
    ∧ audits events = events.
Proof.
  intros Halike.
  destruct (audit_block_alike w path device partition st1 st2 Halike)
    as (cs & o & H1 & H2).
  unfold object_audit. rewrite H1, H2.
  pose proof (audits_reads cs) as Hreads.
  set (reads := (fun chunk => ReadChunk (Str.len chunk)) <$> cs) in *.
  destruct o as [[]|exc].
  - by exists reads.
  - by exists reads.
  - destruct (is_audit_exception exc) eqn:Hexc.
    + destruct exc as [| | | | | |err| | | |]; try done.
      destruct (Audit.quarantine_spec w path device err
                  (after_reading w cs st1)) as (_ & _ & Ht1).
      destruct (Audit.quarantine_spec w path device err
                  (after_reading w cs st2)) as (_ & _ & Ht2).
      cbv zeta in Ht1, Ht2. rewrite Ht1, Ht2.
      destruct (pace_counters w cs (self st1)) as ((Hd1 & _) & _).
      destruct (pace_counters w cs (self st2)) as ((Hd2 & _) & _).
      destruct Halike as [Hdev _].
      exists (reads ++ quarantine_events w (self st1) path device err).
      cbn [after_reading self trace]. rewrite <- !app_assoc.
      split; [|split].
      * do 2 f_equal. unfold quarantine_events, quarantine_target.
        by rewrite Hd1.
      * do 2 f_equal. unfold quarantine_events, quarantine_target.
        by rewrite Hd2, Hdev.
      * by rewrite audits_app, Hreads, audits_quarantine_events.
    + exists (reads ++ [Log (ErrorAuditing path exc)]).
      assert (∀ st,
        (match exc with
         | AuditException err => quarantine w path device err st
         | _ => (_ ← modify incr_errors;
                 emit (Log (ErrorAuditing path exc))) st
         end)
        = ({| self := incr_errors (self st); clock := clock st;
              trace := trace st ++ [Log (ErrorAuditing path exc)] |},
           Return ())) as Herr by by destruct exc.
      rewrite !Herr. cbn. rewrite <- !app_assoc.
      split; [done|]. split; [done|]. by rewrite audits_app, Hreads.
Qed.

Lemma object_audit_events w path device partition st a :
  alike (self st) a →
  audits (trace (object_audit w path device partition st).1)
  = audits (trace st) ++ audit_events w a (path, device, partition).
Proof.
  intros Halike.
  destruct (object_audit_alike w path device partition st (start a) Halike)
    as (events & H1 & H2 & Hev).
  unfold audit_events. rewrite H1, H2. cbn.
  by rewrite audits_app, Hev.
Qed.
Lemma audit_location_spec w reported loc st :
  (∀ dir, invalidate_hash w dir = Return ()) →
  (∀ src dst, renamer w src dst = Return ()) →
  (∀ n m, (n ≤ m)%nat → (time_time w n <= time_time w m)%Q) →
  0 < log_time (self st) →
  earlier_reading w reported st →
  ∃ reported' st',
    audit_location w reported loc st = (st', Return reported')
    ∧ earlier_reading w reported' st'
    ∧ alike (self st') (self st)
    ∧ log_time (self st') = log_time (self st)
    ∧ total_files_processed (self st') = total_files_processed (self st) + 1
    ∧ (clock st ≤ clock st')%nat
    ∧ ∀ a, alike (self st) a →
        audits (trace st') = audits (trace st) ++ audit_events w a loc.
Proof.
  intros Hinv Hmove Hclock Hlog (k & Hk & ->).
  destruct loc as [[path device] partition]. unfold audit_location.
  pose proof (object_audit_returns w st path device partition Hinv Hmove) as Hret.
  pose proof (object_audit_events w path device partition st) as Hev.
  destruct (object_audit_frame w st path device partition)
    as ((Hdev & _ & _ & _ & Hzero & Hlt & _ & Htf) & Hc).
  unfold mbind at 1. unfold M_bind at 1.
  destruct (object_audit w path device partition st) as [st1 o].
  cbn [fst snd] in *. subst o.
  unfold now, divide. run_monad.
  destruct (Qle_bool (inject_Z (log_time (self st1)))
              (time_time w (clock st1) - time_time w k)) eqn:Hdue.
  - apply Qle_bool_iff in Hdue.
    pose proof (inject_Z_positive _ Hlog) as Hpos. rewrite <- Hlt in Hpos.
    pose proof (Hclock (clock st1) (S (clock st1)) ltac:(lia)) as H1.
    pose proof (Hclock (clock st1) (S (S (clock st1))) ltac:(lia)) as H2.
    cbn [clock].
    rewrite (Qeq_bool_positive (time_time w (S (clock st1)) - time_time w k))
      by lra.
    run_monad.
    rewrite (Qeq_bool_positive (time_time w (S (S (clock st1))) - time_time w k))
      by lra.
    run_monad. eexists _, _. split; [done|]. cbn -[audits audit_events].
    split; [exists (S (S (S (clock st1)))); cbn; split; [lia|done]|].
    split; [done|]. split; [done|]. split; [lia|]. split; [lia|].
    intros a Ha. rewrite audits_app, (Hev a Ha). cbn. by rewrite app_nil_r.
  - eexists _, _. split; [done|]. cbn -[audits audit_events].
    split; [exists k; cbn; split; [lia|done]|].
    split; [done|]. split; [done|]. split; [lia|]. split; [lia|].
    intros a Ha. by rewrite (Hev a Ha).
Qed.

Lemma audit_locations_spec w locs : ∀ reported st,
  (∀ dir, invalidate_hash w dir = Return ()) →
  (∀ src dst, renamer w src dst = Return ()) →
  (∀ n m, (n ≤ m)%nat → (time_time w n <= time_time w m)%Q) →
  0 < log_time (self st) →
  earlier_reading w reported st →
  ∃ reported' st',
    audit_locations w reported locs st = (st', Return reported')
    ∧ (clock st ≤ clock st')%nat
    ∧ total_files_processed (self st')
      = total_files_processed (self st) + Z.of_nat (length locs)
    ∧ ∀ a, alike (self st) a →
        audits (trace st')
        = audits (trace st) ++ concat (audit_events w a <$> locs).
Proof.
  induction locs as [|loc locs IH]; intros reported st Hinv Hmove Hclock Hlog Hearly.
  - exists reported, st. cbn. split; [done|]. split; [lia|]. split; [lia|].
    intros a _. by rewrite app_nil_r.
  - destruct (audit_location_spec w reported loc st Hinv Hmove Hclock Hlog Hearly)
      as (reported1 & st1 & Hloc & Hearly1 & [Hdev Hzero] & Hlt & Htf & Hc1 & Hev1).
    destruct (IH reported1 st1 Hinv Hmove Hclock ltac:(by rewrite Hlt) Hearly1)
      as (reported2 & st2 & Hlocs & Hc & Htf2 & Hev2).
    exists reported2, st2. cbn [audit_locations]. unfold mbind, M_bind.
    rewrite Hloc, Hlocs. split; [done|].
    split; [lia|]. split; [rewrite Htf2, Htf; cbn [length]; lia|].
    intros a [Hda Hza].
    rewrite (Hev2 a), (Hev1 a), <- app_assoc; [done|done|].
    split; congruence.
Qed.

(** A pass over a node whose clock does not run backwards, with a
    positive report interval and a quarantine move that does not fail
    (neither invalidating a hash nor renaming a directory raises): every
    location the generator yields is audited, once and in the order in
    which it is yielded, so that what the pass does to the outside,
    its own reports apart, is what the audits of the locations do, one
    after the other; every location is counted; and the pass ends in
    its final summary, which raises [ZeroDivisionError] when the last
    reading of the clock is the first one and returns otherwise. *)
Theorem pass_audits_every_location (w : World) (mode : string) (st : run) :
  (∀ dir, invalidate_hash w dir = Return ()) →
  (∀ src dst, renamer w src dst = Return ()) →
  (∀ n m, (n ≤ m)%nat → (time_time w n <= time_time w m)%Q) →
  0 < log_time (self st) →
  let r := audit_all_objects w mode st in
  let locations := audit_location_generator w (devices (self st)) in
  let elapsed :=
    (time_time w (pred (clock r.1)) - time_time w (clock st))%Q in
  audits (trace r.1)
  = audits (trace st) ++ concat (audit_events w (self st) <$> locations)
  ∧ total_files_processed (self r.1) = Z.of_nat (length locations)
  ∧ r.2 = (if Qeq_bool elapsed 0 then Raise ZeroDivisionError else Return ()).
Proof.
  intros Hinv Hmove Hclock Hlog. unfold audit_all_objects.
  unfold now, divide. run_monad.
  set (st0 := {| self := reset_totals (self st); clock := S (clock st);
                 trace := trace st ++ [Log (BeginAudit mode (auditor_type (self st)))] |}).
  destruct (audit_locations_spec w (audit_location_generator w (devices (self st)))
              (time_time w (clock st)) st0 Hinv Hmove Hclock Hlog)
    as (reported & st1 & Hlocs & Hc & Htf & Hev).
  { exists (clock st). cbn. split; [lia|done]. }
  rewrite Hlocs. cbn [clock self].
  specialize (Hev (self st) ltac:(by split)).
  cbn [st0 trace] in Hev. rewrite audits_app in Hev. cbn in Hev.
  rewrite app_nil_r in Hev.
  destruct (Qeq_bool (time_time w (clock st1) - time_time w (clock st)) 0)
    eqn:Hzero; cbn; rewrite ?Hzero; cbn; rewrite ?Hzero.
  - split; [done|]. split; [|done]. rewrite Htf; cbn; lia.
  - rewrite audits_app, Hev. cbn. rewrite app_nil_r.
    split; [done|]. split; [|done]. rewrite Htf; cbn; lia.
Qed.

Lemma pass_audits_every_location_witness :
  let w := store 3 abc_digest (Return ())
             [(kept, "sdb", "3"); (misnamed, "sdb", "4")] in
  let r := audit_all_objects w "once" (start default_worker) in
  let elapsed :=
    (time_time w (pred (clock r.1))
     - time_time w (clock (start default_worker)))%Q in
  audits (trace r.1)
  = [ReadChunk 2; ReadChunk 1; Log (ErrorAuditing misnamed ValueError)]
  ∧ total_files_processed (self r.1) = 2
  ∧ r.2 = (if Qeq_bool elapsed 0 then Raise ZeroDivisionError else Return ()).
Proof.
  refine (pass_audits_every_location
            (store 3 abc_digest (Return ())
               [(kept, "sdb", "3"); (misnamed, "sdb", "4")])
            "once" (start default_worker)
            (fun _ => eq_refl) (fun _ _ => eq_refl) _ eq_refl).
  intros n m Hnm. unfold Qle. cbn. lia.
Defined.

End AuditPass.

(** ** json: numbers, booleans and null *)

Module JsonScalarFacts.
Import Json JsonScalars.

Lemma digit_cases d : 0 ≤ d < 10 →
  d = 0 ∨ d = 1 ∨ d = 2 ∨ d = 3 ∨ d = 4 ∨ d = 5 ∨ d = 6 ∨ d = 7 ∨ d = 8 ∨ d = 9.
Proof. lia. Qed.

Lemma digit_value_char d : 0 ≤ d < 10 → digit_value (digit_char d) = Some d.
Proof.
  intros H.
  destruct (digit_cases d H)
    as [->|[->|[->|[->|[->|[->|[->|[->|[->| ->]]]]]]]]]; reflexivity.
Qed.

(** [digits_of] writes the digits of [n] before [acc]: scanned from 0
    they give [n], and the scan goes on into what follows. *)
Lemma scan_digits_of fuel : ∀ n acc rest,
  0 ≤ n < 10 ^ Z.of_nat fuel →
  scan_digits (digits_of fuel n acc +:+ rest) 0 = scan_digits (acc +:+ rest) n.
Proof.
  induction fuel as [|fuel IH]; intros n acc rest Hn.
  - cbn [digits_of]. change (10 ^ Z.of_nat 0) with 1 in Hn.
    by replace n with 0 by lia.
  - cbn [digits_of].
    assert (0 ≤ n mod 10 < 10) as Hd by (apply Z.mod_pos_bound; lia).
    assert (n = n / 10 * 10 + n mod 10) as Hdiv
      by (rewrite (Z.div_mod n 10) at 1; lia).
    fold (digit_char (n mod 10)).
    destruct (n / 10 =? 0) eqn:Hq.
    + apply Z.eqb_eq in Hq. rewrite StrFacts.app_cons. cbn [scan_digits].
      rewrite (digit_value_char _ Hd). f_equal. lia.
    + apply Z.eqb_neq in Hq. rewrite IH.
      * rewrite StrFacts.app_cons. cbn [scan_digits].
        rewrite (digit_value_char _ Hd). f_equal. lia.
      * rewrite Nat2Z.inj_succ, Z.pow_succ_r in Hn by lia.
        split; [apply Z.div_pos; lia|]. apply Z.div_lt_upper_bound; lia.
Qed.

(** The first digit [digits_of] writes for a positive number is not
    a zero. *)
Lemma digits_of_head fuel : ∀ n acc,
  0 < n < 10 ^ Z.of_nat fuel →
  ∃ d r, digits_of fuel n acc = String (digit_char d) r ∧ 1 ≤ d < 10.
Proof.
  induction fuel as [|fuel IH]; intros n acc Hn.
  - change (10 ^ Z.of_nat 0) with 1 in Hn. lia.
  - cbn [digits_of].
    assert (0 ≤ n mod 10 < 10) as Hd by (apply Z.mod_pos_bound; lia).
    assert (n = n / 10 * 10 + n mod 10) as Hdiv
      by (rewrite (Z.div_mod n 10) at 1; lia).
    destruct (n / 10 =? 0) eqn:Hq.
    + apply Z.eqb_eq in Hq. exists (n mod 10), acc. split; [done|]. lia.
    + apply Z.eqb_neq in Hq. apply IH.
      rewrite Nat2Z.inj_succ, Z.pow_succ_r in Hn by lia.
      assert (0 ≤ n / 10) by (apply Z.div_pos; lia).
      split; [lia|]. apply Z.div_lt_upper_bound; lia.
Qed.

(** The fuel [str_of_int] gives is enough. *)
Lemma enough_fuel n : 0 < n → n < 10 ^ Z.of_nat (Z.to_nat (Z.log2 n) + 1).
Proof.
  intros Hn. pose proof (Z.log2_nonneg n) as Hl.
  destruct (Z.log2_spec n Hn) as [_ Hlt].
  replace (Z.of_nat (Z.to_nat (Z.log2 n) + 1)) with (Z.succ (Z.log2 n)) by lia.
  eapply Z.lt_le_trans; [exact Hlt|].
  apply Z.pow_le_mono_l. lia.
Qed.

Lemma closes_no_digit c rest a :
  closes c → scan_digits (String c rest) a = (a, String c rest).
Proof. by intros [-> | ->]. Qed.

(** The scanner reads a positive number back from its digits. *)
Lemma scan_natural_digits n c rest :
  0 < n → closes c →
  scan_natural
    (digits_of (Z.to_nat (Z.log2 n) + 1) n "" +:+ String c rest)
  = Some (n, String c rest).
Proof.
  intros Hn Hc. pose proof (enough_fuel n Hn) as Hfuel.
  pose proof (scan_digits_of (Z.to_nat (Z.log2 n) + 1) n "" (String c rest)
                ltac:(lia)) as Hscan.
  destruct (digits_of_head (Z.to_nat (Z.log2 n) + 1) n "" ltac:(lia))
    as (d & r & Hhead & Hd).
  rewrite Hhead in *. rewrite StrFacts.app_cons in *.
  cbn [scan_digits] in Hscan. cbn [scan_natural].
  rewrite (digit_value_char d) in * by lia.
  rewrite StrFacts.app_nil_l, (closes_no_digit _ _ _ Hc) in Hscan.
  replace (0 * 10 + d) with d in Hscan by lia. rewrite Hscan.
  destruct d as [|p|p]; [lia|done|lia].
Qed.

Lemma scan_scalar_digit d r :
  0 ≤ d < 10 →
  scan_scalar (String (digit_char d) r)
  = match scan_natural (String (digit_char d) r) with
    | Some (n, rest) => after_integer n rest
    | None => Raise ValueError
    end.
Proof.
  intros H.
  destruct (digit_cases d H)
    as [->|[->|[->|[->|[->|[->|[->|[->|[->| ->]]]]]]]]]; reflexivity.
Qed.

Lemma after_integer_closes n c rest :
  closes c → after_integer n (String c rest) = Return (PyInt n, String c rest).
Proof. by intros [-> | ->]. Qed.

(** The scanner reads an integer back from what [str] writes for
    it. *)
Lemma scan_scalar_int n c rest :
  closes c →
  scan_scalar (str_of_int n +:+ String c rest)
  = Return (PyInt n, String c rest).
Proof.
  intros Hc. unfold str_of_int. destruct (n <? 0) eqn:Hneg.
  - apply Z.ltb_lt in Hneg. rewrite StrFacts.app_cons.
    cbn [scan_scalar]. change (Str.eqc "-" dquote) with false.
    change (Str.eqc "-" "[" || Str.eqc "-" "{" || Str.eqc "-" "N"
            || Str.eqc "-" "I") with false.
    change (Str.eqc "-" "-") with true. cbv iota.
    rewrite scan_natural_digits by (done || lia).
    rewrite (after_integer_closes _ _ _ Hc). do 3 f_equal. lia.
  - apply Z.ltb_ge in Hneg. destruct (decide (n = 0)) as [->|Hn].
    + destruct Hc as [-> | ->]; reflexivity.
    + pose proof (enough_fuel n ltac:(lia)) as Hfuel.
      destruct (digits_of_head (Z.to_nat (Z.log2 n) + 1) n "" ltac:(lia))
        as (d & r & Hhead & Hd).
      pose proof (scan_natural_digits n c rest ltac:(lia) Hc) as Hnat.
      rewrite Hhead in *. rewrite StrFacts.app_cons in *.
      rewrite scan_scalar_digit by lia. rewrite Hnat.
      by apply after_integer_closes.
Qed.

(** The scanner reads any scalar of the fragment back from what
    [dumps] writes for it, when a comma or a brace follows. *)
Lemma scan_scalar_text v c rest :
  (∀ s, v = PyStr s → Str.all Str.is_ascii s = true) →
  closes c →
  scan_scalar (scalar_text v +:+ String c rest) = Return (v, String c rest).
Proof.
  intros Hv Hc. destruct v as [s|n|[]|]; cbn [scalar_text].
  - apply JsonFacts.scan_scalar_quoted. by apply Hv.
  - by apply scan_scalar_int.
  - reflexivity.
  - reflexivity.
  - reflexivity.
Qed.

End JsonScalarFacts.

(** ** json: objects of scalars *)

Module JsonObjectFacts.
Import Json JsonScalars.

Lemma dumps_member_entry kv :
  scalar_entry kv.1 kv.2 → dumps_member kv = Return (entry_text kv).
Proof.
  destruct kv as [k v]. intros [Hk Hv]. cbn [fst snd] in Hk, Hv.
  unfold dumps_member, dumps_string, entry_text. cbn [fst snd].
  rewrite Hk. cbn [mbind outcome_bind].
  destruct v as [s|n|[]|]; cbn [dumps_scalar scalar_text]; try done.
  unfold dumps_string. by rewrite (Hv s eq_refl).
Qed.

Lemma traverse_dumps_entry l :
  Forall (fun kv => scalar_entry kv.1 kv.2) l →
  traverse dumps_member l = Return (entry_text <$> l).
Proof.
  induction 1 as [|kv l Hkv _ IH]; [done|].
  cbn [traverse]. by rewrite (dumps_member_entry _ Hkv), IH.
Qed.

(** A member followed by [t], as the scanner meets it. *)
Lemma entry_text_app kv t :
  entry_text kv +:+ t
  = String dquote
      (escape_all kv.1
       +:+ String dquote
             (String ":" (String " " (scalar_text kv.2 +:+ t)))).
Proof.
  unfold entry_text.
  by rewrite !StrFacts.app_assoc, JsonFacts.quoted_app, !StrFacts.app_cons.
Qed.

Lemma skip_ws_scalar v t : skip_ws (scalar_text v +:+ t) = scalar_text v +:+ t.
Proof.
  destruct v as [s|n|[]|]; cbn [scalar_text]; try reflexivity.
  unfold str_of_int. destruct (n <? 0); [reflexivity|].
  destruct (Z.to_nat (Z.log2 n) + 1)%nat as [|fuel] eqn:Hfuel; [lia|].
  clear Hfuel. revert n. generalize "" as acc.
  induction fuel as [|fuel IH]; intros acc n.
  - cbn [digits_of].
    assert (0 ≤ n mod 10 < 10) as Hd by (apply Z.mod_pos_bound; lia).
    fold (digit_char (n mod 10)).
    assert (∀ r, skip_ws (String (digit_char (n mod 10)) r)
                 = String (digit_char (n mod 10)) r) as Hskip.
    { intros r. destruct (JsonScalarFacts.digit_cases _ Hd)
        as [->|[->|[->|[->|[->|[->|[->|[->|[->| ->]]]]]]]]]; reflexivity. }
    destruct (n / 10 =? 0); by rewrite StrFacts.app_cons, Hskip.
  - cbn [digits_of].
    assert (0 ≤ n mod 10 < 10) as Hd by (apply Z.mod_pos_bound; lia).
    fold (digit_char (n mod 10)).
    assert (∀ r, skip_ws (String (digit_char (n mod 10)) r)
                 = String (digit_char (n mod 10)) r) as Hskip.
    { intros r. destruct (JsonScalarFacts.digit_cases _ Hd)
        as [->|[->|[->|[->|[->|[->|[->|[->|[->| ->]]]]]]]]]; reflexivity. }
    destruct (n / 10 =? 0); [by rewrite StrFacts.app_cons, Hskip|].
    apply IH.
Qed.

Lemma scan_entry kv fuel c t acc :
  scalar_entry kv.1 kv.2 →
  closes c →
  scan_members (S fuel) (entry_text kv +:+ String c t) acc
  = if Str.eqc c "}" then Return (put acc kv, t)
    else scan_members fuel (skip_ws t) (put acc kv).
Proof.
  destruct kv as [k v]. intros [Hk Hv] Hc. cbn [fst snd] in Hk, Hv.
  rewrite entry_text_app. cbn [scan_members fst snd].
  change (Str.eqc dquote dquote) with true. cbv iota.
  rewrite (JsonFacts.scanstring_escape_all _ _ Hk).
  cbn [mbind outcome_bind fst snd].
  rewrite JsonFacts.skip_ws_colon. change (Str.eqc ":" ":") with true.
  cbv iota. rewrite JsonFacts.skip_ws_space, skip_ws_scalar.
  rewrite (JsonScalarFacts.scan_scalar_text _ _ _ Hv Hc).
  cbn [mbind outcome_bind fst snd].
  destruct Hc as [-> | ->]; reflexivity.
Qed.

Lemma skip_ws_entries kv l t :
  skip_ws (join_members (entry_text <$> kv :: l) +:+ t)
  = join_members (entry_text <$> kv :: l) +:+ t.
Proof.
  destruct l; cbn [fmap list_fmap join_members];
    rewrite ?StrFacts.app_assoc, entry_text_app; reflexivity.
Qed.

Lemma scan_entries_text l : ∀ fuel acc rest,
  l ≠ [] →
  Forall (fun kv => scalar_entry kv.1 kv.2) l →
  (length l ≤ fuel)%nat →
  scan_members fuel (join_members (entry_text <$> l) +:+ String "}" rest) acc
  = Return (foldl put acc l, rest).
Proof.
  induction l as [|kv l IH]; intros fuel acc rest Hne Hall Hfuel; [done|].
  apply Forall_cons in Hall as [Hkv Hall].
  destruct fuel as [|fuel]; [simpl in Hfuel; lia|].
  destruct l as [|kv' l].
  - cbn [fmap list_fmap join_members foldl].
    rewrite (scan_entry _ _ "}" _ _ Hkv); [done|by right].
  - change (join_members (entry_text <$> kv :: kv' :: l))
      with (entry_text kv +:+ ", " +:+ join_members (entry_text <$> kv' :: l)).
    rewrite !StrFacts.app_assoc.
    change (", " +:+ join_members (entry_text <$> kv' :: l) +:+ String "}" rest)
      with (String "," (String " " (join_members (entry_text <$> kv' :: l)
                                      +:+ String "}" rest))).
    rewrite (scan_entry _ _ "," _ _ Hkv) by by left.
    change (Str.eqc "," "}") with false. cbv iota.
    rewrite JsonFacts.skip_ws_space, skip_ws_entries.
    rewrite IH; [done|done|done|]. simpl in *. lia.
Qed.

Lemma length_join_entries l :
  (length l ≤ String.length (join_members (entry_text <$> l)))%nat.
Proof.
  induction l as [|kv [|kv' l] IH]; [simpl; lia| |].
  - cbn [fmap list_fmap join_members]. rewrite <- (StrFacts.app_nil_r (entry_text kv)).
    rewrite entry_text_app. simpl. lia.
  - change (join_members (entry_text <$> kv :: kv' :: l))
      with (entry_text kv +:+ ", " +:+ join_members (entry_text <$> kv' :: l)).
    rewrite !JsonFacts.length_app. simpl in *. lia.
Qed.

(** [loads] reads an object of scalars back from what [dumps] writes
    for it: strings, integers, booleans and null. *)
Lemma loads_dumps_scalars (d : gmap string pyval) :
  map_Forall scalar_entry d →
  ∃ j, dumps d = Return j ∧ loads j = Return (Dict d).
Proof.
  intros Hd%map_Forall_to_list.
  assert (Forall (fun kv => scalar_entry kv.1 kv.2) (map_to_list d)) as Hl.
  { eapply Forall_impl; [exact Hd|]. by intros []. }
  unfold dumps. rewrite (traverse_dumps_entry _ Hl). eexists. split; [done|].
  assert (dict_of_items (map_to_list d) = d) as Hback.
  { apply DictFacts.dict_of_items_map_to_list. }
  unfold dict_of_items in Hback. revert Hl Hback.
  generalize (map_to_list d) as l. intros l Hl Hback.
  rewrite !StrFacts.app_cons, StrFacts.app_nil_l.
  unfold loads. cbn [skip_ws].
  change (is_ws "{") with false. cbv iota.
  change (Str.eqc "{" "{") with true. cbv iota.
  destruct l as [|kv l].
  - simpl in Hback. by subst d.
  - rewrite skip_ws_entries.
    rewrite scan_entries_text; [|done|done|].
    + destruct l; cbn [fmap list_fmap join_members];
        rewrite ?StrFacts.app_assoc, entry_text_app;
        cbn [mbind outcome_bind fst snd finish skip_ws]; by rewrite Hback.
    + pose proof (length_join_entries (kv :: l)).
      cbn [String.length]. rewrite JsonFacts.length_app. lia.
Qed.

End JsonObjectFacts.

(** ** The crypto-meta envelope: values come back as [str] writes them *)

Module CodecCasts.
Import CryptoUtils CryptoCasts.

Lemma lookup_encoded_values m name :
  encoded_values m !! name = encoded name <$> m !! name.
Proof.
  unfold encoded_values. rewrite map_lookup_imap. by destruct (m !! name).
Qed.

Lemma lookup_cast_meta m name :
  cast_meta m !! name = cast name <$> m !! name.
Proof.
  unfold cast_meta. rewrite map_lookup_imap. by destruct (m !! name).
Qed.

Lemma dump_plain_comprehension m :
  plain_meta m →
  dict_comprehension
    (fun name value =>
       v ← (if bool_decide (name = "iv") then b64encode_value value
            else Return value);
       Return (name, v))
    m
  = Return (encoded_values m).
Proof.
  intros Hm. apply DictFacts.dict_comprehension_total. intros k v Hk.
  destruct (Hm _ _ Hk) as (_ & Hiv & _).
  unfold encoded. case_bool_decide as Hname; [|done].
  by destruct (Hiv Hname) as [s ->].
Qed.

Lemma encoded_values_scalar m :
  plain_meta m → map_Forall JsonScalars.scalar_entry (encoded_values m).
Proof.
  intros Hm k v. rewrite lookup_encoded_values.
  destruct (m !! k) as [v0|] eqn:Hk; [|done]. intros [= <-].
  destruct (Hm _ _ Hk) as (Hname & Hiv & Hother). split; [done|].
  unfold encoded. case_bool_decide as Hk'.
  - destruct (Hiv Hk') as [s0 ->]. intros s [= <-].
    apply Codec.b64encode_ascii.
  - by apply Hother.
Qed.

Lemma load_plain_comprehension m :
  plain_meta m →
  dict_comprehension
    (fun name value =>
       v ← (if bool_decide (name = "iv") then b64decode_value value
            else Return (py_str value));
       Return (name, v))
    (encoded_values m)
  = Return (cast_meta m).
Proof.
  intros Hm.
  rewrite (DictFacts.dict_comprehension_total _
             (fun name _ => default "" (cast name <$> m !! name))).
  - f_equal. apply map_eq. intros k.
    rewrite map_lookup_imap, lookup_encoded_values, lookup_cast_meta.
    by destruct (m !! k).
  - intros k v. rewrite lookup_encoded_values.
    destruct (m !! k) as [v0|] eqn:Hk; [|done]. intros [= <-].
    destruct (Hm _ _ Hk) as (_ & Hiv & _).
    unfold encoded, cast. case_bool_decide as Hk'; [|done].
    destruct (Hiv Hk') as [s ->]. cbn [b64decode_value fmap option_fmap option_map default].
    by rewrite Base64Facts.b64decode_b64encode.
Qed.

(** For every crypto meta of the JSON fragment (integers, booleans and
    [None] beside strings; the [iv] any byte string), [dump_crypto_meta]
    returns a text from which [load_crypto_meta] returns the crypto meta
    with the [iv] as it was and every other value as [str] writes it: a
    string comes back unchanged, the others as their text. *)
Theorem load_dump_casts_values (m : gmap string pyval) :
  plain_meta m →
  ∃ text,
    dump_crypto_meta m = Return text
    ∧ load_crypto_meta text = Return (cast_meta m).
Proof.
  intros Hm.
  destruct (JsonObjectFacts.loads_dumps_scalars _ (encoded_values_scalar _ Hm))
    as (j & Hdumps & Hloads).
  exists (Urllib.quote_plus j). split.
  - unfold dump_crypto_meta. rewrite (dump_plain_comprehension _ Hm).
    cbn [mbind outcome_bind]. by rewrite Hdumps.
  - unfold load_crypto_meta.
    rewrite UrllibFacts.unquote_plus_quote_plus, Hloads.
    cbn [mbind outcome_bind items]. by rewrite (load_plain_comprehension _ Hm).
Qed.

Lemma mixed_meta_plain : plain_meta mixed_meta.
Proof.
  assert (∀ name value,
            (name = "iv" ∧ value = PyStr binary_iv)
            ∨ (name ≠ "iv"
               ∧ Str.all Str.is_ascii name = true
               ∧ ∀ s, value = PyStr s → Str.all Str.is_ascii s = true) →
            Str.all Str.is_ascii name = true
            ∧ (name = "iv" → ∃ s, value = PyStr s)
            ∧ (name ≠ "iv" →
               ∀ s, value = PyStr s → Str.all Str.is_ascii s = true)) as Hentry.
  { intros name value [[-> ->]|(Hname & Hascii & Hvalue)].
    - split; [done|]. split; [by eexists|done].
    - split; [done|]. split; [done|]. by intros _. }
  intros name value Hlookup. apply Hentry. unfold mixed_meta in Hlookup.
  apply lookup_insert_Some in Hlookup as [[<- <-]|[_ Hlookup]]; [by left|].
  right.
  apply lookup_insert_Some in Hlookup as [[<- <-]|[_ Hlookup]].
  { split; [done|]. split; [done|]. by intros s [= <-]. }
  apply lookup_insert_Some in Hlookup as [[<- <-]|[_ Hlookup]].
  { split; [done|]. split; [done|]. by intros s. }
  apply lookup_insert_Some in Hlookup as [[<- <-]|[_ Hlookup]].
  { split; [done|]. split; [done|]. by intros s. }
  apply lookup_singleton_Some in Hlookup as [<- <-].
  split; [done|]. split; [done|]. by intros s.
Qed.

Lemma load_dump_casts_values_witness :
  ∃ text,
    dump_crypto_meta mixed_meta = Return text
    ∧ load_crypto_meta text = Return (cast_meta mixed_meta).
Proof. exact (load_dump_casts_values mixed_meta mixed_meta_plain). Defined.

(** What [cast_meta] is on the sample: the number, the flag and the
    missing value have become text. *)
Example cast_meta_sample :
  cast_meta mixed_meta !! "iv" = Some binary_iv
  ∧ cast_meta mixed_meta !! "cipher" = Some "AES_CTR_256"
  ∧ cast_meta mixed_meta !! "key_id" = Some "-1205"
  ∧ cast_meta mixed_meta !! "sealed" = Some "True"
  ∧ cast_meta mixed_meta !! "path" = Some "None".
Proof. rewrite !lookup_cast_meta. by repeat split. Qed.

(** For every value and every crypto meta of the JSON fragment,
    [extract_crypto_meta] gives back, from what [append_crypto_meta]
    returns, the value unchanged and the crypto meta with its values cast
    in the same way. *)
Theorem extract_append_casts_values (value : string) (m : gmap string pyval) :
  plain_meta m →
  ∃ text,
    append_crypto_meta value m = Return text
    ∧ extract_crypto_meta text = Return (value, Some (cast_meta m)).
Proof.
  intros Hm.
  destruct (JsonObjectFacts.loads_dumps_scalars _ (encoded_values_scalar _ Hm))
    as (j & Hdumps & Hloads).
  assert (dump_crypto_meta m = Return (Urllib.quote_plus j)) as Hdump.
  { unfold dump_crypto_meta. rewrite (dump_plain_comprehension _ Hm).
    cbn [mbind outcome_bind]. by rewrite Hdumps. }
  exists (value +:+ "; meta=" +:+ Urllib.quote_plus j). split.
  - unfold append_crypto_meta. by rewrite Hdump.
  - rewrite Codec.extract_appended by apply UrllibFacts.quote_plus_url_safe.
    unfold load_crypto_meta.
    rewrite UrllibFacts.unquote_plus_quote_plus, Hloads.
    cbn [mbind outcome_bind items].
    by rewrite (load_plain_comprehension _ Hm).
Qed.

Lemma extract_append_casts_values_witness :
  ∃ text,
    append_crypto_meta "a;b; meta=c" mixed_meta = Return text
    ∧ extract_crypto_meta text
      = Return ("a;b; meta=c", Some (cast_meta mixed_meta)).
Proof.
  exact (extract_append_casts_values "a;b; meta=c" mixed_meta mixed_meta_plain).
Defined.

End CodecCasts.
